(** * Daily puzzle game: the adaptive puzzle and analytics engine

    A shallow embedding of the JavaScript sources of the engine
    (puzzle generator, difficulty engine, hint engine, insights engine,
    retention and streak engines, and the Dexie activity store), followed by
    the properties proved about them.

    Conventions of the embedding
    - a JavaScript number that the code only ever uses as an integer is a [Z];
      an array index or a length is a [nat]; a quotient that is rounded
      afterwards is an exact rational [Q];
    - a string is a [string] of bytes (UTF-8, as crypto-js reads it);
    - a calendar date of the activity log is its day number (a [Z]): the
      source keeps it as the canonical text YYYY-MM-DD, whose text order is
      the chronological order and on which dayjs formatting and
      [subtract(1, "day")] are day arithmetic; [diff(_, "day")] measures the
      time elapsed between the starts of two days and is read through the
      time zone of the device ([Dayjs.Zone]);
    - an object literal is a [Record]; a field read through [??] is an
      [option]; a [Set] is a [gset]; the Dexie table is a [gmap] from the
      primary key to the row;
    - code that reads the clock or the store lives in the monad [IO]. *)

From Stdlib Require Import ZArith QArith Qround Lqa String Ascii.
From stdpp Require Import gmap strings list sorting pretty.

Local Open Scope Z_scope.

(* ===================================================================== *)
(** * Part I. The embedding                                                *)
(* ===================================================================== *)

(** ** JavaScript primitives used by the sources *)

Module JS.

(** [Math.round]: the nearest integer, a tie going towards +infinity. *)
Definition Math_round (x : Q) : Z := Qfloor (x + (1 # 2)).

(** [Math.floor(a / b)] on integers with [b > 0]. *)
Definition Math_floor_div (a b : nat) : nat := (a / b)%nat.

(** [a % b], the remainder that takes the sign of the dividend. *)
Definition rem (a b : Z) : Z := Z.rem a b.

(** [String(n)] and string interpolation of an integer. *)
Definition toString (n : Z) : string := pretty n.

(** A slot of an array of [number | null]; [Empty] is a hole, which an
    assignment past the end of an array leaves behind. *)
Inductive cell : Type :=
| Num (n : Z)
| Null
| Empty.

#[global] Instance cell_eq_dec : EqDecision cell.
Proof. solve_decision. Defined.

(** [arr[i] = v].  Inside the array the slot is overwritten; past the end
    JavaScript extends the array up to index [i], leaving holes. *)
Definition array_set (i : nat) (v : cell) (arr : list cell) : list cell :=
  if decide (i < length arr)%nat
  then <[i := v]> arr
  else arr ++ replicate (i - length arr) Empty ++ [v].

(** [Array.from({ length: n }, (_, i) => i)]. *)
Definition range (n : nat) : list nat := seq 0 n.

(** [arr.slice(a, b)] for [0 <= a]. *)
Definition slice {A} (a b : nat) (arr : list A) : list A :=
  take (b - a) (drop a arr).

(** [arr.sort(cmp)].  The sort is stable (ECMAScript 2019); for a comparator
    that is a consistent ordering its result is the stable sorted list,
    which insertion computes: [x] goes in front of the first element it
    does not have to follow. *)
Fixpoint sort_insert {A} (cmp : A -> A -> Z) (x : A) (l : list A) : list A :=
  match l with
  | [] => [x]
  | y :: l' => if decide (cmp x y <= 0) then x :: y :: l'
               else y :: sort_insert cmp x l'
  end.

Fixpoint sort {A} (cmp : A -> A -> Z) (l : list A) : list A :=
  match l with
  | [] => []
  | x :: l' => sort_insert cmp x (sort cmp l')
  end.

(** [parseInt(s, 16)] on a string of hexadecimal digits. *)
Definition hexValue (c : ascii) : option Z :=
  let n := Z.of_N (N_of_ascii c) in
  if decide (48 <= n <= 57) then Some (n - 48)
  else if decide (97 <= n <= 102) then Some (n - 87)
  else if decide (65 <= n <= 70) then Some (n - 55)
  else None.

Fixpoint parseHex (acc : Z) (s : string) : Z :=
  match s with
  | EmptyString => acc
  | String c s' =>
      match hexValue c with
      | Some d => parseHex (16 * acc + d) s'
      | None => acc
      end
  end.

Definition parseInt16 (s : string) : Z := parseHex 0 s.

(** Object literals are read by their own properties: a key that names a
    member every object inherits ([constructor], [toString], ...) is
    outside the embedding, and [plainKey] says a string is not one. *)
Definition inheritedNames : list string :=
  [ "constructor"; "toString"; "toLocaleString"; "valueOf";
    "hasOwnProperty"; "isPrototypeOf"; "propertyIsEnumerable";
    "__proto__"; "__defineGetter__"; "__defineSetter__";
    "__lookupGetter__"; "__lookupSetter__" ].

Definition plainKey (key : string) : Prop := key ∉ inheritedNames.

End JS.

(** ** crypto-js: SHA-256 (FIPS 180-4) and the hexadecimal digest *)

Module CryptoJS.

Definition w32 : Z := 2 ^ 32.
Definition add32 (a b : Z) : Z := (a + b) mod w32.
Definition not32 (a : Z) : Z := Z.lxor a (w32 - 1).
Definition rotr (n x : Z) : Z :=
  Z.lor (Z.shiftr x n) (Z.land (Z.shiftl x (32 - n)) (w32 - 1)).

Definition Ch (x y z : Z) : Z := Z.lxor (Z.land x y) (Z.land (not32 x) z).
Definition Maj (x y z : Z) : Z :=
  Z.lxor (Z.lxor (Z.land x y) (Z.land x z)) (Z.land y z).
Definition bigSigma0 (x : Z) : Z :=
  Z.lxor (Z.lxor (rotr 2 x) (rotr 13 x)) (rotr 22 x).
Definition bigSigma1 (x : Z) : Z :=
  Z.lxor (Z.lxor (rotr 6 x) (rotr 11 x)) (rotr 25 x).
Definition smallSigma0 (x : Z) : Z :=
  Z.lxor (Z.lxor (rotr 7 x) (rotr 18 x)) (Z.shiftr x 3).
Definition smallSigma1 (x : Z) : Z :=
  Z.lxor (Z.lxor (rotr 17 x) (rotr 19 x)) (Z.shiftr x 10).

(** The constants, as crypto-js computes them when it loads: the first 32
    bits of the fractional parts of the square roots (for [H0], of the
    first eight primes) and of the cube roots (for [K], of the first 64
    primes). *)
Definition isPrime (n : nat) : bool :=
  forallb (fun factor => negb (n mod factor =? 0)%nat)
          (seq 2 (Nat.sqrt n - 1)).

Definition primes : list Z :=
  map Z.of_nat (take 64 (List.filter isPrime (seq 2 400))).

(** The integer cube root of a number below [2 ^ 108], bit by bit. *)
Definition cbrt (n : Z) : Z :=
  fold_left (fun r b => let r' := r + 2 ^ Z.of_nat b in
                        if decide (r' ^ 3 <= n) then r' else r)
            (rev (seq 0 36)) 0.

Definition K : list Z := map (fun p => cbrt (p * 2 ^ 96) mod w32) primes.

Definition H0 : list Z :=
  map (fun p => Z.sqrt (p * 2 ^ 64) mod w32) (take 8 primes).

(** The bytes of the message. *)
Fixpoint bytes (s : string) : list Z :=
  match s with
  | EmptyString => []
  | String c s' => Z.of_N (N_of_ascii c) :: bytes s'
  end.

(** [n] as [k] big-endian bytes. *)
Fixpoint bigEndian (k : nat) (n : Z) : list Z :=
  match k with
  | O => []
  | S k' => bigEndian k' (n / 256) ++ [n mod 256]
  end.

(** Padding: a 1 bit, zeros up to 56 modulo 64 bytes, the bit length. *)
Definition pad (msg : list Z) : list Z :=
  let len := Z.of_nat (length msg) in
  msg ++ [128] ++ replicate (Z.to_nat ((55 - len) mod 64)) 0
      ++ bigEndian 8 (8 * len).

(** Big-endian 32-bit words. *)
Fixpoint words (fuel : nat) (bs : list Z) : list Z :=
  match fuel, bs with
  | S fuel', b0 :: b1 :: b2 :: b3 :: rest =>
      (((b0 * 256 + b1) * 256 + b2) * 256 + b3) :: words fuel' rest
  | _, _ => []
  end.

(** The message schedule, extended from 16 to 64 words. *)
Fixpoint schedule (n : nat) (w : list Z) : list Z :=
  match n with
  | O => w
  | S n' =>
      let t := length w in
      let at_ (k : nat) := nth (t - k) w 0 in
      schedule n'
        (w ++ [add32 (add32 (smallSigma1 (at_ 2%nat)) (at_ 7%nat))
                     (add32 (smallSigma0 (at_ 15%nat)) (at_ 16%nat))])
  end.

Definition round (st : list Z) (kw : Z * Z) : list Z :=
  match st with
  | [a; b; c; d; e; f; g; h] =>
      let t1 := add32 (add32 (add32 h (bigSigma1 e)) (Ch e f g))
                      (add32 kw.1 kw.2) in
      let t2 := add32 (bigSigma0 a) (Maj a b c) in
      [add32 t1 t2; a; b; c; add32 d t1; e; f; g]
  | _ => st
  end.

Definition compress (h : list Z) (block : list Z) : list Z :=
  let w := schedule 48 block in
  zip_with add32 h (fold_left round (zip K w) h).

Fixpoint blocks (fuel : nat) (ws : list Z) (h : list Z) : list Z :=
  match fuel, ws with
  | _, [] => h
  | O, _ => h
  | S fuel', _ => blocks fuel' (drop 16 ws) (compress h (take 16 ws))
  end.

(** [SHA256(message)]: the digest as eight 32-bit words. *)
Definition SHA256 (message : string) : list Z :=
  let bs := pad (bytes message) in
  let ws := words (length bs) bs in
  blocks (length ws) ws H0.

(** [digest.toString()]: lower-case hexadecimal, eight digits a word. *)
Definition hexDigit (d : Z) : ascii :=
  ascii_of_N (Z.to_N (if decide (d < 10) then 48 + d else 87 + d)).

Fixpoint hexWord (k : nat) (n : Z) (tail : string) : string :=
  match k with
  | O => tail
  | S k' => hexWord k' (n / 16) (String (hexDigit (n mod 16)) tail)
  end.

Definition toString (digest : list Z) : string :=
  fold_right (fun w s => hexWord 8 w s) EmptyString digest.

End CryptoJS.

(** ** puzzleGenerator.js: the deterministic generators *)

Module PuzzleGenerator.
Import JS.

(** *** Seeded derivation *)

Definition sr (seedString : string) : Z :=
  let hash := CryptoJS.toString (CryptoJS.SHA256 seedString) in
  parseInt16 (substring 0 8 hash).

Definition srRange (seed : string) (min max : Z) : Z :=
  min + rem (sr seed) (max - min + 1).

(** *** Sequence puzzles *)

Definition pickSequencePattern (date difficulty : string) : string :=
  let pick := Z.to_nat (rem (sr (date +:+ "seqpattern")) 2) in
  let patterns : gmap string (list string) :=
    {[ "easy"   := ["arithmetic"; "geometric"];
       "medium" := ["squares"; "fibonacci"];
       "hard"   := ["alternating"; "polynomial"] ]} in
  default "arithmetic" (patterns !! difficulty ≫= (.!! pick)).

Record SeqResult : Type := mkSeqResult {
  r_sequence : list Z;
  r_answer : Z;
  r_hint : string
}.

Record ArithRange : Type := mkArithRange {
  baseMin : Z; baseMax : Z; stepMin : Z; stepMax : Z
}.

Definition genArithmetic (date difficulty : string) : SeqResult :=
  let easy := mkArithRange 1 10 2 6 in
  let ranges : gmap string ArithRange :=
    {[ "easy"   := easy;
       "medium" := mkArithRange 5 30 4 12;
       "hard"   := mkArithRange 10 50 7 20 ]} in
  let r := default easy (ranges !! difficulty) in
  let base := srRange (date +:+ "arith_base") (baseMin r) (baseMax r) in
  let step := srRange (date +:+ "arith_step") (stepMin r) (stepMax r) in
  let terms := map (fun i : nat => base + Z.of_nat i * step) (range 5) in
  {| r_sequence := terms;
     r_answer := base + 5 * step;
     r_hint := "Arithmetic sequence (+" +:+ toString step +:+ " each term)" |}.

Record GeoRange : Type := mkGeoRange {
  g_baseMin : Z; g_baseMax : Z; ratioMin : Z; ratioMax : Z
}.

Definition genGeometric (date difficulty : string) : SeqResult :=
  let easy := mkGeoRange 1 4 2 3 in
  let ranges : gmap string GeoRange :=
    {[ "easy"   := easy;
       "medium" := mkGeoRange 1 5 2 4;
       "hard"   := mkGeoRange 2 6 3 5 ]} in
  let r := default easy (ranges !! difficulty) in
  let base := srRange (date +:+ "geo_base") (g_baseMin r) (g_baseMax r) in
  let ratio := srRange (date +:+ "geo_ratio") (ratioMin r) (ratioMax r) in
  let terms := map (fun i : nat => base * ratio ^ Z.of_nat i) (range 5) in
  {| r_sequence := terms;
     r_answer := base * ratio ^ 5;
     r_hint := "Geometric sequence (×" +:+ toString ratio +:+ " each term)" |}.

Definition genSquares (date : string) : SeqResult :=
  let startN := srRange (date +:+ "sq_start") 1 8 in
  let terms := map (fun i : nat => (startN + Z.of_nat i) ^ 2) (range 5) in
  {| r_sequence := terms;
     r_answer := (startN + 5) ^ 2;
     r_hint := "Perfect squares starting from " +:+ toString startN +:+ "²" |}.

Definition genFibonacci (date : string) : SeqResult :=
  let a0 := srRange (date +:+ "fib_a0") 1 5 in
  let a1 := srRange (date +:+ "fib_a1") 2 8 in
  let terms :=
    fold_left (fun (t : list Z) (i : nat) =>
                 t ++ [nth (i - 1) t 0 + nth (i - 2) t 0])
              (seq 2 3) [a0; a1] in
  let answer := nth 3 terms 0 + nth 4 terms 0 in
  {| r_sequence := terms;
     r_answer := answer;
     r_hint := "Each term = sum of previous two (Fibonacci-style)" |}.

Definition genAlternating (date : string) : SeqResult :=
  let base := srRange (date +:+ "alt_base") 2 5 in
  let ratio := srRange (date +:+ "alt_ratio") 2 3 in
  let terms :=
    map (fun i : nat => (-1) ^ Z.of_nat i * base * ratio ^ Z.of_nat i)
        (range 5) in
  let answer := (-1) ^ 5 * base * ratio ^ 5 in
  {| r_sequence := terms;
     r_answer := answer;
     r_hint := "Alternating signs, geometric growth (×" +:+ toString ratio
               +:+ ")" |}.

Definition genPolynomial (date : string) : SeqResult :=
  let a := srRange (date +:+ "poly_a") 1 5 in
  let b := srRange (date +:+ "poly_b") 1 4 in
  let c := srRange (date +:+ "poly_c") 1 3 in
  let terms :=
    map (fun i : nat => a + b * (Z.of_nat i + 1) + c * (Z.of_nat i + 1) ^ 2)
        (range 5) in
  let answer := a + b * 6 + c * 36 in
  {| r_sequence := terms;
     r_answer := answer;
     r_hint := "Quadratic sequence (a + b×n + c×n²)" |}.

Record SequencePuzzle : Type := mkSequencePuzzle {
  s_type : string;
  sequence : list Z;
  answer : Z;
  s_hint : string;
  s_patternKey : string;
  s_difficulty : string;
  s_date : string
}.

Definition generateSequencePuzzle (date difficulty : string)
  : SequencePuzzle :=
  let pattern := pickSequencePattern date difficulty in
  let result :=
    if decide (pattern = "geometric") then genGeometric date difficulty
    else if decide (pattern = "squares") then genSquares date
    else if decide (pattern = "fibonacci") then genFibonacci date
    else if decide (pattern = "alternating") then genAlternating date
    else if decide (pattern = "polynomial") then genPolynomial date
    else genArithmetic date difficulty in
  {| s_type := "sequence";
     sequence := r_sequence result;
     answer := r_answer result;
     s_hint := r_hint result;
     s_patternKey := pattern;
     s_difficulty := difficulty;
     s_date := date |}.

(** *** Matrix puzzles *)

Definition pickMatrixPattern (date difficulty : string) : string :=
  let patterns : gmap string (list string) :=
    {[ "easy"   := ["arithmetic"];
       "medium" := ["arithmetic"; "multiplication"];
       "hard"   := ["multiplication"; "polynomial"] ]} in
  let opts := default ["arithmetic"] (patterns !! difficulty) in
  let pick :=
    Z.to_nat (rem (sr (date +:+ "matpattern")) (Z.of_nat (length opts))) in
  nth pick opts "arithmetic".

Record Built : Type := mkBuilt {
  b_grid : list Z;
  b_hint : string;
  ruleKey : string
}.

(** The two nested loops over [r] and [c], pushing row by row. *)
Definition grid4 (cellAt : Z -> Z -> Z) : list Z :=
  flat_map (fun r : nat =>
              map (fun c : nat => cellAt (Z.of_nat r) (Z.of_nat c)) (range 4))
           (range 4).

Definition buildArithmeticGrid (date : string) : Built :=
  let base := srRange (date +:+ "mat_base") 2 10 in
  let rowStep := srRange (date +:+ "mat_rowstep") 2 8 in
  let colStep := srRange (date +:+ "mat_colstep") 1 6 in
  {| b_grid := grid4 (fun r c => base + r * rowStep + c * colStep);
     b_hint := "Row increases by " +:+ toString rowStep
               +:+ ", column increases by " +:+ toString colStep;
     ruleKey := "arithmetic" |}.

Definition buildMultiplicationGrid (date : string) : Built :=
  let rBase := srRange (date +:+ "mul_rbase") 1 5 in
  let cBase := srRange (date +:+ "mul_cbase") 1 5 in
  {| b_grid := grid4 (fun r c => (r + rBase) * (c + cBase));
     b_hint := "Multiplication table: row factor " +:+ toString rBase
               +:+ "–" +:+ toString (rBase + 3) +:+ ", column factor "
               +:+ toString cBase +:+ "–" +:+ toString (cBase + 3);
     ruleKey := "multiplication" |}.

Definition buildPolynomialGrid (date : string) : Built :=
  let base := srRange (date +:+ "poly_base") 1 5 in
  let rowStep := srRange (date +:+ "poly_rs") 2 5 in
  let colStep := srRange (date +:+ "poly_cs") 1 4 in
  let mixStep := srRange (date +:+ "poly_mix") 1 3 in
  {| b_grid :=
       grid4 (fun r c => base + r * rowStep + c * colStep + r * c * mixStep);
     b_hint := "Each cell = base + row×" +:+ toString rowStep +:+ " + col×"
               +:+ toString colStep +:+ " + row×col×" +:+ toString mixStep;
     ruleKey := "polynomial" |}.

(** The body of [for (const idx of shuffled)]: [todo] is what is left of
    [shuffled], [blanked] the set built so far. *)
Fixpoint blankLoop (indices : list nat) (count : Z) (todo : list nat)
    (blanked : gset nat) : gset nat :=
  match todo with
  | [] => blanked
  | idx :: rest =>
      if decide (count <= Z.of_nat (size blanked)) then blanked
      else
        let row := Math_floor_div idx 4 in
        let col := (idx mod 4)%nat in
        let visibleInRow :=
          length (filter (fun i => Math_floor_div i 4 = row
                                   /\ i <> idx /\ i ∉ blanked) indices) in
        let visibleInCol :=
          length (filter (fun i => (i mod 4)%nat = col
                                   /\ i <> idx /\ i ∉ blanked) indices) in
        if decide (2 <= visibleInRow /\ 2 <= visibleInCol)%nat
        then blankLoop indices count rest ({[idx]} ∪ blanked)
        else blankLoop indices count rest blanked
  end.

(** [shuffled]: the sixteen indices sorted on their seeded keys.  [sort]
    works in place, so [indices] is the same, sorted, array afterwards. *)
Definition shuffledIndices (date : string) : list nat :=
  sort (fun a b : nat =>
          sr (date +:+ "blank" +:+ toString (Z.of_nat a))
          - sr (date +:+ "blank" +:+ toString (Z.of_nat b)))
       (range 16).

Definition blankCells (flatGrid : list Z) (count : Z) (date : string)
  : list cell :=
  let puzzle := map Num flatGrid in
  let indices := shuffledIndices date in
  let shuffled := indices in
  let blanked := blankLoop indices count shuffled ∅ in
  foldr (fun idx p => array_set idx Null p) puzzle (elements blanked).

Record MatrixPuzzle : Type := mkMatrixPuzzle {
  m_type : string;
  grid : list cell;
  solution : list Z;
  m_hint : string;
  m_patternKey : string;
  m_difficulty : string;
  m_date : string
}.

Definition blankCounts : gmap string Z :=
  {[ "easy" := 3; "medium" := 5; "hard" := 7 ]}.

Definition generateMatrixPuzzle (date difficulty : string) : MatrixPuzzle :=
  let pattern := pickMatrixPattern date difficulty in
  let built :=
    if decide (pattern = "multiplication") then buildMultiplicationGrid date
    else if decide (pattern = "polynomial") then buildPolynomialGrid date
    else buildArithmeticGrid date in
  let blankCount := default 3 (blankCounts !! difficulty) in
  let puzzleGrid := blankCells (b_grid built) blankCount date in
  {| m_type := "matrix";
     grid := puzzleGrid;
     solution := b_grid built;
     m_hint := b_hint built;
     m_patternKey := ruleKey built;
     m_difficulty := difficulty;
     m_date := date |}.

End PuzzleGenerator.

(** ** db.js: the Dexie activity table *)

Module Db.
Import JS.

(** The [synced] flag as a JavaScript value: a number, or a boolean as the
    first schema versions stored it. *)
Inductive flag : Type :=
| FNum (n : Z)
| FBool (b : bool).

Definition truthy (v : flag) : bool :=
  match v with
  | FNum n => negb (n =? 0)
  | FBool b => b
  end.

(** A row of the table.  [date] is the primary key; every other field may
    be missing ([undefined]) as far as the readers are concerned. *)
Record Activity : Type := mkActivity {
  date : Z;
  uid : option string;
  score : option Z;
  timeTaken : option Z;
  difficulty : option string;
  solved : option bool;
  attempts : option Z;
  puzzleSeed : option string;
  synced : option flag;
  createdAt : option Z
}.

(** The argument of [saveDailyActivity]: a partial record.  [in_date] is
    [None] when [activity.date] is missing, empty or not a string. *)
Record ActivityInput : Type := mkActivityInput {
  in_date : option Z;
  in_uid : option string;
  in_score : option Z;
  in_timeTaken : option Z;
  in_difficulty : option string;
  in_solved : option bool;
  in_attempts : option Z;
  in_puzzleSeed : option string;
  in_synced : option flag;
  in_createdAt : option Z
}.

(** What the code can observe outside its arguments: the table and the
    clock (milliseconds since the epoch). *)
Record World : Type := mkWorld {
  activities : gmap Z Activity;
  clock : Z
}.

(** The result of running a piece of code. [Diverged] is a loop that did
    not finish within the bound the embedding gives it. *)
Inductive outcome (A : Type) : Type :=
| Returned (a : A)
| Thrown (msg : string)
| Diverged.
Arguments Returned {A} a.
Arguments Thrown {A} msg.
Arguments Diverged {A}.

Definition IO (A : Type) : Type := World -> outcome A * World.

#[global] Instance IO_ret : MRet IO :=
  fun A (a : A) w => (Returned a, w).

#[global] Instance IO_bind : MBind IO :=
  fun A B (k : A -> IO B) (m : IO A) w =>
    match m w with
    | (Returned a, w') => k a w'
    | (Thrown e, w') => (Thrown e, w')
    | (Diverged, w') => (Diverged, w')
    end.

Definition throw {A} (msg : string) : IO A := fun w => (Thrown msg, w).

(** [try { m } catch (_) { h }]. *)
Definition try_catch {A} (m : IO A) (h : IO A) : IO A :=
  fun w =>
    match m w with
    | (Thrown _, w') => h w'
    | r => r
    end.

(** A sequential loop that ran out of its bound. *)
Definition of_fuel {A} (r : option A) : IO A :=
  fun w => (match r with Some a => Returned a | None => Diverged end, w).

(** [Date.now()]. *)
Definition Date_now : IO Z := fun w => (Returned (clock w), w).

Definition msPerDay : Z := 86400000.

(** [dayjs().format("YYYY-MM-DD")]: the day the clock is in. *)
Definition dayjs_today : IO Z := fun w => (Returned (clock w / msPerDay), w).

(** [localDB.activities.get(key)], [.put(record)] and [.toArray()]. *)
Definition activities_get (key : Z) : IO (option Activity) :=
  fun w => (Returned (activities w !! key), w).

Definition activities_put (record : Activity) : IO unit :=
  fun w => (Returned tt,
            {| activities := <[date record := record]> (activities w);
               clock := clock w |}).

Definition activities_toArray : IO (list Activity) :=
  fun w => (Returned ((map_to_list (activities w)).*2), w).

(** [a ?? b]: the first operand unless it is null or undefined. *)
Definition coalesce {A} (a b : option A) : option A :=
  match a with
  | Some _ => a
  | None => b
  end.

Definition saveDailyActivity (activity : ActivityInput) : IO Activity :=
  match in_date activity with
  | None =>
      throw "[DB] saveDailyActivity: `date` must be a non-empty string."
  | Some d =>
      existing ← activities_get d;
      now ← Date_now;
      let record :=
        {| date := d;
           uid := Some (default ""
                    (coalesce (in_uid activity) (existing ≫= uid)));
           score := Some (default 0
                    (coalesce (in_score activity) (existing ≫= score)));
           timeTaken := Some (default 0
                    (coalesce (in_timeTaken activity)
                              (existing ≫= timeTaken)));
           difficulty := Some (default "easy"
                    (coalesce (in_difficulty activity)
                              (existing ≫= difficulty)));
           solved := Some (default false
                    (coalesce (in_solved activity) (existing ≫= solved)));
           attempts := Some (default 1
                    (coalesce (in_attempts activity)
                              (existing ≫= attempts)));
           puzzleSeed := Some (default ""
                    (coalesce (in_puzzleSeed activity)
                              (existing ≫= puzzleSeed)));
           synced := Some (FNum
                    (if truthy (default (FNum 0)
                          (coalesce (in_synced activity)
                                    (existing ≫= synced)))
                     then 1 else 0));
           createdAt := Some (default now
                    (coalesce (existing ≫= createdAt)
                              (in_createdAt activity))) |} in
      _ ← activities_put record;
      mret record
  end.

(** [a.solved] as a condition. *)
Definition isSolved (a : Activity) : Prop := solved a = Some true.

#[global] Instance isSolved_dec a : Decision (isSolved a).
Proof. unfold isSolved. apply _. Defined.

(** Newest first: [(a, b) => (b.date > a.date ? 1 : -1)]. *)
Definition newestFirst (a b : Activity) : Z :=
  if decide (date b > date a) then 1 else -1.

Definition getAllActivities : IO (list Activity) :=
  all ← activities_toArray;
  mret (sort newestFirst all).

Definition getRecentSolvedActivities (n : nat) : IO (list Activity) :=
  all ← getAllActivities;
  mret (slice 0 n (filter isSolved all)).

(** [dates.sort()] on an array of dates: the default order of the
    canonical texts, which is the order of the days. *)
Definition sortDates (dates : list Z) : list Z :=
  sort (fun a b => a - b) dates.

(** The second argument of [localDB.activities.update(key, changes)]: the
    fields to set. The primary key is not among them. *)
Record Changes : Type := mkChanges {
  c_uid : option string;
  c_score : option Z;
  c_timeTaken : option Z;
  c_difficulty : option string;
  c_solved : option bool;
  c_attempts : option Z;
  c_puzzleSeed : option string;
  c_synced : option flag;
  c_createdAt : option Z
}.

(** The row with the fields of [changes] set and the others kept. *)
Definition applyChanges (changes : Changes) (a : Activity) : Activity :=
  {| date := date a;
     uid := coalesce (c_uid changes) (uid a);
     score := coalesce (c_score changes) (score a);
     timeTaken := coalesce (c_timeTaken changes) (timeTaken a);
     difficulty := coalesce (c_difficulty changes) (difficulty a);
     solved := coalesce (c_solved changes) (solved a);
     attempts := coalesce (c_attempts changes) (attempts a);
     puzzleSeed := coalesce (c_puzzleSeed changes) (puzzleSeed a);
     synced := coalesce (c_synced changes) (synced a);
     createdAt := coalesce (c_createdAt changes) (createdAt a) |}.

(** [localDB.activities.update(key, changes)]: the row under [key] is
    changed when there is one, and nothing is stored otherwise.  The number
    of rows changed, which no caller reads, is not returned. *)
Definition activities_update (key : Z) (changes : Changes) : IO unit :=
  fun w => (Returned tt,
            {| activities := alter (applyChanges changes) key (activities w);
               clock := clock w |}).

(** [date] is [None] for a date that is missing or empty, and a string
    otherwise. *)
Definition patchActivity (date : option Z) (patch : Changes) : IO unit :=
  match date with
  | None => mret tt
  | Some d => activities_update d patch
  end.

Definition getActivityByDate (date : option Z) : IO (option Activity) :=
  match date with
  | None => mret None
  | Some d => activities_get d
  end.

#[global] Instance flag_eq_dec : EqDecision flag.
Proof. solve_decision. Defined.

(** [localDB.activities.where("synced").equals(0).toArray()]: the rows the
    index holds under the number 0, by primary key. *)
Definition getUnsyncedActivities : IO (list Activity) :=
  all ← activities_toArray;
  mret (filter (fun a => synced a = Some (FNum 0))
               (sort (fun a b => date a - date b) all)).

(** [{ synced: 1 }]. *)
Definition syncedOne : Changes :=
  {| c_uid := None; c_score := None; c_timeTaken := None;
     c_difficulty := None; c_solved := None; c_attempts := None;
     c_puzzleSeed := None; c_synced := Some (FNum 1); c_createdAt := None |}.

(** The updates are issued in the order of [dates]. *)
Definition markActivitiesSynced (dates : list Z) : IO unit :=
  foldr (fun d rest => _ ← activities_update d syncedOne; rest)
        (mret tt) dates.

Definition incrementAttempts (date : option Z) : IO unit :=
  match date with
  | None => mret tt
  | Some _ =>
      existing ← getActivityByDate date;
      match existing with
      | Some e =>
          patchActivity date
            {| c_uid := None; c_score := None; c_timeTaken := None;
               c_difficulty := None; c_solved := None;
               c_attempts := Some (default 0 (attempts e) + 1);
               c_puzzleSeed := None; c_synced := None;
               c_createdAt := None |}
      | None => mret tt
      end
  end.

(** [{ ...saved, synced: 1 }], the argument [handleSubmit] of the puzzle
    component saves after the upload. *)
Definition resaveSynced (saved : Activity) : ActivityInput :=
  {| in_date := Some (date saved);
     in_uid := uid saved; in_score := score saved;
     in_timeTaken := timeTaken saved; in_difficulty := difficulty saved;
     in_solved := solved saved; in_attempts := attempts saved;
     in_puzzleSeed := puzzleSeed saved; in_synced := Some (FNum 1);
     in_createdAt := createdAt saved |}.

End Db.

(** ** Difficultyengine.js: the adaptive difficulty decision *)

Module DifficultyEngine.
Import JS Db.

Definition EXPECTED_SOLVE_TIME : gmap string Z :=
  {[ "easy" := 60; "medium" := 45; "hard" := 30 ]}.

Definition LOOKBACK_DAYS : nat := 7.
Definition THRESHOLD_INCREASE : Z := 75.
Definition THRESHOLD_DECREASE : Z := 35.

Definition DIFFICULTY_UP : gmap string string :=
  {[ "easy" := "medium"; "medium" := "hard"; "hard" := "hard" ]}.

Definition DIFFICULTY_DOWN : gmap string string :=
  {[ "easy" := "easy"; "medium" := "easy"; "hard" := "medium" ]}.

(** [array.length] as a number. *)
Definition len {A} (l : list A) : Q := inject_Z (Z.of_nat (length l)).

(** [counts[d]++] on the object [counts], whose entries keep their
    insertion order; nothing happens when [d] is not a key. *)
Definition increment (d : string) (counts : list (string * Z))
  : list (string * Z) :=
  map (fun e : string * Z => if decide (e.1 = d) then (e.1, e.2 + 1) else e)
      counts.

Definition getDominantDifficulty (solved : list Activity) : string :=
  if decide (length solved = 0%nat) then "easy"
  else
    let counts :=
      fold_left (fun counts a => increment (default "easy" (difficulty a))
                                           counts)
                solved [("easy", 0); ("medium", 0); ("hard", 0)] in
    match sort (fun a b : string * Z => b.2 - a.2) counts with
    | e :: _ => e.1
    | [] => "easy"
    end.

Definition computeSpeedScore (solved : list Activity) (difficulty : string)
  : Z :=
  if decide (length solved = 0%nat) then 20
  else
    let avgTime :=
      (inject_Z (fold_left (fun sum a => sum + default 60 (timeTaken a))%Z
                           solved 0%Z) / len solved)%Q in
    let expected := inject_Z (default 60 (EXPECTED_SOLVE_TIME !! difficulty)) in
    let maxTime := (expected * 2)%Q in
    if Qle_bool avgTime expected then 40
    else if Qle_bool maxTime avgTime then 0
    else Math_round (((maxTime - avgTime) / expected) * 40)%Q.

Definition isClean (a : Activity) : Prop := default 1 (attempts a) <= 1.

#[global] Instance isClean_dec a : Decision (isClean a).
Proof. unfold isClean. apply _. Defined.

Record Decision_ : Type := mkDecision {
  puzzleType : string;
  d_difficulty : option string;
  performanceScore : Z;
  trend : string;
  reason : string
}.

Definition decidePuzzleType (totalDays : nat) (solved : list Activity)
    (performanceScore : Z) (currentDifficulty : option string) : string :=
  if decide (totalDays < 3)%nat then "sequence"
  else if decide (length solved < 2)%nat then "sequence"
  else if decide (performanceScore >= 50 /\ currentDifficulty <> Some "easy")
       then "matrix"
  else "sequence".

Section Trend.

(** [Math.sqrt], whose floating-point value is left open. *)
Variable Math_sqrt : Q -> Q.

Definition avgQuality (group : list Activity) : Q :=
  (fold_left
     (fun sum a =>
        let attempts := (Z.max (default 1 (attempts a)) 1)%Z in
        let time := (Z.max (default 60 (timeTaken a)) 1)%Z in
        sum + inject_Z (default 50%Z (score a))
              / (inject_Z attempts * Math_sqrt (inject_Z time)))
     group 0
   / len group)%Q.

Definition computeTrend (solved : list Activity) : string :=
  if decide (length solved < 4)%nat then "stable"
  else
    let mid := (length solved / 2)%nat in
    let newer := slice 0 mid solved in
    let older := drop mid solved in
    let newerQ := avgQuality newer in
    let olderQ := avgQuality older in
    let delta := (newerQ - olderQ)%Q in
    if negb (Qle_bool delta (1 # 10)) then "improving"
    else if negb (Qle_bool (- (1 # 10))%Q delta) then "declining"
    else "stable".

Definition getAdaptiveDifficulty : IO Decision_ :=
  allActivities ← getAllActivities;
  let recentWindow := slice 0 LOOKBACK_DAYS allActivities in
  if decide (length recentWindow = 0%nat) then
    mret {| puzzleType := "sequence";
            d_difficulty := Some "easy";
            performanceScore := 0;
            trend := "stable";
            reason :=
              "No history found. Starting with easy sequence puzzle." |}
  else
    let solved := filter isSolved recentWindow in
    let currentDifficulty := getDominantDifficulty solved in
    let solveRate := (len solved / len recentWindow)%Q in
    let solveRateScore := Math_round (solveRate * 40)%Q in
    let speedScore := computeSpeedScore solved currentDifficulty in
    let cleanSolves := length (filter isClean solved) in
    let cleanSolveScore :=
      if decide (0 < length solved)%nat
      then Math_round
             ((inject_Z (Z.of_nat cleanSolves) / len solved) * 20)%Q
      else 0 in
    let performanceScore := solveRateScore + speedScore + cleanSolveScore in
    let trend := computeTrend solved in
    let scoreText := "Score " +:+ toString performanceScore +:+ "/100" in
    let '(newDifficulty, reason) :=
      if decide (performanceScore >= THRESHOLD_INCREASE) then
        (DIFFICULTY_UP !! currentDifficulty,
         scoreText +:+ " — strong performance. Increasing difficulty.")
      else if decide (performanceScore < THRESHOLD_DECREASE) then
        (DIFFICULTY_DOWN !! currentDifficulty,
         scoreText +:+ " — struggling. Decreasing difficulty.")
      else
        (Some currentDifficulty,
         scoreText +:+ " — steady performance. Maintaining difficulty.") in
    let '(newDifficulty, reason) :=
      if decide (trend = "improving"
                 /\ newDifficulty = Some currentDifficulty
                 /\ performanceScore >= 60)
      then (DIFFICULTY_UP !! currentDifficulty,
            reason +:+ " Upward trend detected — advancing early.")
      else (newDifficulty, reason) in
    let '(newDifficulty, reason) :=
      if decide (trend = "declining"
                 /\ newDifficulty = Some currentDifficulty
                 /\ performanceScore <= 45)
      then (DIFFICULTY_DOWN !! currentDifficulty,
            reason +:+ " Downward trend detected — stepping back early.")
      else (newDifficulty, reason) in
    let puzzleType :=
      decidePuzzleType (length recentWindow) solved performanceScore
                       newDifficulty in
    mret {| puzzleType := puzzleType;
            d_difficulty := newDifficulty;
            performanceScore := performanceScore;
            trend := trend;
            reason := reason |}.

End Trend.

End DifficultyEngine.

(** ** hintEngine.js: the hint budget *)

Module HintEngine.
Import JS Db.

Definition baseBudget : gmap string Z :=
  {[ "easy" := 3; "medium" := 2; "hard" := 1 ]}.

(** The body of the [try] block, giving the value [bonus] has at its end. *)
Definition bonusOf (recent : list Activity) : Z :=
  let accuracy :=
    if decide (0 < length recent)%nat
    then (inject_Z (Z.of_nat (length (filter isSolved recent)))
          / inject_Z (Z.of_nat (length recent)))%Q
    else 1%Q in
  let bonus := 0 in
  let bonus := if negb (Qle_bool (1 # 2) accuracy) then bonus + 1 else bonus in
  let dates := sortDates (map date recent) in
  let bonus := if decide (7 <= length dates)%nat then bonus + 1 else bonus in
  bonus.

Definition computeHintBudget (difficulty : string) : IO Z :=
  let base := default 1 (baseBudget !! difficulty) in
  bonus ← try_catch (recent ← getRecentSolvedActivities 7;
                     mret (bonusOf recent))
                    (mret 0);
  mret (Z.min (base + bonus) 4).

End HintEngine.

(** ** insightsengine.js: the score trend and its rolling average *)

Module InsightsEngine.
Import JS Db.

(** [values.map((_, i) => ...)] with a window of [window] values.  The
    slice starts at [i - window + 1], which is not negative past the
    guard and is written [i + 1 - window] on naturals. *)
Definition rollingAverage (values : list Z) (window : nat)
  : list (option Z) :=
  imap (fun (i : nat) (_ : Z) =>
          if decide (i < window - 1)%nat then None
          else
            let slice := slice (i + 1 - window) (i + 1) values in
            Some (Math_round
                    (inject_Z (fold_left (fun s v => s + v)%Z slice 0%Z)
                     / inject_Z (Z.of_nat window))%Q))
       values.

Record TrendPoint : Type := mkTrendPoint {
  t_date : Z;
  t_score : Z;
  t_timeTaken : Z;
  t_difficulty : string;
  t_attempts : Z;
  rollingAvg : option Z
}.

(** The [performanceTrend] field of [computeInsightsData()].  The other
    fields of the snapshot do not enter it. *)
Definition performanceTrend : IO (list TrendPoint) :=
  all ← getAllActivities;
  let solved := filter isSolved all in
  if decide (length solved = 0%nat) then mret []
  else
    let recentChron := reverse (slice 0 60 solved) in
    let rawScores := map (fun s => default 0 (score s)) recentChron in
    let rolling := rollingAverage rawScores 7 in
    mret (imap (fun (i : nat) (s : Activity) =>
                  {| t_date := date s;
                     t_score := default 0 (score s);
                     t_timeTaken := default 0 (timeTaken s);
                     t_difficulty := default "easy" (difficulty s);
                     t_attempts := default 1 (attempts s);
                     rollingAvg := rolling !! i ≫= id |})
               recentChron).

(** The loop of [longestCleanStreak] over the sessions left, from the
    values [best] and [run] have. *)
Fixpoint cleanLoop (sessions : list Activity) (best run : Z) : Z :=
  match sessions with
  | [] => best
  | s :: rest =>
      if decide (default 1 (attempts s) = 1) then
        let run := run + 1 in
        let best := if decide (run > best) then run else best in
        cleanLoop rest best run
      else cleanLoop rest best 0
  end.

Definition longestCleanStreak (sessions : list Activity) : Z :=
  cleanLoop sessions 0 0.

End InsightsEngine.

(** ** dayjs: the days of the local time zone *)

Module Dayjs.
Import JS Db.

(** What [dayjs(a).diff(dayjs(b), "day")] reads of the time zone of the
    device.  [localMidnight d] is the time value of [dayjs(date)] for the
    date [d] given as YYYY-MM-DD, which is that of [new Date(y, m, d)]:
    midnight of the day on the local clock, or the instant the day starts
    at where the clocks are put forward over midnight.  [utcOffset t] is
    [utcOffset()] at the time value [t]: the minutes the local clock is
    ahead of UTC, which dayjs rounds to a quarter of an hour. *)
Record Zone : Type := mkZone {
  localMidnight : Z -> Z;
  utcOffset : Z -> Z
}.

Definition msPerMinute : Z := 60000.

(** [dayjs(a).diff(dayjs(b), "day")], in dayjs:
    [zoneDelta = (that.utcOffset() - this.utcOffset()) * 60000], then
    [(this - that - zoneDelta) / 86400000] without its fraction
    ([Utils.absFloor], which rounds towards zero). *)
Definition diff (zone : Zone) (a b : Z) : Z :=
  let this := localMidnight zone a in
  let that := localMidnight zone b in
  let zoneDelta :=
    (utcOffset zone that - utcOffset zone this) * msPerMinute in
  let diff := this - that in
  Z.quot (diff - zoneDelta) msPerDay.

(** UTC: every day starts at its midnight and the offset is 0. *)
Definition utc : Zone :=
  {| localMidnight := fun d => d * msPerDay; utcOffset := fun _ => 0 |}.

End Dayjs.

(** ** Retentionengine.js and streakEngine.js: the streaks *)

Module Streaks.
Import JS Db.

Record Streak : Type := mkStreak {
  currentStreak : Z;
  longestStreak : Z
}.

(** [while (solvedSet.has(cursor)) { currentStreak++; cursor-- }], with a
    bound on the number of iterations. *)
Fixpoint walkBack (fuel : nat) (solvedSet : gset Z) (cursor : Z)
    (currentStreak : Z) : option Z :=
  match fuel with
  | O => None
  | S fuel' =>
      if decide (cursor ∈ solvedSet)
      then walkBack fuel' solvedSet (cursor - 1) (currentStreak + 1)
      else Some currentStreak
  end.

(** The anchor: today if solved, else yesterday if solved, else [null]. *)
Definition anchorOf (solvedSet : gset Z) (today yesterday : Z) : option Z :=
  if decide (today ∈ solvedSet) then Some today
  else if decide (yesterday ∈ solvedSet) then Some yesterday
  else None.

End Streaks.

Module RetentionEngine.
Import JS Db Streaks.

(** The forward pass of [buildStreaks]: [prev] is [solvedDates[i - 1]], and
    [zone] the time zone of the device. *)
Fixpoint forwardPass (zone : Dayjs.Zone) (prev : Z) (rest : list Z)
    (run longestStreak : Z) : Z :=
  match rest with
  | [] => longestStreak
  | d :: rest' =>
      let diff := Dayjs.diff zone d prev in
      let run := if decide (diff = 1) then run + 1 else 1 in
      let longestStreak :=
        if decide (run > longestStreak) then run else longestStreak in
      forwardPass zone d rest' run longestStreak
  end.

Definition buildStreaks (zone : Dayjs.Zone) (solvedDates : list Z)
  : IO Streak :=
  match solvedDates with
  | [] => mret {| currentStreak := 0; longestStreak := 0 |}
  | first :: rest =>
      let longestStreak := forwardPass zone first rest 1 1 in
      let solvedSet : gset Z := list_to_set solvedDates in
      today ← dayjs_today;
      let yesterday := today - 1 in
      let anchor := anchorOf solvedSet today yesterday in
      currentStreak ←
        match anchor with
        | Some a => of_fuel (walkBack (S (size solvedSet)) solvedSet a 0)
        | None => mret 0
        end;
      mret {| currentStreak := currentStreak;
              longestStreak := longestStreak |}
  end.

(** The streak part of [computeRetentionData()]. *)
Definition computeRetentionData_streaks (zone : Dayjs.Zone) : IO Streak :=
  all ← getAllActivities;
  let solved := filter isSolved all in
  let solvedDatesAsc := sortDates (map date solved) in
  buildStreaks zone solvedDatesAsc.

End RetentionEngine.

Module StreakEngine.
Import JS Db Streaks.

(** The forward pass of [calculateStreaks], [zone] being the time zone of
    the device. *)
Fixpoint forwardPass (zone : Dayjs.Zone) (prev : Z) (rest : list Z)
    (runLength longestStreak : Z) : Z :=
  match rest with
  | [] => longestStreak
  | curr :: rest' =>
      let diff := Dayjs.diff zone curr prev in
      if decide (diff = 1) then
        let runLength := runLength + 1 in
        let longestStreak :=
          if decide (runLength > longestStreak) then runLength
          else longestStreak in
        forwardPass zone curr rest' runLength longestStreak
      else forwardPass zone curr rest' 1 longestStreak
  end.

Definition calculateStreaks (zone : Dayjs.Zone) : IO Streak :=
  activities ← getAllActivities;
  let solvedDates := sortDates (map date (filter isSolved activities)) in
  match solvedDates with
  | [] => mret {| currentStreak := 0; longestStreak := 0 |}
  | first :: rest =>
      let longestStreak := forwardPass zone first rest 1 1 in
      let solvedSet : gset Z := list_to_set solvedDates in
      today ← dayjs_today;
      yesterday ← (t ← dayjs_today; mret (t - 1));
      let startDate := anchorOf solvedSet today yesterday in
      match startDate with
      | None => mret {| currentStreak := 0; longestStreak := longestStreak |}
      | Some start =>
          currentStreak ←
            of_fuel (walkBack (S (size solvedSet)) solvedSet start 0);
          mret {| currentStreak := currentStreak;
                  longestStreak := longestStreak |}
      end
  end.

End StreakEngine.

(** ** The vocabulary of the properties *)

Module Spec.
Import JS.

(** The cell [j] of the grid shows a number. *)
Definition shown (g : list cell) (j : nat) : Prop :=
  match g !! j with
  | Some (Num _) => True
  | _ => False
  end.

#[global] Instance shown_dec g j : Decision (shown g j).
Proof. unfold shown. destruct (g !! j) as [[]|]; apply _. Defined.

(** The number of null cells of a grid. *)
Definition countNull (g : list cell) : nat :=
  length (filter (fun c => c = Null) g).

(** The cells other than [i] that are shown in the row, and in the column,
    of cell [i] of a row-major 4x4 grid. *)
Definition visibleOthersInRow (g : list cell) (i : nat) : nat :=
  length (filter (fun j => j <> i /\ (j / 4 = i / 4)%nat /\ shown g j)
                 (seq 0 16)).

Definition visibleOthersInCol (g : list cell) (i : nat) : nat :=
  length (filter (fun j => j <> i /\ (j mod 4 = i mod 4)%nat /\ shown g j)
                 (seq 0 16)).

(** The cells of row [r], and of column [c], that are not blanked. *)
Definition rowVisible (indices : list nat) (blanked : gset nat) (r : nat)
  : nat :=
  length (filter (fun i => Math_floor_div i 4 = r /\ i ∉ blanked) indices).

Definition colVisible (indices : list nat) (blanked : gset nat) (c : nat)
  : nat :=
  length (filter (fun i => (i mod 4)%nat = c /\ i ∉ blanked) indices).

(** What the loop maintains: two cells stay visible in every row and in
    every column, the blanks are indices of the grid, and there are no
    more of them than asked for. *)
Record blank_inv (indices : list nat) (count : Z) (blanked : gset nat)
  : Prop := {
  inv_rows : forall r, (r < 4)%nat -> (2 <= rowVisible indices blanked r)%nat;
  inv_cols : forall c, (c < 4)%nat -> (2 <= colVisible indices blanked c)%nat;
  inv_dom : forall i, i ∈ blanked -> i ∈ indices;
  inv_size : 0 <= count -> Z.of_nat (size blanked) <= count
}.

(** What [getAllActivities()] returns in a world, and the window the
    difficulty engine looks at. *)
Definition history (w : Db.World) : list Db.Activity :=
  sort Db.newestFirst ((map_to_list (Db.activities w)).*2).

Definition recentWindow (w : Db.World) : list Db.Activity :=
  slice 0 DifficultyEngine.LOOKBACK_DAYS (history w).

(** The three components of the performance score of a window. *)
Definition solveRateScore (recentWindow : list Db.Activity) : Z :=
  Math_round ((DifficultyEngine.len (filter Db.isSolved recentWindow)
               / DifficultyEngine.len recentWindow) * 40)%Q.

Definition speedScore (recentWindow : list Db.Activity) : Z :=
  let solved := filter Db.isSolved recentWindow in
  DifficultyEngine.computeSpeedScore
    solved (DifficultyEngine.getDominantDifficulty solved).

Definition cleanSolveScore (recentWindow : list Db.Activity) : Z :=
  let solved := filter Db.isSolved recentWindow in
  if decide (0 < length solved)%nat
  then Math_round
         ((inject_Z (Z.of_nat (length (filter DifficultyEngine.isClean
                                               solved)))
           / DifficultyEngine.len solved) * 20)%Q
  else 0.

(** The difficulties stored in the rows are keys the tables can be read
    with. *)
Definition plainDifficulties (rows : list Db.Activity) : Prop :=
  Forall (fun a => from_option plainKey True (Db.difficulty a)) rows.

#[global] Instance plainDifficulties_dec rows :
  Decision (plainDifficulties rows).
Proof.
  apply Forall_dec. intros a. destruct (Db.difficulty a); simpl; apply _.
Defined.

(** The mean of the seven scores of the trend that end at position [i]. *)
Definition totalScore (points : list InsightsEngine.TrendPoint) : Z :=
  fold_left (fun s p => s + InsightsEngine.t_score p) points 0.

Definition trailingMean (trend : list InsightsEngine.TrendPoint) (i : nat)
  : Q :=
  (inject_Z (totalScore (slice (i - 6) (i + 1) trend)) / 7)%Q.

(** The day the clock of a world is in. *)
Definition todayOf (w : Db.World) : Z := Db.clock w / Db.msPerDay.

(** The day [d] carries a solved record of the store. *)
Definition solvedOn (w : Db.World) (d : Z) : Prop :=
  exists a, a ∈ history w /\ Db.isSolved a /\ Db.date a = d.

(** The [k] consecutive days ending at day [a] are all solved, and the day
    before them is not: [k] is the length of the run of solved days that
    ends at [a]. *)
Definition runEndingAt (solved : Z -> Prop) (a k : Z) : Prop :=
  0 <= k /\ (forall i, 0 <= i < k -> solved (a - i)) /\ ~ solved (a - k).

(** The current streak: the run ending today, or ending yesterday when
    today is not solved, and 0 when neither day is solved. *)
Definition currentStreakOf (solved : Z -> Prop) (today k : Z) : Prop :=
  (solved today -> runEndingAt solved today k)
  /\ (~ solved today -> solved (today - 1) ->
      runEndingAt solved (today - 1) k)
  /\ (~ solved today -> ~ solved (today - 1) -> k = 0).

(** The dates both streak computations start from: the dates of the solved
    rows, oldest first. *)
Definition solvedDatesOf (w : Db.World) : list Z :=
  Db.sortDates (map Db.date (filter Db.isSolved (history w))).

(** The number of rows of a tier, a row without difficulty being easy. *)
Definition tierCount (tier : string) (rows : list Db.Activity) : Z :=
  Z.of_nat (length (filter (fun a => tier = default "easy" (Db.difficulty a))
                           rows)).

(** The tier the engine moves to from the dominant tier [current]: the
    thresholds first, the trend only between them. *)
Definition transition (current : string) (score : Z) (trend : string)
  : option string :=
  if decide (75 <= score) then DifficultyEngine.DIFFICULTY_UP !! current
  else if decide (score < 35) then DifficultyEngine.DIFFICULTY_DOWN !! current
  else if decide (trend = "improving" /\ 60 <= score)
       then DifficultyEngine.DIFFICULTY_UP !! current
  else if decide (trend = "declining" /\ score <= 45)
       then DifficultyEngine.DIFFICULTY_DOWN !! current
  else Some current.

(** A time zone in which [diff] counts calendar days: every day starts at
    its midnight, the clocks never being put forward over it. *)
Definition regular (zone : Dayjs.Zone) : Prop :=
  forall a b, Dayjs.diff zone a b = a - b.

(** The place of a tier on the ladder easy, medium, hard. *)
Definition tierRank (tier : string) : option Z :=
  ({[ "easy" := 0; "medium" := 1; "hard" := 2 ]} : gmap string Z) !! tier.

(** Every row is stored under its own date. *)
Definition keyed (w : Db.World) : Prop :=
  map_Forall (fun k a => Db.date a = k) (Db.activities w).

#[global] Instance keyed_dec w : Decision (keyed w).
Proof. unfold keyed. apply _. Defined.

(** Solved at the first attempt, a session without a count being one. *)
Definition firstTry (s : Db.Activity) : Prop := default 1 (Db.attempts s) = 1.

#[global] Instance firstTry_dec s : Decision (firstTry s).
Proof. unfold firstTry. apply _. Defined.

(** [run] is a stretch of consecutive sessions of [sessions], all solved at
    the first attempt. *)
Definition cleanRun (sessions run : list Db.Activity) : Prop :=
  Forall firstTry run
  /\ exists before after, sessions = before ++ run ++ after.

(** What the loop has after the sessions [p]: [run] is the length of the
    longest clean stretch that ends [p], [best] of the longest in [p]. *)
Record clean_inv (p : list Db.Activity) (best run : Z) : Prop := {
  tail_run : exists before suffix,
      p = before ++ suffix /\ Forall firstTry suffix
      /\ Z.of_nat (length suffix) = run;
  tail_longest : forall before suffix,
      p = before ++ suffix -> Forall firstTry suffix ->
      Z.of_nat (length suffix) <= run;
  best_run : exists r, cleanRun p r /\ Z.of_nat (length r) = best;
  best_longest : forall r, cleanRun p r -> Z.of_nat (length r) <= best
}.

(** 1 for a cell that is shown, 0 for a blank, in the sums that count the
    cells shown. *)
Definition shownAs (blanked : gset nat) (i : nat) : Z :=
  if decide (i ∈ blanked) then 0 else 1.

(** The cell [idx] cannot be blanked: fewer than two other cells would stay
    shown in its row or in its column. *)
Definition stuck (indices : list nat) (blanked : gset nat) (idx : nat)
  : Prop :=
  ~ (2 <= length (filter (fun i => Math_floor_div i 4 = Math_floor_div idx 4
                                   /\ i <> idx /\ i ∉ blanked) indices)
     /\ 2 <= length (filter (fun i => (i mod 4)%nat = (idx mod 4)%nat
                                      /\ i <> idx /\ i ∉ blanked) indices))%nat.

End Spec.

(** ** Sample histories *)

Module Examples.
Import Db.

(** A row with every field set, as [saveDailyActivity] writes it. *)
Definition row (date score timeTaken : Z) (difficulty : string)
    (solved : bool) (attempts : Z) : Activity :=
  {| date := date; uid := Some "u1"; score := Some score;
     timeTaken := Some timeTaken; difficulty := Some difficulty;
     solved := Some solved; attempts := Some attempts;
     puzzleSeed := Some ""; synced := Some (FNum 0);
     createdAt := Some 0 |}.

(** The table holding the rows, each under its date, and the world whose
    clock is at the start of day [today]. *)
Definition tableOf (rows : list Activity) : gmap Z Activity :=
  list_to_map (map (fun r => (date r, r)) rows).

Definition worldOn (today : Z) (rows : list Activity) : World :=
  {| activities := tableOf rows; clock := today * msPerDay |}.

(** Three days played, the first solved at once, the second not solved,
    the third solved slowly at the second attempt. *)
Definition mixed : World :=
  worldOn 19725 [ row 19723 70 30 "easy" true 1;
                  row 19724 0 0 "easy" false 3;
                  row 19725 10 100 "easy" true 2 ].

(** Three days played, only the first solved. *)
Definition struggling : World :=
  worldOn 19725 [ row 19723 70 30 "hard" true 1;
                  row 19724 0 0 "hard" false 2;
                  row 19725 0 0 "hard" false 4 ].

(** Seven solved days whose scores do not add up to a multiple of 7. *)
Definition sevenSolved : World :=
  worldOn 19729
    (map (fun d => row (19723 + d) (if decide (d = 6) then 11 else 10) 30
                       "easy" true 1)
         [0; 1; 2; 3; 4; 5; 6]).

(** Solved on the day before yesterday, yesterday and today (day 19725);
    and solved three and two days ago only. *)
Definition threeInARow : World :=
  worldOn 19725 [ row 19723 70 30 "easy" true 1;
                  row 19724 60 40 "easy" true 1;
                  row 19725 80 20 "easy" true 1 ].

Definition gapBeforeToday : World :=
  worldOn 19725 [ row 19722 70 30 "easy" true 1;
                  row 19723 60 40 "easy" true 1 ].

(** Africa/Cairo in the spring of 2024.  On 26 April, day 19839, the clocks
    went from 00:00 to 01:00: the local clock is two hours ahead of UTC
    before that instant and three hours from it on, and the day of 26 April
    starts at 01:00. *)
Definition cairoForward : Z := 19839 * msPerDay - 2 * 3600000.

Definition cairo : Dayjs.Zone :=
  {| Dayjs.localMidnight := fun d =>
       if decide (d <= 19839) then d * msPerDay - 2 * 3600000
       else d * msPerDay - 3 * 3600000;
     Dayjs.utcOffset := fun t =>
       if decide (t < cairoForward) then 120 else 180 |}.

(** Solved on 25, 26 and 27 April 2024, the last being today. *)
Definition cairoSpring : World :=
  worldOn 19840 [ row 19838 70 30 "easy" true 1;
                  row 19839 60 40 "easy" true 1;
                  row 19840 80 20 "easy" true 1 ].

(** Two days played, neither solved. *)
Definition neverSolved : World :=
  worldOn 19725 [ row 19723 0 0 "medium" false 2;
                  row 19724 0 0 "medium" false 5 ].

End Examples.

(* ===================================================================== *)
(** * Part II. Properties                                                  *)
(* ===================================================================== *)

Import JS PuzzleGenerator Db DifficultyEngine HintEngine InsightsEngine Streaks
  Spec Examples.

(** ** Sorting *)

Section Sort.
Context {A : Type} (cmp : A -> A -> Z).

Lemma sort_insert_Permutation x l : sort_insert cmp x l ≡ₚ x :: l.
Proof.
  induction l as [|y l IH]; simpl; [done|].
  case_decide; [done|]. rewrite IH. apply Permutation_swap.
Qed.

Lemma sort_Permutation l : sort cmp l ≡ₚ l.
Proof.
  induction l as [|x l IH]; simpl; [done|].
  by rewrite sort_insert_Permutation, IH.
Qed.

Lemma length_sort l : length (sort cmp l) = length l.
Proof. by rewrite sort_Permutation. Qed.

Lemma elem_of_sort x l : x ∈ sort cmp l <-> x ∈ l.
Proof. by rewrite sort_Permutation. Qed.

End Sort.

(** ** The redaction of the matrix *)

Section Blanking.

Lemma shuffledIndices_Permutation date : shuffledIndices date ≡ₚ seq 0 16.
Proof. apply sort_Permutation. Qed.

Lemma elem_of_shuffledIndices date i :
  i ∈ shuffledIndices date <-> (i < 16)%nat.
Proof.
  rewrite shuffledIndices_Permutation, elem_of_seq. lia.
Qed.

(** Filtering with predicates that agree on the members of the list. *)
Lemma filter_agree {B} (P Q : B -> Prop) `{!forall x, Decision (P x)}
    `{!forall x, Decision (Q x)} (l : list B) :
  (forall x, x ∈ l -> P x <-> Q x) -> filter P l = filter Q l.
Proof.
  induction l as [|x l IH]; intros Hagree; [done|].
  rewrite !filter_cons.
  assert (P x <-> Q x) as Hx by (apply Hagree; left).
  assert (filter P l = filter Q l) as ->
    by (apply IH; intros y Hy; apply Hagree; by right).
  destruct (decide (P x)), (decide (Q x)); tauto || done.
Qed.

Lemma blank_inv_empty date count :
  blank_inv (shuffledIndices date) count ∅.
Proof.
  split.
  - intros r Hr. unfold rowVisible.
    rewrite (shuffledIndices_Permutation date).
    assert (r = 0 \/ r = 1 \/ r = 2 \/ r = 3)%nat as Hcases by lia.
    destruct Hcases as [->|[->|[->| ->]]]; vm_compute; lia.
  - intros c Hc. unfold colVisible.
    rewrite (shuffledIndices_Permutation date).
    assert (c = 0 \/ c = 1 \/ c = 2 \/ c = 3)%nat as Hcases by lia.
    destruct Hcases as [->|[->|[->| ->]]]; vm_compute; lia.
  - intros i Hi. by apply not_elem_of_empty in Hi.
  - intros. rewrite size_empty. lia.
Qed.

Lemma blank_inv_add indices count blanked idx :
  blank_inv indices count blanked ->
  idx ∈ indices ->
  ~ count <= Z.of_nat (size blanked) ->
  (2 <= length (filter (fun i => Math_floor_div i 4 = Math_floor_div idx 4
                                 /\ i <> idx /\ i ∉ blanked) indices))%nat ->
  (2 <= length (filter (fun i => (i mod 4)%nat = (idx mod 4)%nat
                                 /\ i <> idx /\ i ∉ blanked) indices))%nat ->
  blank_inv indices count ({[idx]} ∪ blanked).
Proof.
  intros [Hrows Hcols Hdom Hsize] Hidx Hroom Hrow Hcol. split.
  - intros r Hr. unfold rowVisible.
    destruct (decide (r = Math_floor_div idx 4)) as [->|Hne].
    + erewrite list_filter_iff; [exact Hrow|].
      intros i. rewrite not_elem_of_union, not_elem_of_singleton. tauto.
    + erewrite list_filter_iff; [exact (Hrows r Hr)|].
      intros i. rewrite not_elem_of_union, not_elem_of_singleton.
      split; [tauto|].
      intros [Hi Hni]. split; [done|].
      split; congruence.
  - intros c Hc. unfold colVisible.
    destruct (decide (c = (idx mod 4)%nat)) as [->|Hne].
    + erewrite list_filter_iff; [exact Hcol|].
      intros i. rewrite not_elem_of_union, not_elem_of_singleton. tauto.
    + erewrite list_filter_iff; [exact (Hcols c Hc)|].
      intros i. rewrite not_elem_of_union, not_elem_of_singleton.
      split; [tauto|].
      intros [Hi Hni]. split; [done|].
      split; congruence.
  - intros i [->%elem_of_singleton|Hi]%elem_of_union; auto.
  - intros _.
    assert (size ({[idx]} ∪ blanked) <= 1 + size blanked)%nat.
    { rewrite size_union_alt, size_singleton.
      apply Nat.add_le_mono_l, subseteq_size.
      intros i Hi. by apply elem_of_difference in Hi as [? _]. }
    lia.
Qed.

Lemma blankLoop_inv indices count todo blanked :
  blank_inv indices count blanked ->
  (forall i, i ∈ todo -> i ∈ indices) ->
  blank_inv indices count (blankLoop indices count todo blanked).
Proof.
  revert blanked. induction todo as [|idx rest IH]; intros blanked Hinv Hin;
    simpl; [done|].
  case_decide; [done|].
  case_decide as Hok.
  - apply IH; [|intros; apply Hin; by right].
    destruct Hok. apply blank_inv_add; auto. apply Hin. left.
  - apply IH; [done|]. intros; apply Hin; by right.
Qed.

Lemma shuffled_blank_inv date count :
  blank_inv (shuffledIndices date) count
    (blankLoop (shuffledIndices date) count (shuffledIndices date) ∅).
Proof. apply blankLoop_inv; [apply blank_inv_empty|done]. Qed.

(** Writing the blanks into the puzzle grid. *)

Lemma countNull_insert (p : list cell) i :
  (countNull (<[i := Null]> p) <= S (countNull p))%nat.
Proof.
  unfold countNull. revert i. induction p as [|c p IH]; intros [|i]; simpl;
    rewrite ?filter_cons; try lia.
  - repeat case_decide; simpl; lia.
  - specialize (IH i). case_decide; simpl; lia.
Qed.

Lemma countNull_array_set (p : list cell) i :
  (countNull (array_set i Null p) <= S (countNull p))%nat.
Proof.
  unfold array_set. case_decide; [apply countNull_insert|].
  unfold countNull. rewrite !filter_app, !length_app.
  assert (filter (fun c => c = Null) (replicate (i - length p) Empty) = [])
    as ->.
  { induction (i - length p)%nat as [|k IH]; simpl; [done|].
    rewrite filter_cons. by case_decide. }
  simpl. lia.
Qed.

Lemma countNull_blanks (l : list nat) (p : list cell) :
  (countNull (foldr (fun idx p => array_set idx Null p) p l)
   <= countNull p + length l)%nat.
Proof.
  induction l as [|i l IH]; simpl; [lia|].
  etrans; [apply countNull_array_set|]. lia.
Qed.

Lemma countNull_numbers (flatGrid : list Z) : countNull (map Num flatGrid) = 0%nat.
Proof.
  unfold countNull. induction flatGrid as [|n g IH]; simpl; [done|].
  rewrite filter_cons. by case_decide.
Qed.

Lemma array_set_inside i v (p : list cell) :
  (i < length p)%nat -> array_set i v p = <[i := v]> p.
Proof. intros Hi. unfold array_set. by case_decide. Qed.

Lemma length_blanks (l : list nat) (p : list cell) :
  (forall i, i ∈ l -> (i < length p)%nat) ->
  length (foldr (fun idx p => array_set idx Null p) p l) = length p.
Proof.
  induction l as [|i l IH]; intros Hl; simpl; [done|].
  assert (length (foldr (fun idx p => array_set idx Null p) p l) = length p)
    as Hlen by (apply IH; intros; apply Hl; by right).
  rewrite array_set_inside, length_insert; [done|].
  rewrite Hlen. apply Hl. left.
Qed.

Lemma lookup_blanks (l : list nat) (p : list cell) j :
  (forall i, i ∈ l -> (i < length p)%nat) ->
  foldr (fun idx p => array_set idx Null p) p l !! j
  = if decide (j ∈ l) then Some Null else p !! j.
Proof.
  induction l as [|i l IH]; intros Hl; cbn [foldr].
  - destruct (decide (j ∈ [])) as [Hj|]; [|done]. by apply elem_of_nil in Hj.
  - assert (forall k, k ∈ l -> (k < length p)%nat) as Hl'
      by (intros; apply Hl; by right).
    specialize (IH Hl').
    pose proof (length_blanks l p Hl') as Hlen.
    assert (i < length p)%nat as Hi by (apply Hl; left).
    rewrite array_set_inside by lia.
    destruct (decide (j = i)) as [->|Hne].
    + rewrite list_lookup_insert_eq by lia.
      by rewrite decide_True by left.
    + rewrite list_lookup_insert_ne by done. rewrite IH.
      destruct (decide (j ∈ l)) as [Hj|Hj].
      * by rewrite decide_True by (by right).
      * rewrite decide_False; [done|].
        by intros [?|?]%elem_of_cons.
Qed.

(** The grid [blankCells] returns, cell by cell, for a grid of at least
    sixteen cells. *)
Lemma blankCells_lookup flatGrid count date j :
  (16 <= length flatGrid)%nat ->
  blankCells flatGrid count date !! j
  = if decide (j ∈ blankLoop (shuffledIndices date) count
                             (shuffledIndices date) ∅)
    then Some Null else Num <$> flatGrid !! j.
Proof.
  intros Hlen. unfold blankCells.
  rewrite lookup_blanks.
  - rewrite list_lookup_fmap.
    destruct (decide (j ∈ blankLoop (shuffledIndices date) count
                                    (shuffledIndices date) ∅)) as [Hj|Hj].
    + by rewrite decide_True by (by apply elem_of_elements).
    + by rewrite decide_False by (by rewrite elem_of_elements).
  - intros i Hi%elem_of_elements.
    apply (inv_dom _ _ _ (shuffled_blank_inv date count)) in Hi.
    apply elem_of_shuffledIndices in Hi.
    rewrite length_map. lia.
Qed.

Lemma blankCells_length flatGrid count date :
  (16 <= length flatGrid)%nat ->
  length (blankCells flatGrid count date) = length flatGrid.
Proof.
  intros Hlen. unfold blankCells. rewrite length_blanks.
  - apply length_map.
  - intros i Hi%elem_of_elements.
    apply (inv_dom _ _ _ (shuffled_blank_inv date count)) in Hi.
    apply elem_of_shuffledIndices in Hi.
    rewrite length_map. lia.
Qed.

Lemma blankCells_countNull flatGrid count date :
  0 <= count ->
  Z.of_nat (countNull (blankCells flatGrid count date)) <= count.
Proof.
  intros Hcount. unfold blankCells.
  generalize (shuffled_blank_inv date count).
  generalize (blankLoop (shuffledIndices date) count
                        (shuffledIndices date) ∅).
  intros blanked Hinv.
  pose proof (countNull_blanks (elements blanked) (map Num flatGrid)) as Hle.
  rewrite countNull_numbers in Hle.
  pose proof (inv_size _ _ _ Hinv Hcount) as Hsz.
  change (size blanked) with (length (elements blanked)) in Hsz.
  lia.
Qed.

Lemma rowVisible_Permutation l1 l2 blanked r :
  l1 ≡ₚ l2 -> rowVisible l1 blanked r = rowVisible l2 blanked r.
Proof. intros Hp. unfold rowVisible. by rewrite Hp. Qed.

Lemma colVisible_Permutation l1 l2 blanked c :
  l1 ≡ₚ l2 -> colVisible l1 blanked c = colVisible l2 blanked c.
Proof. intros Hp. unfold colVisible. by rewrite Hp. Qed.

(** A grid whose shown cells are the indices outside [blanked] keeps, for
    every blank, the cells the invariant counts. *)
Lemma visible_of_inv (g : list cell) (blanked : gset nat) count i :
  blank_inv (seq 0 16) count blanked ->
  (forall j, (j < 16)%nat -> shown g j <-> j ∉ blanked) ->
  i ∈ blanked ->
  (2 <= visibleOthersInRow g i)%nat /\ (2 <= visibleOthersInCol g i)%nat.
Proof.
  intros Hinv Hshown HiB.
  assert (i < 16)%nat as Hi16.
  { apply (inv_dom _ _ _ Hinv), elem_of_seq in HiB. lia. }
  split.
  - etrans; [apply (inv_rows _ _ _ Hinv (i / 4)%nat)|].
    { apply Nat.Div0.div_lt_upper_bound. lia. }
    unfold rowVisible, visibleOthersInRow, Math_floor_div.
    apply Nat.eq_le_incl. f_equal. apply filter_agree.
    intros j Hj%elem_of_seq. rewrite Hshown by lia. split; [|tauto].
    intros [? ?]. repeat split; auto. congruence.
  - etrans; [apply (inv_cols _ _ _ Hinv (i mod 4)%nat)|].
    { apply Nat.mod_upper_bound. lia. }
    unfold colVisible, visibleOthersInCol.
    apply Nat.eq_le_incl. f_equal. apply filter_agree.
    intros j Hj%elem_of_seq. rewrite Hshown by lia. split; [|tauto].
    intros [? ?]. repeat split; auto. congruence.
Qed.

Lemma blank_inv_seq date count blanked :
  blank_inv (shuffledIndices date) count blanked ->
  blank_inv (seq 0 16) count blanked.
Proof.
  intros [Hrows Hcols Hdom Hsize]. split; [| |..|done].
  - intros r Hr.
    rewrite <- (rowVisible_Permutation _ _ _ _
                  (shuffledIndices_Permutation date)). auto.
  - intros c Hc.
    rewrite <- (colVisible_Permutation _ _ _ _
                  (shuffledIndices_Permutation date)). auto.
  - intros i Hi. apply Hdom, elem_of_shuffledIndices in Hi.
    apply elem_of_seq. lia.
Qed.

(** In the returned grid every blank keeps two shown cells in its row and
    two in its column. *)
Lemma blankCells_visible flatGrid count date i :
  (16 <= length flatGrid)%nat ->
  blankCells flatGrid count date !! i = Some Null ->
  (2 <= visibleOthersInRow (blankCells flatGrid count date) i)%nat
  /\ (2 <= visibleOthersInCol (blankCells flatGrid count date) i)%nat.
Proof.
  intros Hlen Hnull.
  pose proof (blankCells_lookup flatGrid count date) as Hlook.
  pose proof (blank_inv_seq _ _ _ (shuffled_blank_inv date count)) as Hinv.
  revert Hnull Hlook Hinv.
  generalize (blankLoop (shuffledIndices date) count
                        (shuffledIndices date) ∅).
  generalize (blankCells flatGrid count date).
  intros g blanked Hnull Hlook Hinv.
  apply (visible_of_inv g blanked count i Hinv).
  - intros j Hj. unfold shown. rewrite Hlook by done.
    destruct (lookup_lt_is_Some_2 flatGrid j) as [v Hv]; [lia|].
    rewrite Hv. simpl. destruct (decide (j ∈ blanked)); tauto.
  - rewrite Hlook in Hnull by done.
    destruct (decide (i ∈ blanked)); [done|].
    destruct (flatGrid !! i); simpl in Hnull; congruence.
Qed.

End Blanking.

(** ** The generators *)

Section Generators.

Lemma length_grid4 cellAt : length (grid4 cellAt) = 16%nat.
Proof. reflexivity. Qed.

Lemma length_builtGrid date pattern :
  length (b_grid (if decide (pattern = "multiplication")
                  then buildMultiplicationGrid date
                  else if decide (pattern = "polynomial")
                       then buildPolynomialGrid date
                       else buildArithmeticGrid date)) = 16%nat.
Proof. repeat case_decide; apply length_grid4. Qed.

(** The tiers are the keys of the tables the generators index. *)
Lemma lookup_tiers {V} (a b c : V) (key : string) :
  ({[ "easy" := a; "medium" := b; "hard" := c ]} : gmap string V) !! key
  = if decide (key = "easy") then Some a
    else if decide (key = "medium") then Some b
    else if decide (key = "hard") then Some c
    else None.
Proof.
  repeat case_decide; subst.
  - by rewrite lookup_insert_eq.
  - rewrite lookup_insert_ne by done. by rewrite lookup_insert_eq.
  - rewrite !lookup_insert_ne by done. by rewrite lookup_singleton_eq.
  - rewrite !lookup_insert_ne by done. by rewrite lookup_singleton_ne.
Qed.

Lemma lookup_not_tier {V} (a b c : V) (key : string) :
  key ∉ ["easy"; "medium"; "hard"] ->
  ({[ "easy" := a; "medium" := b; "hard" := c ]} : gmap string V) !! key
  = None.
Proof.
  intros Hkey. rewrite lookup_tiers.
  repeat case_decide; subst; try done; exfalso; apply Hkey;
    repeat constructor.
Qed.

Lemma blankCount_of_tier difficulty blankCount :
  (difficulty, blankCount) ∈ [("easy", 3); ("medium", 5); ("hard", 7)] ->
  blankCounts !! difficulty = Some blankCount.
Proof.
  intros Hin. unfold blankCounts. rewrite lookup_tiers.
  repeat (apply elem_of_cons in Hin as [[= -> ->]|Hin]; [done|]).
  by apply elem_of_nil in Hin.
Qed.

Lemma pickSequencePattern_default date difficulty :
  difficulty ∉ ["easy"; "medium"; "hard"] ->
  pickSequencePattern date difficulty = "arithmetic".
Proof.
  intros Hd. unfold pickSequencePattern.
  by rewrite lookup_not_tier by done.
Qed.

Lemma genArithmetic_default date difficulty :
  difficulty ∉ ["easy"; "medium"; "hard"] ->
  genArithmetic date difficulty = genArithmetic date "easy".
Proof.
  intros Hd. unfold genArithmetic.
  rewrite lookup_not_tier by done. by rewrite lookup_tiers.
Qed.

Lemma pickMatrixPattern_default date difficulty :
  difficulty ∉ ["easy"; "medium"; "hard"] ->
  pickMatrixPattern date difficulty = "arithmetic".
Proof.
  intros Hd. unfold pickMatrixPattern.
  rewrite lookup_not_tier by done. simpl.
  by destruct (Z.to_nat _) as [|[|?]].
Qed.

End Generators.

(** C1. For every date and each of the three difficulties, the grid of
    [generateMatrixPuzzle] has at most [blankCount] null cells (3 for easy,
    5 for medium, 7 for hard), and every null cell has at least two other
    cells shown in its row and at least two in its column. *)
Theorem generateMatrixPuzzle_redaction (date difficulty : string)
    (blankCount : Z) :
  (difficulty, blankCount) ∈ [("easy", 3); ("medium", 5); ("hard", 7)] ->
  let puzzle := generateMatrixPuzzle date difficulty in
  Z.of_nat (countNull (grid puzzle)) <= blankCount
  /\ forall i, grid puzzle !! i = Some Null ->
       (2 <= visibleOthersInRow (grid puzzle) i)%nat
       /\ (2 <= visibleOthersInCol (grid puzzle) i)%nat.
Proof.
  intros Htier. unfold generateMatrixPuzzle. cbn [grid].
  rewrite (blankCount_of_tier _ _ Htier). cbn [default].
  pose proof (length_builtGrid date (pickMatrixPattern date difficulty))
    as Hlen.
  split.
  - apply blankCells_countNull.
    repeat (apply elem_of_cons in Htier as [[= _ ->]|Htier]; [lia|]).
    by apply elem_of_nil in Htier.
  - intros i Hi. apply blankCells_visible; [lia|done].
Qed.

Lemma generateMatrixPuzzle_redaction_witness :
  let puzzle := generateMatrixPuzzle "2024-01-01" "hard" in
  Z.of_nat (countNull (grid puzzle)) <= 7
  /\ grid puzzle !! 0%nat = Some Null
  /\ (2 <= visibleOthersInRow (grid puzzle) 0)%nat
  /\ (2 <= visibleOthersInCol (grid puzzle) 0)%nat.
Proof.
  destruct (generateMatrixPuzzle_redaction "2024-01-01" "hard" 7)
    as [Hcount Hvisible].
  { repeat constructor. }
  assert (grid (generateMatrixPuzzle "2024-01-01" "hard") !! 0%nat
          = Some Null) as Hnull by (vm_compute; reflexivity).
  exact (conj Hcount (conj Hnull (Hvisible 0%nat Hnull))).
Defined.

(** C10. For every grid of sixteen cells, which is the array [blankCells]
    is documented to take and the one its caller [generateMatrixPuzzle]
    passes, every count of cells and every date, [blankCells] returns an
    array of the length of the grid in which every entry that is not null is
    the entry of the grid at the same index, with at most [count] nulls. *)
Theorem blankCells_frame (flatGrid : list Z) (count : nat) (date : string) :
  length flatGrid = 16%nat ->
  let puzzle := blankCells flatGrid (Z.of_nat count) date in
  length puzzle = length flatGrid
  /\ (forall i c, puzzle !! i = Some c -> c <> Null ->
        Num <$> flatGrid !! i = Some c)
  /\ (countNull puzzle <= count)%nat.
Proof.
  intros Hlen. cbn zeta.
  assert (16 <= length flatGrid)%nat as Hsixteen by lia.
  split; [|split].
  - by apply blankCells_length.
  - intros i c Hi Hc. rewrite blankCells_lookup in Hi by done.
    destruct (decide (i ∈ _)); [congruence|done].
  - pose proof (blankCells_countNull flatGrid (Z.of_nat count) date
                  ltac:(lia)).
    lia.
Qed.

Lemma blankCells_frame_witness :
  length (blankCells [12; 16; 20; 24; 15; 20; 25; 30;
                      18; 24; 30; 36; 21; 28; 35; 42] 7 "2024-01-01")
  = 16%nat
  /\ blankCells [12; 16; 20; 24; 15; 20; 25; 30;
                 18; 24; 30; 36; 21; 28; 35; 42] 7 "2024-01-01" !! 2%nat
     = Some (Num 20)
  /\ (countNull (blankCells [12; 16; 20; 24; 15; 20; 25; 30;
                             18; 24; 30; 36; 21; 28; 35; 42]%Z 7%Z
                            "2024-01-01")
      <= 7)%nat.
Proof.
  destruct (blankCells_frame
              [12; 16; 20; 24; 15; 20; 25; 30;
               18; 24; 30; 36; 21; 28; 35; 42] 7 "2024-01-01")
    as (Hlen & Hkeep & Hcount); [reflexivity|].
  split; [exact Hlen|]. split; [|exact Hcount].
  vm_compute. reflexivity.
Defined.

(** C5, as the code has it. For every date string, well formed or not, and
    every difficulty outside the three tiers (and not the name of a member
    every object inherits), the generators raise no error: the sequence
    puzzle is the arithmetic one with the easy ranges and the matrix puzzle
    the arithmetic grid with three blanks, the difficulty being echoed. *)
Theorem generators_default_silently (date difficulty : string) :
  difficulty ∉ ["easy"; "medium"; "hard"] ->
  plainKey difficulty ->
  generateSequencePuzzle date difficulty
  = {| s_type := "sequence";
       sequence := r_sequence (genArithmetic date "easy");
       answer := r_answer (genArithmetic date "easy");
       s_hint := r_hint (genArithmetic date "easy");
       s_patternKey := "arithmetic";
       s_difficulty := difficulty;
       s_date := date |}
  /\ generateMatrixPuzzle date difficulty
     = {| m_type := "matrix";
          grid := blankCells (b_grid (buildArithmeticGrid date)) 3 date;
          solution := b_grid (buildArithmeticGrid date);
          m_hint := b_hint (buildArithmeticGrid date);
          m_patternKey := "arithmetic";
          m_difficulty := difficulty;
          m_date := date |}.
Proof.
  intros Hd _. split.
  - unfold generateSequencePuzzle.
    rewrite pickSequencePattern_default, genArithmetic_default by done.
    done.
  - unfold generateMatrixPuzzle.
    rewrite pickMatrixPattern_default by done.
    unfold blankCounts. rewrite lookup_not_tier by done. done.
Qed.

Lemma generators_default_silently_witness :
  s_patternKey (generateSequencePuzzle "2024-02-30" "expert") = "arithmetic"
  /\ m_patternKey (generateMatrixPuzzle "2024-02-30" "expert") = "arithmetic".
Proof.
  destruct (generators_default_silently "2024-02-30" "expert") as [Hs Hm].
  { vm_compute. intros H. repeat (inversion H as [|? ? ? H']; clear H; rename H' into H). }
  { vm_compute. intros H. repeat (inversion H as [|? ? ? H']; clear H; rename H' into H). }
  rewrite Hs, Hm. split; reflexivity.
Defined.

(** C5 as stated fails: an unknown difficulty and a date that is no calendar
    date give a puzzle, not an error. *)
Lemma generators_fail_fast_counterexample :
  (mret (M := IO) (generateSequencePuzzle "2024-02-30" "expert")
        (mkWorld ∅ 0)).1
  = Returned {| s_type := "sequence";
                sequence := [1; 4; 7; 10; 13];
                answer := 16;
                s_hint := "Arithmetic sequence (+3 each term)";
                s_patternKey := "arithmetic";
                s_difficulty := "expert";
                s_date := "2024-02-30" |}.
Proof. vm_compute. reflexivity. Qed.

(** ** The activity table *)

Section Store.

Lemma getAllActivities_run w : getAllActivities w = (Returned (history w), w).
Proof. reflexivity. Qed.

Lemma getRecentSolvedActivities_run n w :
  getRecentSolvedActivities n w
  = (Returned (slice 0 n (filter isSolved (history w))), w).
Proof. reflexivity. Qed.

Lemma elem_of_history w a :
  a ∈ history w <-> exists k, activities w !! k = Some a.
Proof.
  unfold history. rewrite elem_of_sort, list_elem_of_fmap. split.
  - intros [[k a'] [-> Hin%elem_of_map_to_list]]. by exists k.
  - intros [k Hk]. exists (k, a). split; [done|].
    by apply elem_of_map_to_list.
Qed.

End Store.

(** C8. An upsert through [saveDailyActivity] onto an existing record keeps
    the [createdAt] the record has, and writes a [synced] field that is 0 or
    1 whatever value the input supplies. *)
Theorem saveDailyActivity_keeps_createdAt (w : World)
    (activity : ActivityInput) (d : Z) (existing : Activity) (t : Z) :
  in_date activity = Some d ->
  activities w !! d = Some existing ->
  createdAt existing = Some t ->
  exists record w',
    saveDailyActivity activity w = (Returned record, w')
    /\ activities w' !! d = Some record
    /\ createdAt record = Some t
    /\ (synced record = Some (FNum 0) \/ synced record = Some (FNum 1)).
Proof.
  intros Hdate Hexisting Hcreated.
  unfold saveDailyActivity. rewrite Hdate.
  unfold mbind, IO_bind, activities_get, Date_now, activities_put, mret,
    IO_ret. rewrite Hexisting. cbn [mbind option_bind].
  eexists _, _. split; [reflexivity|]. cbn [activities date createdAt synced].
  split; [apply lookup_insert_eq|]. split.
  - by rewrite Hcreated.
  - destruct (truthy _); auto.
Qed.

Lemma saveDailyActivity_keeps_createdAt_witness :
  let existing :=
    mkActivity 19723 (Some "u1") (Some 80) (Some 20) (Some "easy") (Some true)
               (Some 1) (Some "2024-01-01") (Some (FNum 0))
               (Some 1704100000000) in
  let activity :=
    mkActivityInput (Some 19723) None None None None None None None
                    (Some (FBool true)) (Some 1704200000000) in
  exists record w',
    saveDailyActivity activity
      (mkWorld {[ 19723 := existing ]} 1704300000000) = (Returned record, w')
    /\ activities w' !! 19723 = Some record
    /\ createdAt record = Some 1704100000000
    /\ (synced record = Some (FNum 0) \/ synced record = Some (FNum 1)).
Proof.
  apply (saveDailyActivity_keeps_createdAt _ _ 19723
           (mkActivity 19723 (Some "u1") (Some 80) (Some 20) (Some "easy")
              (Some true) (Some 1) (Some "2024-01-01") (Some (FNum 0))
              (Some 1704100000000))).
  - reflexivity.
  - simpl. apply lookup_singleton_eq.
  - reflexivity.
Defined.

(** ** Rounding *)

Section Rounding.

Lemma Math_round_inject n : Math_round (inject_Z n) = n.
Proof.
  unfold Math_round, Qfloor, Qplus, inject_Z. simpl.
  rewrite Z.mul_1_r. symmetry. apply (Z.div_unique _ _ _ 1); lia.
Qed.

Lemma Math_round_mono x y : (x <= y)%Q -> Math_round x <= Math_round y.
Proof. intros Hxy. apply Qfloor_resp_le. by apply Qplus_le_l. Qed.

Lemma Math_round_between a b x :
  (inject_Z a <= x)%Q -> (x <= inject_Z b)%Q -> a <= Math_round x <= b.
Proof.
  intros Ha Hb. split.
  - rewrite <- (Math_round_inject a). by apply Math_round_mono.
  - rewrite <- (Math_round_inject b). by apply Math_round_mono.
Qed.

(** A share [a / b] of [k] points, rounded, lies between 0 and [k]. *)
Lemma Math_round_share (a b : nat) (k : Z) :
  (a <= b)%nat -> (0 < b)%nat -> 0 <= k ->
  0 <= Math_round (inject_Z (Z.of_nat a) / inject_Z (Z.of_nat b)
                   * inject_Z k)%Q <= k.
Proof.
  intros Hab Hb Hk.
  assert (0 < inject_Z (Z.of_nat b))%Q as Hb'
    by (rewrite <- (Zlt_Qlt 0); lia).
  assert (0 <= inject_Z (Z.of_nat a))%Q as Ha'
    by (rewrite <- (Zle_Qle 0); lia).
  assert (0 <= inject_Z k)%Q as Hk' by (by rewrite <- (Zle_Qle 0)).
  assert (0 <= inject_Z (Z.of_nat a) / inject_Z (Z.of_nat b))%Q as H0.
  { apply Qle_shift_div_l; [done|]. by rewrite Qmult_0_l. }
  assert (inject_Z (Z.of_nat a) / inject_Z (Z.of_nat b) <= 1)%Q as H1.
  { apply Qle_shift_div_r; [done|]. rewrite Qmult_1_l, <- Zle_Qle. lia. }
  apply Math_round_between.
  - by apply Qmult_le_0_compat.
  - rewrite <- (Qmult_1_l (inject_Z k)) at 2. by apply Qmult_le_compat_r.
Qed.

End Rounding.

(** ** The performance score *)

Section Score.

Lemma expected_time_positive difficulty :
  default 60 (EXPECTED_SOLVE_TIME !! difficulty) ∈ [60; 45; 30].
Proof.
  unfold EXPECTED_SOLVE_TIME. rewrite lookup_tiers.
  repeat case_decide; simpl; repeat constructor.
Qed.

Lemma computeSpeedScore_bounds solved difficulty :
  0 <= computeSpeedScore solved difficulty <= 40.
Proof.
  unfold computeSpeedScore. case_decide; [lia|].
  generalize (inject_Z (fold_left
                          (fun sum a => (sum + default 60 (timeTaken a))%Z)
                          solved 0%Z) / len solved)%Q.
  intros avgTime.
  pose proof (expected_time_positive difficulty) as Hexp.
  generalize dependent (default 60 (EXPECTED_SOLVE_TIME !! difficulty)).
  intros e He.
  assert (0 < e) as Hpos.
  { repeat (apply elem_of_cons in He as [->|He]; [lia|]).
    by apply elem_of_nil in He. }
  destruct (Qle_bool avgTime (inject_Z e)) eqn:Hfast; [lia|].
  destruct (Qle_bool (inject_Z e * 2) avgTime) eqn:Hslow; [lia|].
  assert (~ (avgTime <= inject_Z e)%Q) as Hfast'
    by (rewrite <- Qle_bool_iff; congruence).
  assert (~ (inject_Z e * 2 <= avgTime)%Q) as Hslow'
    by (rewrite <- Qle_bool_iff; congruence).
  apply Qnot_le_lt in Hfast', Hslow'.
  assert (0 < inject_Z e)%Q as He' by (by rewrite <- (Zlt_Qlt 0)).
  change 40%Q with (inject_Z 40).
  apply Math_round_between.
  - apply Qmult_le_0_compat; [|done].
    apply Qle_shift_div_l; [done|]. lra.
  - rewrite <- (Qmult_1_l (inject_Z 40)) at 2.
    apply Qmult_le_compat_r; [|done].
    apply Qle_shift_div_r; [done|]. lra.
Qed.

Lemma solveRateScore_bounds window :
  window <> [] -> 0 <= solveRateScore window <= 40.
Proof.
  intros Hne. unfold solveRateScore, len. change 40%Q with (inject_Z 40).
  apply Math_round_share; [apply length_filter| |lia].
  destruct window; [done|simpl; lia].
Qed.

Lemma cleanSolveScore_bounds window : 0 <= cleanSolveScore window <= 20.
Proof.
  unfold cleanSolveScore, len. case_decide; [|lia].
  change 20%Q with (inject_Z 20).
  apply Math_round_share; [apply length_filter|done|lia].
Qed.

(** The decision [getAdaptiveDifficulty] returns carries the cold-start
    score for an empty window and the sum of the components otherwise. *)
Lemma getAdaptiveDifficulty_score Math_sqrt w :
  exists decision,
    getAdaptiveDifficulty Math_sqrt w = (Returned decision, w)
    /\ performanceScore decision
       = if decide (length (recentWindow w) = 0%nat) then 0
         else solveRateScore (recentWindow w) + speedScore (recentWindow w)
              + cleanSolveScore (recentWindow w).
Proof.
  unfold getAdaptiveDifficulty, mbind, IO_bind.
  rewrite getAllActivities_run.
  change (slice 0 LOOKBACK_DAYS (history w)) with (recentWindow w).
  case_decide; [by eexists|].
  repeat match goal with
         | |- context [let '(_, _) := (if ?c then _ else _) in _] =>
             destruct c
         end; by eexists.
Qed.

End Score.

(** C3, as the code has it. For every window that is not empty the
    performance score [getAdaptiveDifficulty] computes is the sum of the
    solve-rate, speed and clean-solve scores, each a rounded integer; for
    the empty window it is the cold-start score 0; in every case it is an
    integer between 0 and 100. *)
Theorem performanceScore_components (Math_sqrt : Q -> Q) (w : World) :
  plainDifficulties (recentWindow w) ->
  exists decision,
    getAdaptiveDifficulty Math_sqrt w = (Returned decision, w)
    /\ (recentWindow w <> [] ->
        performanceScore decision
        = solveRateScore (recentWindow w) + speedScore (recentWindow w)
          + cleanSolveScore (recentWindow w)
        /\ 0 <= solveRateScore (recentWindow w) <= 40
        /\ 0 <= speedScore (recentWindow w) <= 40
        /\ 0 <= cleanSolveScore (recentWindow w) <= 20)
    /\ (recentWindow w = [] -> performanceScore decision = 0)
    /\ 0 <= performanceScore decision <= 100.
Proof.
  intros _.
  destruct (getAdaptiveDifficulty_score Math_sqrt w) as (decision & Hrun & Hs).
  exists decision. split; [done|].
  pose proof (computeSpeedScore_bounds
                (filter isSolved (recentWindow w))
                (getDominantDifficulty (filter isSolved (recentWindow w))))
    as Hspeed.
  pose proof (cleanSolveScore_bounds (recentWindow w)) as Hclean.
  fold (speedScore (recentWindow w)) in Hspeed.
  destruct (recentWindow w) as [|a window] eqn:Hw.
  - rewrite decide_True in Hs by done. split; [done|]. split; [done|lia].
  - rewrite decide_False in Hs by done.
    assert (0 <= solveRateScore (a :: window) <= 40) as Hrate
      by (by apply solveRateScore_bounds).
    split; [intros _; repeat split; lia|]. split; [done|lia].
Qed.

Lemma performanceScore_components_witness :
  exists decision,
    getAdaptiveDifficulty (fun x => x) mixed = (Returned decision, mixed)
    /\ performanceScore decision
       = solveRateScore (recentWindow mixed) + speedScore (recentWindow mixed)
         + cleanSolveScore (recentWindow mixed)
    /\ 0 <= performanceScore decision <= 100.
Proof.
  destruct (performanceScore_components (fun x => x) mixed)
    as (decision & Hrun & Hsum & _ & Hbounds).
  { apply (bool_decide_unpack _). vm_compute. exact I. }
  exists decision. split; [exact Hrun|]. split; [|exact Hbounds].
  apply Hsum. vm_compute. discriminate.
Defined.

(** C3 as stated fails on the empty window: the cold start returns the score
    0, which is not the sum of the components, the speed score of a window
    without solves being the neutral 20. *)
Lemma performanceScore_cold_start_counterexample :
  let w := mkWorld ∅ 0 in
  recentWindow w = []
  /\ exists decision,
       getAdaptiveDifficulty (fun x => x) w = (Returned decision, w)
       /\ performanceScore decision = 0
       /\ speedScore (recentWindow w) = 20
       /\ performanceScore decision
          <> solveRateScore (recentWindow w) + speedScore (recentWindow w)
             + cleanSolveScore (recentWindow w).
Proof.
  split; [reflexivity|]. eexists. split; [reflexivity|].
  split; [reflexivity|]. split; [reflexivity|]. vm_compute. discriminate.
Qed.

(** ** The hint budget *)

Section Budget.

(** On a list of solved rows the accuracy is 1 and only the seven-row
    bonus is left. *)
Lemma bonusOf_solved recent :
  Forall isSolved recent ->
  bonusOf recent = if decide (7 <= length recent)%nat then 1 else 0.
Proof.
  intros Hsolved. unfold bonusOf.
  assert (filter isSolved recent = recent) as ->.
  { induction Hsolved as [|a l Ha _ IH]; [done|].
    by rewrite filter_cons_True, IH. }
  assert (length (sortDates (map date recent)) = length recent) as ->
    by (unfold sortDates; by rewrite length_sort, length_map).
  assert (Qle_bool (1 # 2)
            (if decide (0 < length recent)%nat
             then inject_Z (Z.of_nat (length recent))
                  / inject_Z (Z.of_nat (length recent))
             else 1)%Q = true) as ->.
  { apply Qle_bool_iff. case_decide; [|done].
    apply Qle_shift_div_l; [rewrite <- (Zlt_Qlt 0); lia|].
    assert (0 <= inject_Z (Z.of_nat (length recent)))%Q as Hpos
      by (rewrite <- (Zle_Qle 0); lia).
    revert Hpos. generalize (inject_Z (Z.of_nat (length recent))).
    intros q Hq. lra. }
  simpl. by case_decide.
Qed.

Lemma computeHintBudget_run difficulty w :
  computeHintBudget difficulty w
  = (Returned
       (Z.min (default 1 (baseBudget !! difficulty)
               + if decide (7 <= length (filter isSolved (history w)))%nat
                 then 1 else 0) 4), w).
Proof.
  unfold computeHintBudget, mbind, IO_bind, try_catch.
  rewrite getRecentSolvedActivities_run. cbn [mret IO_ret].
  rewrite bonusOf_solved.
  - unfold slice. rewrite length_take, length_drop.
    repeat case_decide; reflexivity || lia.
  - unfold slice. apply Forall_take, Forall_drop, Forall_forall.
    by intros a [Ha _]%list_elem_of_filter.
Qed.

End Budget.

(** C4. With three recent rows of which one is solved the solve accuracy is
    one third, below 50%, yet the budget for a hard puzzle is the base 1: the
    accuracy is taken over the solved rows alone and never falls below 1. *)
Theorem computeHintBudget_no_struggling_bonus :
  length (history struggling) = 3%nat
  /\ length (filter isSolved (history struggling)) = 1%nat
  /\ (1 # 3 < 1 # 2)%Q
  /\ computeHintBudget "hard" struggling = (Returned 1, struggling).
Proof.
  split; [vm_compute; reflexivity|]. split; [vm_compute; reflexivity|].
  split; [reflexivity|]. vm_compute. reflexivity.
Qed.

(** ** The rolling average *)

Section Rolling.

Lemma fold_left_add_fmap {B} (f : B -> Z) (l : list B) (acc : Z) :
  fold_left (fun s v => s + v) (f <$> l) acc
  = fold_left (fun s p => s + f p) l acc.
Proof. revert acc. induction l as [|x l IH]; intros acc; simpl; auto. Qed.

Lemma lookup_rollingAverage values i v :
  values !! i = Some v ->
  rollingAverage values 7 !! i
  = Some (if decide (i < 6)%nat then None
          else Some (Math_round
                       (inject_Z (fold_left (fun s v => (s + v)%Z)
                                    (slice (i - 6) (i + 1) values) 0%Z)
                        / 7)%Q)).
Proof.
  intros Hv. unfold rollingAverage. rewrite list_lookup_imap, Hv. simpl.
  replace (i + 1 - 7)%nat with (i - 6)%nat by lia.
  repeat case_decide; try lia; done.
Qed.

Lemma performanceTrend_run w :
  exists trend,
    performanceTrend w = (Returned trend, w)
    /\ forall i p, trend !! i = Some p ->
         rollingAvg p
         = if decide (i < 6)%nat then None
           else Some (Math_round (trailingMean trend i)).
Proof.
  unfold performanceTrend, mbind, IO_bind. rewrite getAllActivities_run.
  case_decide.
  { eexists. split; [reflexivity|]. intros i p Hp.
    by rewrite lookup_nil in Hp. }
  set (recentChron := reverse (slice 0 60 (filter isSolved (history w)))).
  set (rawScores := map (fun s => default 0 (score s)) recentChron).
  eexists. split; [reflexivity|]. intros i p Hp.
  match type of Hp with ?t !! _ = _ => set (trend := t) in * end.
  assert (t_score <$> trend = rawScores) as Hscores.
  { apply list_eq. intros j. unfold trend, rawScores.
    rewrite !list_lookup_fmap, list_lookup_imap.
    by destruct (recentChron !! j). }
  unfold trend in Hp. rewrite list_lookup_imap in Hp.
  destruct (recentChron !! i) as [s|] eqn:Hs; [|done].
  injection Hp as <-. cbn [rollingAvg].
  rewrite (lookup_rollingAverage rawScores i (default 0 (score s))).
  2:{ unfold rawScores. fold (fmap (M := list)
        (fun s => default 0 (score s)) recentChron).
      by rewrite list_lookup_fmap, Hs. }
  cbn [mbind option_bind id]. case_decide; [done|].
  do 2 f_equal. unfold trailingMean, totalScore.
  rewrite <- Hscores. unfold slice.
  by rewrite <- fmap_drop, <- fmap_take, fold_left_add_fmap.
Qed.

End Rolling.

(** C6, as the code has it. At every position before the seventh the
    rolling average of the performance trend is null, and from the seventh on
    it is the mean of the seven trailing scores rounded to the nearest
    integer. *)
Theorem rollingAvg_rounded_mean (w : World) :
  exists trend,
    performanceTrend w = (Returned trend, w)
    /\ forall i p, trend !! i = Some p ->
         ((i < 6)%nat -> rollingAvg p = None)
         /\ ((6 <= i)%nat ->
             rollingAvg p = Some (Math_round (trailingMean trend i))).
Proof.
  destruct (performanceTrend_run w) as (trend & Hrun & Havg).
  exists trend. split; [done|]. intros i p Hp.
  rewrite (Havg i p Hp). split; intros Hi; case_decide; done || lia.
Qed.

Lemma rollingAvg_rounded_mean_witness :
  exists trend p,
    performanceTrend sevenSolved = (Returned trend, sevenSolved)
    /\ trend !! 6%nat = Some p
    /\ rollingAvg p = Some (Math_round (trailingMean trend 6)).
Proof.
  destruct (rollingAvg_rounded_mean sevenSolved) as (trend & Hrun & Havg).
  assert (exists p, trend !! 6%nat = Some p) as [p Hp].
  { revert Hrun. vm_compute. intros [= <-]. eexists. reflexivity. }
  exists trend, p. split; [exact Hrun|]. split; [exact Hp|].
  apply (Havg 6%nat p Hp). lia.
Defined.

(** C6 as stated fails: seven scores adding up to 71 have the mean 71/7,
    and the rolling average at the seventh position is 10. *)
Lemma rollingAvg_exact_mean_counterexample :
  exists trend p,
    performanceTrend sevenSolved = (Returned trend, sevenSolved)
    /\ trend !! 6%nat = Some p
    /\ rollingAvg p = Some 10
    /\ (trailingMean trend 6 == 71 # 7)%Q
    /\ ~ (inject_Z 10 == trailingMean trend 6)%Q.
Proof.
  eexists _, _. split; [vm_compute; reflexivity|].
  split; [reflexivity|]. split; [reflexivity|]. split; [reflexivity|].
  vm_compute. discriminate.
Qed.

(** ** Streaks *)

Section Walk.

(** Walking back from [cursor] ends within the bound and counts the run
    of solved days that ends at [cursor]. *)
Lemma walkBack_run (solvedSet : gset Z) :
  forall (fuel : nat) (cursor acc : Z),
    (size (filter (fun d => (d <= cursor)%Z) solvedSet) < fuel)%nat ->
    exists k, walkBack fuel solvedSet cursor acc = Some (acc + k)
              /\ runEndingAt (fun d => d ∈ solvedSet) cursor k.
Proof.
  induction fuel as [|fuel IH]; intros cursor acc Hfuel; [lia|].
  simpl. case_decide as Hin.
  - destruct (IH (cursor - 1) (acc + 1)) as (k & Hk & Hpos & Hrun & Hend).
    { assert (filter (fun d => d <= cursor - 1) solvedSet
              ⊂ filter (fun d => d <= cursor) solvedSet) as Hsub.
      { split.
        - intros d [Hd ?]%elem_of_filter. apply elem_of_filter.
          split; [lia|done].
        - intros Hsub.
          assert (cursor ∈ filter (fun d => d <= cursor - 1) solvedSet)
            as [? _]%elem_of_filter; [|lia].
          apply Hsub, elem_of_filter. split; [lia|done]. }
      apply subset_size in Hsub. lia. }
    exists (k + 1). split; [rewrite Hk; f_equal; lia|].
    split; [lia|]. split.
    + intros i Hi. destruct (decide (i = 0)) as [->|Hne].
      * by rewrite Z.sub_0_r.
      * replace (cursor - i) with (cursor - 1 - (i - 1)) by lia.
        apply Hrun. lia.
    + by replace (cursor - (k + 1)) with (cursor - 1 - k) by lia.
  - exists 0. split; [f_equal; lia|]. split; [lia|]. split.
    + intros i Hi. lia.
    + by rewrite Z.sub_0_r.
Qed.

Lemma walkBack_enough (solvedSet : gset Z) cursor :
  exists k, walkBack (S (size solvedSet)) solvedSet cursor 0 = Some k
            /\ runEndingAt (fun d => d ∈ solvedSet) cursor k.
Proof.
  destruct (walkBack_run solvedSet (S (size solvedSet)) cursor 0)
    as (k & Hk & Hrun).
  - apply Nat.lt_succ_r, subseteq_size.
    intros d [_ ?]%elem_of_filter. done.
  - exists k. by rewrite Hk.
Qed.

(** The anchor and the walk together give the current streak. *)
Lemma anchored_walk (solvedSet : gset Z) today :
  exists k,
    match anchorOf solvedSet today (today - 1) with
    | Some a => walkBack (S (size solvedSet)) solvedSet a 0
    | None => Some 0
    end = Some k
    /\ currentStreakOf (fun d => d ∈ solvedSet) today k.
Proof.
  unfold anchorOf, currentStreakOf.
  destruct (decide (today ∈ solvedSet)) as [Ht|Ht];
    [|destruct (decide (today - 1 ∈ solvedSet)) as [Hy|Hy]].
  - destruct (walkBack_enough solvedSet today) as (k & Hk & Hrun).
    exists k. split; [done|]. split; [done|]. split; intros; done.
  - destruct (walkBack_enough solvedSet (today - 1)) as (k & Hk & Hrun).
    exists k. split; [done|]. split; [done|]. split; intros; done.
  - exists 0. split; [done|]. split; [done|]. split; intros; done.
Qed.

Lemma runEndingAt_iff (P Q : Z -> Prop) a k :
  (forall d, P d <-> Q d) -> runEndingAt P a k -> runEndingAt Q a k.
Proof.
  intros HPQ (Hk & Hrun & Hend). split; [done|]. split.
  - intros i Hi. by apply HPQ, Hrun.
  - by rewrite <- HPQ.
Qed.

Lemma currentStreakOf_iff (P Q : Z -> Prop) today k :
  (forall d, P d <-> Q d) -> currentStreakOf P today k ->
  currentStreakOf Q today k.
Proof.
  intros HPQ (H1 & H2 & H3). split; [|split].
  - intros Ht. apply (runEndingAt_iff P); [done|]. by apply H1, HPQ.
  - intros Ht Hy. apply (runEndingAt_iff P); [done|].
    apply H2; by rewrite HPQ.
  - intros Ht Hy. apply H3; by rewrite HPQ.
Qed.

(** A run has one length. *)
Lemma runEndingAt_unique (P : Z -> Prop) a k1 k2 :
  runEndingAt P a k1 -> runEndingAt P a k2 -> k1 = k2.
Proof.
  intros (Hk1 & Hrun1 & Hend1) (Hk2 & Hrun2 & Hend2).
  destruct (Z.lt_trichotomy k1 k2) as [Hlt|[->|Hgt]]; [|done|].
  - exfalso. apply Hend1, Hrun2. lia.
  - exfalso. apply Hend2, Hrun1. lia.
Qed.

End Walk.

Section Engines.

Lemma elem_of_solvedDatesOf w d : d ∈ solvedDatesOf w <-> solvedOn w d.
Proof.
  unfold solvedDatesOf, sortDates, solvedOn.
  rewrite elem_of_sort, list_elem_of_fmap. split.
  - intros (a & -> & [Ha Hin]%list_elem_of_filter). by exists a.
  - intros (a & Hin & Ha & <-). exists a. split; [done|].
    by apply list_elem_of_filter.
Qed.

(** What [buildStreaks] returns: the forward pass and the walk. *)
Lemma buildStreaks_run zone solvedDates w :
  exists k,
    RetentionEngine.buildStreaks zone solvedDates w
    = (Returned {| currentStreak := k;
                   longestStreak :=
                     match solvedDates with
                     | [] => 0
                     | first :: rest =>
                         RetentionEngine.forwardPass zone first rest 1 1
                     end |}, w)
    /\ currentStreakOf (fun d => d ∈ solvedDates) (todayOf w) k.
Proof.
  destruct solvedDates as [|first rest].
  - exists 0. split; [done|]. split; [|split].
    + by intros ?%elem_of_nil.
    + by intros _ ?%elem_of_nil.
    + done.
  - destruct (anchored_walk (list_to_set (first :: rest)) (todayOf w))
      as (k & Hk & Hspec).
    exists k. split.
    + unfold RetentionEngine.buildStreaks, mbind, IO_bind, dayjs_today.
      fold (todayOf w).
      destruct (anchorOf _ _ _); [rewrite Hk|injection Hk as <-]; done.
    + revert Hspec. apply currentStreakOf_iff.
      intros d. apply elem_of_list_to_set.
Qed.

Lemma computeRetentionData_streaks_run zone w :
  exists k,
    RetentionEngine.computeRetentionData_streaks zone w
    = (Returned {| currentStreak := k;
                   longestStreak :=
                     match solvedDatesOf w with
                     | [] => 0
                     | first :: rest =>
                         RetentionEngine.forwardPass zone first rest 1 1
                     end |}, w)
    /\ currentStreakOf (solvedOn w) (todayOf w) k.
Proof.
  destruct (buildStreaks_run zone (solvedDatesOf w) w) as (k & Hrun & Hspec).
  exists k. split.
  - unfold RetentionEngine.computeRetentionData_streaks, mbind, IO_bind.
    by rewrite getAllActivities_run.
  - revert Hspec. apply currentStreakOf_iff, elem_of_solvedDatesOf.
Qed.

Lemma calculateStreaks_run zone w :
  exists k,
    StreakEngine.calculateStreaks zone w
    = (Returned {| currentStreak := k;
                   longestStreak :=
                     match solvedDatesOf w with
                     | [] => 0
                     | first :: rest =>
                         StreakEngine.forwardPass zone first rest 1 1
                     end |}, w)
    /\ currentStreakOf (solvedOn w) (todayOf w) k.
Proof.
  unfold StreakEngine.calculateStreaks, mbind, IO_bind.
  rewrite getAllActivities_run.
  change (sortDates (map date (filter isSolved (history w))))
    with (solvedDatesOf w).
  pose proof (elem_of_solvedDatesOf w) as Hmem.
  destruct (solvedDatesOf w) as [|first rest].
  - exists 0. split; [done|]. split; [|split].
    + by intros ?%Hmem%elem_of_nil.
    + by intros _ ?%Hmem%elem_of_nil.
    + done.
  - destruct (anchored_walk (list_to_set (first :: rest)) (todayOf w))
      as (k & Hk & Hspec).
    exists k. split.
    + unfold dayjs_today, mret, IO_ret. fold (todayOf w).
      destruct (anchorOf _ _ _); [rewrite Hk|injection Hk as <-]; done.
    + revert Hspec. apply currentStreakOf_iff.
      intros d. by rewrite elem_of_list_to_set, Hmem.
Qed.

End Engines.

Section StreakExamples.

Lemma streak_of_three (P : Z -> Prop) D k :
  (forall d, P d <-> d ∈ [D - 2; D - 1; D]) ->
  currentStreakOf P D k -> k = 3.
Proof.
  intros HP (Htoday & _ & _).
  destruct Htoday as (Hk & Hrun & Hend).
  { apply HP. rewrite !elem_of_cons. lia. }
  destruct (decide (k < 3)) as [Hlt|Hge].
  - exfalso. apply Hend, HP. rewrite !elem_of_cons. lia.
  - destruct (decide (k = 3)) as [->|Hne]; [done|].
    exfalso. assert (P (D - 3)) as Hin by (apply Hrun; lia).
    apply HP in Hin. rewrite !elem_of_cons, elem_of_nil in Hin. lia.
Qed.

Lemma streak_after_gap (P : Z -> Prop) D k :
  (forall d, P d <-> d ∈ [D - 3; D - 2]) ->
  currentStreakOf P D k -> k = 0.
Proof.
  intros HP (_ & _ & Hnone). apply Hnone.
  - rewrite HP, !elem_of_cons, elem_of_nil. lia.
  - rewrite HP, !elem_of_cons, elem_of_nil. lia.
Qed.

End StreakExamples.

(** C7. The current streak, of [buildStreaks] on a list of solved dates and
    of [calculateStreaks] on the store, is the number of consecutive solved
    days ending today, or ending yesterday when today is not solved, and 0
    when neither is solved. With the solved dates D-2, D-1 and D, D being
    today, it is 3; with D-3 and D-2 it is 0. *)
Theorem currentStreak_counts_run (zone : Dayjs.Zone) (w : World)
    (solvedDates : list Z) :
  (exists s, RetentionEngine.buildStreaks zone solvedDates w = (Returned s, w)
             /\ currentStreakOf (fun d => d ∈ solvedDates) (todayOf w)
                                (currentStreak s))
  /\ (exists s, StreakEngine.calculateStreaks zone w = (Returned s, w)
                /\ currentStreakOf (solvedOn w) (todayOf w) (currentStreak s))
  /\ (exists s,
        RetentionEngine.buildStreaks zone
          [todayOf w - 2; todayOf w - 1; todayOf w] w = (Returned s, w)
        /\ currentStreak s = 3)
  /\ (exists s,
        RetentionEngine.buildStreaks zone [todayOf w - 3; todayOf w - 2] w
        = (Returned s, w)
        /\ currentStreak s = 0)
  /\ ((forall d, solvedOn w d
                 <-> d ∈ [todayOf w - 2; todayOf w - 1; todayOf w]) ->
      exists s, StreakEngine.calculateStreaks zone w = (Returned s, w)
                /\ currentStreak s = 3)
  /\ ((forall d, solvedOn w d <-> d ∈ [todayOf w - 3; todayOf w - 2]) ->
      exists s, StreakEngine.calculateStreaks zone w = (Returned s, w)
                /\ currentStreak s = 0).
Proof.
  split; [|split; [|split; [|split; [|split]]]].
  - destruct (buildStreaks_run zone solvedDates w) as (k & Hrun & Hspec).
    by eexists.
  - destruct (calculateStreaks_run zone w) as (k & Hrun & Hspec). by eexists.
  - destruct (buildStreaks_run zone [todayOf w - 2; todayOf w - 1; todayOf w] w)
      as (k & Hrun & Hspec).
    eexists. split; [exact Hrun|]. cbn [currentStreak].
    by apply (streak_of_three _ (todayOf w) k) in Hspec.
  - destruct (buildStreaks_run zone [todayOf w - 3; todayOf w - 2] w)
      as (k & Hrun & Hspec).
    eexists. split; [exact Hrun|]. cbn [currentStreak].
    by apply (streak_after_gap _ (todayOf w) k) in Hspec.
  - intros Hdays. destruct (calculateStreaks_run zone w) as (k & Hrun & Hspec).
    eexists. split; [exact Hrun|]. cbn [currentStreak].
    by apply (streak_of_three _ (todayOf w) k) in Hspec.
  - intros Hdays. destruct (calculateStreaks_run zone w) as (k & Hrun & Hspec).
    eexists. split; [exact Hrun|]. cbn [currentStreak].
    by apply (streak_after_gap _ (todayOf w) k) in Hspec.
Qed.

Lemma currentStreak_counts_run_witness :
  (exists s, StreakEngine.calculateStreaks Dayjs.utc threeInARow
             = (Returned s, threeInARow) /\ currentStreak s = 3)
  /\ (exists s, StreakEngine.calculateStreaks Dayjs.utc gapBeforeToday
                = (Returned s, gapBeforeToday) /\ currentStreak s = 0).
Proof.
  split.
  - destruct (currentStreak_counts_run Dayjs.utc threeInARow [])
      as (_ & _ & _ & _ & Hthree & _).
    apply Hthree. intros d. rewrite <- elem_of_solvedDatesOf.
    assert (solvedDatesOf threeInARow = [19723; 19724; 19725]) as ->
      by (vm_compute; reflexivity).
    reflexivity.
  - destruct (currentStreak_counts_run Dayjs.utc gapBeforeToday [])
      as (_ & _ & _ & _ & _ & Hgap).
    apply Hgap. intros d. rewrite <- elem_of_solvedDatesOf.
    assert (solvedDatesOf gapBeforeToday = [19722; 19723]) as ->
      by (vm_compute; reflexivity).
    reflexivity.
Defined.

(** ** The longest streak *)

Section Longest.

Lemma sort_insert_dates_sorted x l :
  StronglySorted Z.le l ->
  StronglySorted Z.le (sort_insert (fun a b => a - b) x l).
Proof.
  induction 1 as [|y l Hl IH Hy]; simpl; [by repeat constructor|].
  case_decide as Hxy.
  - constructor; [by constructor|]. constructor; [lia|].
    eapply Forall_impl; [exact Hy|]. intros z Hz. simpl in *. lia.
  - constructor; [done|]. rewrite sort_insert_Permutation.
    constructor; [lia|done].
Qed.

Lemma sortDates_sorted l : StronglySorted Z.le (sortDates l).
Proof.
  unfold sortDates. induction l as [|x l IH]; simpl; [constructor|].
  by apply sort_insert_dates_sorted.
Qed.

Lemma sorted_NoDup_strict l :
  StronglySorted Z.le l -> NoDup l -> StronglySorted Z.lt l.
Proof.
  induction 1 as [|x l Hl IH Hx]; [constructor|].
  intros [Hnotin Hnodup]%NoDup_cons. constructor; [by apply IH|].
  apply Forall_forall. intros y Hy.
  assert (x <= y) by (by eapply Forall_forall in Hx).
  assert (x <> y) by (intros ->; done). lia.
Qed.

(** With one record a date the solved dates are strictly increasing. *)
Lemma solvedDatesOf_strict w :
  NoDup (date <$> history w) -> StronglySorted Z.lt (solvedDatesOf w).
Proof.
  intros Hnodup. apply sorted_NoDup_strict; [apply sortDates_sorted|].
  unfold solvedDatesOf, sortDates. rewrite sort_Permutation.
  eapply sublist_NoDup; [exact Hnodup|].
  apply fmap_sublist, sublist_filter.
Qed.

Variable zone : Dayjs.Zone.
Hypothesis Hregular : regular zone.

(** The forward pass of [buildStreaks] on strictly increasing dates: its
    result bounds every run of consecutive days among the dates. [P] holds
    of the dates already passed, [prev] being the last of them. *)
Lemma forwardPass_bounds_runs rest :
  forall prev run longest (P : Z -> Prop),
    StronglySorted Z.lt (prev :: rest) ->
    P prev ->
    (forall d, P d -> d <= prev) ->
    1 <= run <= longest ->
    (forall k, (forall i, 0 <= i < k -> P (prev - i)) -> k <= run) ->
    (forall a k, P a -> (forall i, 0 <= i < k -> P (a - i)) ->
                 k <= longest) ->
    forall a k,
      P a \/ a ∈ rest ->
      (forall i, 0 <= i < k -> P (a - i) \/ a - i ∈ rest) ->
      k <= RetentionEngine.forwardPass zone prev rest run longest.
Proof.
  induction rest as [|d rest IH];
    intros prev run longest P Hsorted Hprev Hmax Hrun Hlast Hall a k Ha Hk.
  - simpl. apply (Hall a k).
    + destruct Ha as [?|?%elem_of_nil]; done.
    + intros i Hi. destruct (Hk i Hi) as [?|?%elem_of_nil]; done.
  - apply StronglySorted_inv in Hsorted as [Hsorted Hgt].
    apply Forall_cons in Hgt as [Hd Hgt].
    simpl.
    rewrite Hregular.
    set (run' := if decide (d - prev = 1) then run + 1 else 1).
    set (longest' := if decide (run' > longest) then run' else longest).
    assert (1 <= run' <= longest') as Hrun'
      by (unfold longest', run'; repeat case_decide; lia).
    assert (longest <= longest') as Hgrow
      by (unfold longest'; case_decide; lia).
    assert (forall k, (forall i, 0 <= i < k -> P (d - i) \/ d - i = d) ->
                      k <= run') as Hlast'.
    { intros k' Hk'. destruct (decide (k' <= 1)) as [?|Hbig]; [lia|].
      assert (P (d - 1)) as Hd1 by (destruct (Hk' 1); [lia|done|lia]).
      assert (d - prev = 1) as Hdiff by (apply Hmax in Hd1; lia).
      unfold run'. rewrite decide_True by done.
      assert (k' - 1 <= run); [|lia].
      apply Hlast. intros i Hi.
      replace (prev - i) with (d - (i + 1)) by lia.
      destruct (Hk' (i + 1)); [lia|done|lia]. }
    apply (IH d run' longest' (fun x => P x \/ x = d) Hsorted
              (or_intror eq_refl)) with (a := a);
      [|exact Hrun'|exact Hlast'| | |].
    + intros x [Hx| ->]; [apply Hmax in Hx|]; lia.
    + intros a' k' [Ha'| ->] Hk'.
      * assert (k' <= longest); [|lia]. apply (Hall a' k' Ha').
        intros i Hi. destruct (Hk' i Hi) as [?|Heq]; [done|].
        apply Hmax in Ha'. lia.
      * assert (k' <= run'); [|lia]. by apply Hlast'.
    + destruct Ha as [?|[->|?]%elem_of_cons]; auto.
    + intros i Hi. destruct (Hk i Hi) as [?|[?|?]%elem_of_cons]; auto.
Qed.

(** The pass from the first date on. *)
Lemma forwardPass_longest first rest a k :
  StronglySorted Z.lt (first :: rest) ->
  a ∈ first :: rest ->
  (forall i, 0 <= i < k -> a - i ∈ first :: rest) ->
  k <= RetentionEngine.forwardPass zone first rest 1 1.
Proof.
  intros Hsorted Ha Hk.
  apply (forwardPass_bounds_runs rest first 1 1 (fun x => x = first)
           Hsorted eq_refl) with (a := a); try lia.
  - intros k' Hk'. destruct (decide (k' <= 1)) as [?|?]; [done|].
    specialize (Hk' 1). lia.
  - intros a' k' -> Hk'. destruct (decide (k' <= 1)) as [?|?]; [done|].
    specialize (Hk' 1). lia.
  - by apply elem_of_cons in Ha.
  - intros i Hi. by apply elem_of_cons, Hk.
Qed.

(** The two engines run the same forward pass. *)
Lemma forwardPass_agree rest :
  forall prev run longest,
    1 <= longest ->
    StreakEngine.forwardPass zone prev rest run longest
    = RetentionEngine.forwardPass zone prev rest run longest.
Proof.
  induction rest as [|d rest IH]; intros prev run longest Hlongest;
    simpl; [done|].
  repeat case_decide; try lia; apply IH; lia.
Qed.

(** The current streak is a run among the dates, so the pass bounds it. *)
Lemma currentStreak_le_longest (dates : list Z) today k :
  StronglySorted Z.lt dates ->
  currentStreakOf (fun d => d ∈ dates) today k ->
  k <= match dates with
       | [] => 0
       | first :: rest => RetentionEngine.forwardPass zone first rest 1 1
       end.
Proof.
  intros Hsorted (Htoday & Hyesterday & Hnone).
  destruct (decide (today ∈ dates)) as [Ht|Ht];
    [|destruct (decide (today - 1 ∈ dates)) as [Hy|Hy]].
  - destruct (Htoday Ht) as (_ & Hrun & _).
    destruct dates as [|first rest]; [by apply elem_of_nil in Ht|].
    by apply (forwardPass_longest first rest today k).
  - destruct (Hyesterday Ht Hy) as (_ & Hrun & _).
    destruct dates as [|first rest]; [by apply elem_of_nil in Hy|].
    by apply (forwardPass_longest first rest (today - 1) k).
  - rewrite (Hnone Ht Hy). destruct dates as [|first rest]; [done|].
    apply (forwardPass_longest first rest first 0 Hsorted); [left|lia].
Qed.

End Longest.

(** In a time zone whose days all start at midnight the longest streak is
    at least the current streak, for every store with at most one record a
    date. *)
Lemma longestStreak_ge_currentStreak (zone : Dayjs.Zone) (w : World) :
  regular zone ->
  NoDup (date <$> history w) ->
  (exists s, StreakEngine.calculateStreaks zone w = (Returned s, w)
             /\ currentStreak s <= longestStreak s)
  /\ (exists s, RetentionEngine.computeRetentionData_streaks zone w
                = (Returned s, w)
                /\ currentStreak s <= longestStreak s).
Proof.
  intros Hregular Hnodup.
  pose proof (solvedDatesOf_strict w Hnodup) as Hsorted.
  split.
  - destruct (calculateStreaks_run zone w) as (k & Hrun & Hspec).
    eexists. split; [exact Hrun|]. cbn [currentStreak longestStreak].
    assert (currentStreakOf (fun d => d ∈ solvedDatesOf w) (todayOf w) k)
      as Hspec'.
    { revert Hspec. apply currentStreakOf_iff. intros d.
      by rewrite elem_of_solvedDatesOf. }
    pose proof (currentStreak_le_longest zone Hregular _ _ _ Hsorted Hspec')
      as Hle.
    destruct (solvedDatesOf w); [done|].
    by rewrite forwardPass_agree.
  - destruct (computeRetentionData_streaks_run zone w) as (k & Hrun & Hspec).
    eexists. split; [exact Hrun|]. cbn [currentStreak longestStreak].
    apply (currentStreak_le_longest zone Hregular _ (todayOf w)); [done|].
    revert Hspec. apply currentStreakOf_iff. intros d.
    by rewrite elem_of_solvedDatesOf.
Qed.

Lemma utc_regular : regular Dayjs.utc.
Proof.
  intros a b. unfold Dayjs.diff, Dayjs.utc, msPerDay. cbn.
  replace (a * 86400000 - b * 86400000 - (0 - 0) * Dayjs.msPerMinute)
    with ((a - b) * 86400000) by (unfold Dayjs.msPerMinute; lia).
  by rewrite Z.quot_mul.
Qed.

(** C9. In Africa/Cairo, with solved records on 25, 26 and 27 April 2024 and
    27 April being today, both computations return the current streak 3 and
    the longest streak 2.  The day of 26 April starts at 01:00 there, so the
    day of 27 April starts 23 hours after it and [diff] is 0: the run of the
    forward pass ends, while the walk back counts the three calendar
    days. *)
Theorem longestStreak_below_currentStreak :
  NoDup (date <$> history cairoSpring)
  /\ solvedDatesOf cairoSpring = [19838; 19839; 19840]
  /\ todayOf cairoSpring = 19840
  /\ Dayjs.diff cairo 19839 19838 = 1
  /\ Dayjs.diff cairo 19840 19839 = 0
  /\ StreakEngine.calculateStreaks cairo cairoSpring
     = (Returned {| currentStreak := 3; longestStreak := 2 |}, cairoSpring)
  /\ RetentionEngine.computeRetentionData_streaks cairo cairoSpring
     = (Returned {| currentStreak := 3; longestStreak := 2 |}, cairoSpring).
Proof.
  split; [apply (bool_decide_unpack _); vm_compute; exact I|].
  repeat split; vm_compute; reflexivity.
Qed.


(* ===================================================================== *)
(** * Part III. Further properties of the code                             *)
(* ===================================================================== *)

(** ** Seeded derivation *)

Section Seed.

Lemma hexValue_bounds c d : hexValue c = Some d -> 0 <= d <= 15.
Proof.
  unfold hexValue. repeat case_decide; intros [= <-]; lia.
Qed.

Lemma parseHex_bounds s :
  forall acc, 0 <= acc ->
    0 <= parseHex acc s < (acc + 1) * 16 ^ Z.of_nat (String.length s).
Proof.
  induction s as [|c s IH]; intros acc Hacc; simpl String.length.
  - simpl. lia.
  - cbn [parseHex]. rewrite Nat2Z.inj_succ, Z.pow_succ_r by lia.
    assert (0 < 16 ^ Z.of_nat (String.length s)) by (apply Z.pow_pos_nonneg; lia).
    destruct (hexValue c) as [d|] eqn:Hd.
    + apply hexValue_bounds in Hd.
      specialize (IH (16 * acc + d)). nia.
    + nia.
Qed.

Lemma length_substring n m s : (String.length (substring n m s) <= m)%nat.
Proof.
  revert n m. induction s as [|c s IH]; intros [|n] [|m]; simpl; try lia.
  - specialize (IH 0%nat m). lia.
  - apply IH.
  - apply IH.
Qed.

Lemma sr_bounds (seedString : string) : 0 <= sr seedString < 2 ^ 32.
Proof.
  unfold sr, parseInt16.
  generalize (CryptoJS.toString (CryptoJS.SHA256 seedString)). intros hash.
  pose proof (parseHex_bounds (substring 0 8 hash) 0 ltac:(lia)) as Hb.
  pose proof (length_substring 0 8 hash) as Hlen.
  assert (16 ^ Z.of_nat (String.length (substring 0 8 hash)) <= 16 ^ 8)
    by (apply Z.pow_le_mono_r; lia).
  change (2 ^ 32) with (16 ^ 8). lia.
Qed.

Lemma srRange_bounds (seed : string) (min max : Z) :
  min <= max -> min <= srRange seed min max <= max.
Proof.
  intros Hrange. unfold srRange, rem.
  pose proof (sr_bounds seed) as [Hsr _].
  pose proof (Z.rem_bound_pos (sr seed) (max - min + 1) Hsr ltac:(lia)).
  lia.
Qed.

(** X1. The seed is an unsigned 32-bit integer: eight hexadecimal digits. *)
Theorem sr_is_uint32 (seedString : string) : 0 <= sr seedString < 2 ^ 32.
Proof. apply sr_bounds. Qed.

(** X2. [srRange] stays inside the range it is given. *)
Theorem srRange_in_range (seed : string) (min max : Z) :
  min <= max -> min <= srRange seed min max <= max.
Proof. apply srRange_bounds. Qed.

Lemma srRange_in_range_witness :
  2 <= srRange "2024-01-01arith_step" 2 6 <= 6.
Proof. apply srRange_in_range. lia. Defined.

End Seed.

(** ** The sequence families *)

Section Families.

(** Two lists of integers that agree term by term as polynomials. *)
Ltac list_ring :=
  repeat match goal with
         | |- context [Z.of_nat ?n] =>
             let v := eval vm_compute in (Z.of_nat n) in
             change (Z.of_nat n) with v
         end;
  repeat (apply (f_equal2 (@cons Z)); [ring|]); reflexivity.

Lemma lookup_easy {V} (a b c : V) :
  ({[ "easy" := a; "medium" := b; "hard" := c ]} : gmap string V) !! "easy"
  = Some a.
Proof. rewrite lookup_tiers. by rewrite decide_True. Qed.

Lemma lookup_medium {V} (a b c : V) :
  ({[ "easy" := a; "medium" := b; "hard" := c ]} : gmap string V) !! "medium"
  = Some b.
Proof.
  rewrite lookup_tiers. rewrite decide_False by done. by rewrite decide_True.
Qed.

Lemma lookup_hard {V} (a b c : V) :
  ({[ "easy" := a; "medium" := b; "hard" := c ]} : gmap string V) !! "hard"
  = Some c.
Proof.
  rewrite lookup_tiers. rewrite !decide_False by done. by rewrite decide_True.
Qed.

(** X3. Arithmetic: five terms from [base] in steps of [step], the answer being
    the sixth, with the ranges of each tier. *)
Theorem genArithmetic_terms (date : string) :
  (exists base step,
      1 <= base <= 10 /\ 2 <= step <= 6
      /\ r_sequence (genArithmetic date "easy")
         = [base; base + step; base + 2 * step; base + 3 * step;
            base + 4 * step]
      /\ r_answer (genArithmetic date "easy") = base + 5 * step)
  /\ (exists base step,
        5 <= base <= 30 /\ 4 <= step <= 12
        /\ r_sequence (genArithmetic date "medium")
           = [base; base + step; base + 2 * step; base + 3 * step;
              base + 4 * step]
        /\ r_answer (genArithmetic date "medium") = base + 5 * step)
  /\ (exists base step,
        10 <= base <= 50 /\ 7 <= step <= 20
        /\ r_sequence (genArithmetic date "hard")
           = [base; base + step; base + 2 * step; base + 3 * step;
              base + 4 * step]
        /\ r_answer (genArithmetic date "hard") = base + 5 * step).
Proof.
  unfold genArithmetic. rewrite lookup_easy, lookup_medium, lookup_hard.
  cbn [default from_option id baseMin baseMax stepMin stepMax r_sequence
       r_answer].
  repeat split;
    (eexists _, _;
     split; [apply srRange_bounds; lia|];
     split; [apply srRange_bounds; lia|];
     split; [|reflexivity];
     cbn [map range seq Z.of_nat Pos.of_succ_nat Pos.succ];
     list_ring).
Qed.

(** X4. Geometric: five terms from [base], each [ratio] times the one before,
    the answer being the sixth, with the ranges of each tier. *)
Theorem genGeometric_terms (date : string) :
  (exists base ratio,
      1 <= base <= 4 /\ 2 <= ratio <= 3
      /\ r_sequence (genGeometric date "easy")
         = [base; base * ratio; base * ratio ^ 2; base * ratio ^ 3;
            base * ratio ^ 4]
      /\ r_answer (genGeometric date "easy") = base * ratio ^ 5)
  /\ (exists base ratio,
        1 <= base <= 5 /\ 2 <= ratio <= 4
        /\ r_sequence (genGeometric date "medium")
           = [base; base * ratio; base * ratio ^ 2; base * ratio ^ 3;
              base * ratio ^ 4]
        /\ r_answer (genGeometric date "medium") = base * ratio ^ 5)
  /\ (exists base ratio,
        2 <= base <= 6 /\ 3 <= ratio <= 5
        /\ r_sequence (genGeometric date "hard")
           = [base; base * ratio; base * ratio ^ 2; base * ratio ^ 3;
              base * ratio ^ 4]
        /\ r_answer (genGeometric date "hard") = base * ratio ^ 5).
Proof.
  unfold genGeometric. rewrite lookup_easy, lookup_medium, lookup_hard.
  cbn [default from_option id g_baseMin g_baseMax ratioMin ratioMax
       r_sequence r_answer].
  repeat split;
    (eexists _, _;
     split; [apply srRange_bounds; lia|];
     split; [apply srRange_bounds; lia|];
     split; [|reflexivity];
     cbn [map range seq Z.of_nat Pos.of_succ_nat Pos.succ];
     list_ring).
Qed.

(** X5. Squares: the squares of five consecutive integers from a start between
    1 and 8, the answer being the square of the next integer. *)
Theorem genSquares_terms (date : string) :
  exists startN,
    1 <= startN <= 8
    /\ r_sequence (genSquares date)
       = [startN ^ 2; (startN + 1) ^ 2; (startN + 2) ^ 2; (startN + 3) ^ 2;
          (startN + 4) ^ 2]
    /\ r_answer (genSquares date) = (startN + 5) ^ 2.
Proof.
  unfold genSquares. cbn [r_sequence r_answer]. eexists.
  split; [apply srRange_bounds; lia|]. split; [|reflexivity].
  cbn [map range seq Z.of_nat Pos.of_succ_nat Pos.succ].
  list_ring.
Qed.

(** X6. Fibonacci style: from the third on every term, and the answer after
    them, is the sum of the two before it; the first two lie in [1, 5] and
    [2, 8]. *)
Theorem genFibonacci_terms (date : string) :
  exists a0 a1,
    1 <= a0 <= 5 /\ 2 <= a1 <= 8
    /\ r_sequence (genFibonacci date)
       = [a0; a1; a1 + a0; (a1 + a0) + a1; ((a1 + a0) + a1) + (a1 + a0)]
    /\ r_answer (genFibonacci date)
       = ((a1 + a0) + a1) + (((a1 + a0) + a1) + (a1 + a0)).
Proof.
  unfold genFibonacci. cbn [r_sequence r_answer]. eexists _, _.
  split; [apply srRange_bounds; lia|].
  split; [apply srRange_bounds; lia|].
  split; reflexivity.
Qed.

(** X7. Alternating: the magnitudes grow geometrically and the signs alternate,
    starting positive; the answer, the sixth term, is negative. *)
Theorem genAlternating_terms (date : string) :
  exists base ratio,
    2 <= base <= 5 /\ 2 <= ratio <= 3
    /\ r_sequence (genAlternating date)
       = [base; - (base * ratio); base * ratio ^ 2; - (base * ratio ^ 3);
          base * ratio ^ 4]
    /\ r_answer (genAlternating date) = - (base * ratio ^ 5)
    /\ r_answer (genAlternating date) < 0.
Proof.
  unfold genAlternating. cbn [r_sequence r_answer].
  pose proof (srRange_bounds (date +:+ "alt_base") 2 5 ltac:(lia)) as Hb.
  pose proof (srRange_bounds (date +:+ "alt_ratio") 2 3 ltac:(lia)) as Hr.
  revert Hb Hr.
  generalize (srRange (date +:+ "alt_base") 2 5).
  generalize (srRange (date +:+ "alt_ratio") 2 3).
  intros ratio base Hb Hr. exists base, ratio.
  split; [done|]. split; [done|].
  assert (0 < ratio ^ 5) by (apply Z.pow_pos_nonneg; lia).
  split; [|split; [lia|nia]].
  cbn [map range seq Z.of_nat Pos.of_succ_nat Pos.succ].
  list_ring.
Qed.

(** X8. Polynomial: the term at the 1-based position [n] is [a + b n + c n^2],
    the answer being the one at position 6. *)
Theorem genPolynomial_terms (date : string) :
  exists a b c,
    1 <= a <= 5 /\ 1 <= b <= 4 /\ 1 <= c <= 3
    /\ r_sequence (genPolynomial date)
       = map (fun n => a + b * n + c * n ^ 2) [1; 2; 3; 4; 5]
    /\ r_answer (genPolynomial date) = a + b * 6 + c * 6 ^ 2.
Proof.
  unfold genPolynomial. cbn [r_sequence r_answer]. eexists _, _, _.
  split; [apply srRange_bounds; lia|].
  split; [apply srRange_bounds; lia|].
  split; [apply srRange_bounds; lia|].
  split; reflexivity.
Qed.

End Families.

(** ** The number of blanks *)

Section Exactly.

(** Sixteen cells shown (1) or blank (0), two or more shown in every row and
    column, and no shown cell in a row and a column that both show three or
    more: at most nine cells are shown. *)
Lemma at_most_nine_shown
    (v00 v01 v02 v03 v10 v11 v12 v13
     v20 v21 v22 v23 v30 v31 v32 v33 : Z) :
  0 <= v00 <= 1 -> 0 <= v01 <= 1 -> 0 <= v02 <= 1 -> 0 <= v03 <= 1 ->
  0 <= v10 <= 1 -> 0 <= v11 <= 1 -> 0 <= v12 <= 1 -> 0 <= v13 <= 1 ->
  0 <= v20 <= 1 -> 0 <= v21 <= 1 -> 0 <= v22 <= 1 -> 0 <= v23 <= 1 ->
  0 <= v30 <= 1 -> 0 <= v31 <= 1 -> 0 <= v32 <= 1 -> 0 <= v33 <= 1 ->
  2 <= v00 + v01 + v02 + v03 ->
  2 <= v10 + v11 + v12 + v13 ->
  2 <= v20 + v21 + v22 + v23 ->
  2 <= v30 + v31 + v32 + v33 ->
  2 <= v00 + v10 + v20 + v30 ->
  2 <= v01 + v11 + v21 + v31 ->
  2 <= v02 + v12 + v22 + v32 ->
  2 <= v03 + v13 + v23 + v33 ->
  (v00 + v01 + v02 + v03 <= 2
   \/ v00 + v10 + v20 + v30 <= 2 \/ v00 = 0) ->
  (v00 + v01 + v02 + v03 <= 2
   \/ v01 + v11 + v21 + v31 <= 2 \/ v01 = 0) ->
  (v00 + v01 + v02 + v03 <= 2
   \/ v02 + v12 + v22 + v32 <= 2 \/ v02 = 0) ->
  (v00 + v01 + v02 + v03 <= 2
   \/ v03 + v13 + v23 + v33 <= 2 \/ v03 = 0) ->
  (v10 + v11 + v12 + v13 <= 2
   \/ v00 + v10 + v20 + v30 <= 2 \/ v10 = 0) ->
  (v10 + v11 + v12 + v13 <= 2
   \/ v01 + v11 + v21 + v31 <= 2 \/ v11 = 0) ->
  (v10 + v11 + v12 + v13 <= 2
   \/ v02 + v12 + v22 + v32 <= 2 \/ v12 = 0) ->
  (v10 + v11 + v12 + v13 <= 2
   \/ v03 + v13 + v23 + v33 <= 2 \/ v13 = 0) ->
  (v20 + v21 + v22 + v23 <= 2
   \/ v00 + v10 + v20 + v30 <= 2 \/ v20 = 0) ->
  (v20 + v21 + v22 + v23 <= 2
   \/ v01 + v11 + v21 + v31 <= 2 \/ v21 = 0) ->
  (v20 + v21 + v22 + v23 <= 2
   \/ v02 + v12 + v22 + v32 <= 2 \/ v22 = 0) ->
  (v20 + v21 + v22 + v23 <= 2
   \/ v03 + v13 + v23 + v33 <= 2 \/ v23 = 0) ->
  (v30 + v31 + v32 + v33 <= 2
   \/ v00 + v10 + v20 + v30 <= 2 \/ v30 = 0) ->
  (v30 + v31 + v32 + v33 <= 2
   \/ v01 + v11 + v21 + v31 <= 2 \/ v31 = 0) ->
  (v30 + v31 + v32 + v33 <= 2
   \/ v02 + v12 + v22 + v32 <= 2 \/ v32 = 0) ->
  (v30 + v31 + v32 + v33 <= 2
   \/ v03 + v13 + v23 + v33 <= 2 \/ v33 = 0) ->
  v00 + v01 + v02 + v03 + v10 + v11 + v12 + v13
  + v20 + v21 + v22 + v23 + v30 + v31 + v32 + v33 <= 9.
Proof.
  intros B00 B01 B02 B03 B10 B11 B12 B13
         B20 B21 B22 B23 B30 B31 B32 B33
         R0 R1 R2 R3 C0 C1 C2 C3
         X00 X01 X02 X03 X10 X11 X12 X13
         X20 X21 X22 X23 X30 X31 X32 X33.
  assert ((v00 + v01 + v02 + v03 <= 2
           /\ v10 + v11 + v12 + v13 <= 2
           /\ v20 + v21 + v22 + v23 <= 2
           /\ v30 + v31 + v32 + v33 <= 2)
          \/ 3 <= v00 + v01 + v02 + v03
          \/ 3 <= v10 + v11 + v12 + v13
          \/ 3 <= v20 + v21 + v22 + v23
          \/ 3 <= v30 + v31 + v32 + v33) as Hrow
    by (clear; lia).
  assert ((v00 + v10 + v20 + v30 <= 2
           /\ v01 + v11 + v21 + v31 <= 2
           /\ v02 + v12 + v22 + v32 <= 2
           /\ v03 + v13 + v23 + v33 <= 2)
          \/ 3 <= v00 + v10 + v20 + v30
          \/ 3 <= v01 + v11 + v21 + v31
          \/ 3 <= v02 + v12 + v22 + v32
          \/ 3 <= v03 + v13 + v23 + v33) as Hcol
    by (clear; lia).
  destruct Hrow as [Hall|Hrow]; [clear - Hall; lia|].
  destruct Hcol as [Hall|Hcol]; [clear - Hall; lia|].
  destruct Hrow as [Hr|[Hr|[Hr|Hr]]]; destruct Hcol as [Hc|[Hc|[Hc|Hc]]];
    [ clear X01 X11 X21 X31 X02 X12 X22 X32 X03 X13 X23 X33
    | clear X00 X10 X20 X30 X02 X12 X22 X32 X03 X13 X23 X33
    | clear X00 X10 X20 X30 X01 X11 X21 X31 X03 X13 X23 X33
    | clear X00 X10 X20 X30 X01 X11 X21 X31 X02 X12 X22 X32
    | clear X01 X11 X21 X31 X02 X12 X22 X32 X03 X13 X23 X33
    | clear X00 X10 X20 X30 X02 X12 X22 X32 X03 X13 X23 X33
    | clear X00 X10 X20 X30 X01 X11 X21 X31 X03 X13 X23 X33
    | clear X00 X10 X20 X30 X01 X11 X21 X31 X02 X12 X22 X32
    | clear X01 X11 X21 X31 X02 X12 X22 X32 X03 X13 X23 X33
    | clear X00 X10 X20 X30 X02 X12 X22 X32 X03 X13 X23 X33
    | clear X00 X10 X20 X30 X01 X11 X21 X31 X03 X13 X23 X33
    | clear X00 X10 X20 X30 X01 X11 X21 X31 X02 X12 X22 X32
    | clear X01 X11 X21 X31 X02 X12 X22 X32 X03 X13 X23 X33
    | clear X00 X10 X20 X30 X02 X12 X22 X32 X03 X13 X23 X33
    | clear X00 X10 X20 X30 X01 X11 X21 X31 X03 X13 X23 X33
    | clear X00 X10 X20 X30 X01 X11 X21 X31 X02 X12 X22 X32 ];
    lia.
Qed.

Lemma shownAs_bounds blanked i : 0 <= shownAs blanked i <= 1.
Proof. unfold shownAs. case_decide; lia. Qed.

Lemma count_shown (blanked : gset nat) (l : list nat) :
  Z.of_nat (length (filter (fun j => j ∉ blanked) l))
  = foldr (fun j acc => shownAs blanked j + acc) 0 l.
Proof.
  induction l as [|j l IH]; [done|].
  rewrite filter_cons. cbn [foldr]. rewrite <- IH. unfold shownAs.
  destruct (decide (j ∈ blanked)) as [Hj|Hj].
  - rewrite decide_False by tauto. lia.
  - rewrite decide_True by done. cbn [length]. lia.
Qed.

Lemma count_shown_where (P : nat -> Prop) `{!forall j, Decision (P j)}
    (blanked : gset nat) (l : list nat) :
  filter P (seq 0 16) = l ->
  Z.of_nat (length (filter (fun j => P j /\ j ∉ blanked) (seq 0 16)))
  = foldr (fun j acc => shownAs blanked j + acc) 0 l.
Proof.
  intros <-. rewrite <- count_shown. f_equal. f_equal.
  rewrite list_filter_filter. apply filter_agree. tauto.
Qed.

Lemma count_others (P1 P2 : nat -> Prop) `{!forall j, Decision (P1 j)}
    `{!forall j, Decision (P2 j)} (blanked : gset nat) (l : list nat) :
  filter (fun j => P1 j /\ P2 j) (seq 0 16) = l ->
  Z.of_nat (length (filter (fun j => P1 j /\ P2 j /\ j ∉ blanked) (seq 0 16)))
  = foldr (fun j acc => shownAs blanked j + acc) 0 l.
Proof.
  intros Hl. rewrite <- (count_shown_where _ blanked l Hl).
  f_equal. f_equal. apply filter_agree. tauto.
Qed.

Lemma size_blanked (blanked : gset nat) (l : list nat) :
  NoDup l -> (forall i, i ∈ blanked -> i ∈ l) ->
  Z.of_nat (size blanked)
  + foldr (fun j acc => shownAs blanked j + acc) 0 l
  = Z.of_nat (length l).
Proof.
  intros Hnodup Hdom. rewrite <- count_shown.
  assert (elements blanked ≡ₚ filter (fun j => j ∈ blanked) l) as Hperm.
  { apply NoDup_Permutation.
    - apply NoDup_elements.
    - by apply NoDup_filter.
    - intros i. rewrite elem_of_elements, list_elem_of_filter.
      split; [|tauto]. intros Hi. split; [done|by apply Hdom]. }
  change (size blanked) with (length (elements blanked)). rewrite Hperm.
  clear Hperm Hnodup Hdom. induction l as [|j l IH]; [done|].
  rewrite !filter_cons. cbn [length].
  destruct (decide (j ∈ blanked)) as [Hj|Hj].
  - rewrite decide_False by tauto. cbn [length]. lia.
  - rewrite decide_True by done. cbn [length]. lia.
Qed.

Lemma length_filter_impl {A} (P Q : A -> Prop) `{!forall x, Decision (P x)}
    `{!forall x, Decision (Q x)} (l : list A) :
  (forall x, P x -> Q x) ->
  (length (filter P l) <= length (filter Q l))%nat.
Proof.
  intros Himpl. induction l as [|x l IH]; [done|].
  rewrite !filter_cons.
  destruct (decide (P x)) as [Hp|Hp], (decide (Q x)) as [Hq|Hq];
    cbn [length]; try lia.
  destruct Hq. by apply Himpl.
Qed.

Lemma stuck_mono indices (blanked blanked' : gset nat) idx :
  blanked ⊆ blanked' -> stuck indices blanked idx ->
  stuck indices blanked' idx.
Proof.
  intros Hsub Hstuck [Hrow Hcol]. apply Hstuck. split.
  - etrans; [exact Hrow|]. apply length_filter_impl.
    intros i (? & ? & Hi). repeat split; [done..|].
    intros Hin. by apply Hi, Hsub.
  - etrans; [exact Hcol|]. apply length_filter_impl.
    intros i (? & ? & Hi). repeat split; [done..|].
    intros Hin. by apply Hi, Hsub.
Qed.

Lemma stuck_Permutation l1 l2 blanked idx :
  l1 ≡ₚ l2 -> stuck l1 blanked idx -> stuck l2 blanked idx.
Proof. intros Hp. unfold stuck. by rewrite Hp. Qed.

(** The loop stops at [count] blanks, or leaves no cell it could blank. *)
Lemma blankLoop_maximal indices count todo blanked :
  (forall i, i ∈ indices ->
             i ∈ todo \/ i ∈ blanked \/ stuck indices blanked i) ->
  count <= Z.of_nat (size (blankLoop indices count todo blanked))
  \/ forall i, i ∈ indices ->
       i ∈ blankLoop indices count todo blanked
       \/ stuck indices (blankLoop indices count todo blanked) i.
Proof.
  revert blanked. induction todo as [|idx rest IH]; intros blanked Hseen.
  - right. intros i Hi.
    destruct (Hseen i Hi) as [Hnil|?]; [|done]. by apply elem_of_nil in Hnil.
  - cbn [blankLoop]. case_decide as Hfull; [by left|].
    case_decide as Hok.
    + apply IH. intros i Hi.
      destruct (Hseen i Hi) as [[->|Hrest]%elem_of_cons|[Hin|Hstuck]].
      * right. left. apply elem_of_union_l. by apply elem_of_singleton.
      * by left.
      * right. left. by apply elem_of_union_r.
      * right. right. eapply stuck_mono; [|exact Hstuck].
        apply union_subseteq_r.
    + apply IH. intros i Hi.
      destruct (Hseen i Hi) as [[->|Hrest]%elem_of_cons|[Hin|Hstuck]];
        [|by left|by right; left|by right; right].
      right. right. exact Hok.
Qed.

Lemma shownAs_cell blanked i (n1 n2 : nat) (s1 s2 : Z) :
  Z.of_nat n1 = s1 -> Z.of_nat n2 = s2 ->
  i ∈ blanked \/ ~ (2 <= n1 /\ 2 <= n2)%nat ->
  shownAs blanked i + s1 <= 2 \/ shownAs blanked i + s2 <= 2
  \/ shownAs blanked i = 0.
Proof.
  intros <- <- [Hi|Hstuck].
  - right. right. unfold shownAs. by rewrite decide_True.
  - pose proof (shownAs_bounds blanked i). lia.
Qed.

Ltac cell_fact Hmax blanked i :=
  let lr := eval vm_compute in
    (filter (fun j => Math_floor_div j 4 = Math_floor_div i 4 /\ j <> i)
            (seq 0 16)) in
  let lc := eval vm_compute in
    (filter (fun j => (j mod 4)%nat = (i mod 4)%nat /\ j <> i) (seq 0 16)) in
  let H := fresh "H" in
  pose proof
    (shownAs_cell blanked i _ _ _ _
       (count_others (fun j => Math_floor_div j 4 = Math_floor_div i 4)
                     (fun j => j <> i) blanked lr eq_refl)
       (count_others (fun j => (j mod 4)%nat = (i mod 4)%nat)
                     (fun j => j <> i) blanked lc eq_refl)
       (Hmax i ltac:(lia))) as H;
  cbn [foldr] in H; clear - H; lia.

Ltac line_fact Hline P blanked :=
  let l := eval vm_compute in (filter P (seq 0 16)) in
  let H := fresh "H" in
  pose proof (count_shown_where P blanked l eq_refl) as H;
  cbn [foldr] in H; clear - H Hline; lia.

(** A set of blanks that leaves two cells shown in every row and column and
    no cell that could still be blanked has seven members or eight. *)
Lemma maximal_blanks (blanked : gset nat) count :
  blank_inv (seq 0 16) count blanked ->
  (forall i, (i < 16)%nat -> i ∈ blanked \/ stuck (seq 0 16) blanked i) ->
  7 <= Z.of_nat (size blanked).
Proof.
  intros [Hrows Hcols Hdom _] Hmax.
  set (v := shownAs blanked).
  pose proof (Hrows 0%nat ltac:(lia)) as Hr0.
  pose proof (Hrows 1%nat ltac:(lia)) as Hr1.
  pose proof (Hrows 2%nat ltac:(lia)) as Hr2.
  pose proof (Hrows 3%nat ltac:(lia)) as Hr3.
  pose proof (Hcols 0%nat ltac:(lia)) as Hc0.
  pose proof (Hcols 1%nat ltac:(lia)) as Hc1.
  pose proof (Hcols 2%nat ltac:(lia)) as Hc2.
  pose proof (Hcols 3%nat ltac:(lia)) as Hc3.
  unfold rowVisible in Hr0, Hr1, Hr2, Hr3.
  unfold colVisible in Hc0, Hc1, Hc2, Hc3.
  assert (v 0%nat + v 1%nat + v 2%nat + v 3%nat
          + v 4%nat + v 5%nat + v 6%nat + v 7%nat
          + v 8%nat + v 9%nat + v 10%nat + v 11%nat
          + v 12%nat + v 13%nat + v 14%nat + v 15%nat <= 9) as Hnine.
  { apply at_most_nine_shown; try apply shownAs_bounds; subst v.
    - line_fact Hr0 (fun j => Math_floor_div j 4 = 0%nat) blanked.
    - line_fact Hr1 (fun j => Math_floor_div j 4 = 1%nat) blanked.
    - line_fact Hr2 (fun j => Math_floor_div j 4 = 2%nat) blanked.
    - line_fact Hr3 (fun j => Math_floor_div j 4 = 3%nat) blanked.
    - line_fact Hc0 (fun j => (j mod 4)%nat = 0%nat) blanked.
    - line_fact Hc1 (fun j => (j mod 4)%nat = 1%nat) blanked.
    - line_fact Hc2 (fun j => (j mod 4)%nat = 2%nat) blanked.
    - line_fact Hc3 (fun j => (j mod 4)%nat = 3%nat) blanked.
    - cell_fact Hmax blanked 0%nat.
    - cell_fact Hmax blanked 1%nat.
    - cell_fact Hmax blanked 2%nat.
    - cell_fact Hmax blanked 3%nat.
    - cell_fact Hmax blanked 4%nat.
    - cell_fact Hmax blanked 5%nat.
    - cell_fact Hmax blanked 6%nat.
    - cell_fact Hmax blanked 7%nat.
    - cell_fact Hmax blanked 8%nat.
    - cell_fact Hmax blanked 9%nat.
    - cell_fact Hmax blanked 10%nat.
    - cell_fact Hmax blanked 11%nat.
    - cell_fact Hmax blanked 12%nat.
    - cell_fact Hmax blanked 13%nat.
    - cell_fact Hmax blanked 14%nat.
    - cell_fact Hmax blanked 15%nat. }
  pose proof (size_blanked blanked (seq 0 16) (NoDup_seq 0 16) Hdom) as Hsize.
  cbn [foldr seq length] in Hsize. fold v in Hsize. clear - Hnine Hsize. lia.
Qed.

Lemma at_most_eight (blanked : gset nat) count :
  blank_inv (seq 0 16) count blanked -> Z.of_nat (size blanked) <= 8.
Proof.
  intros [Hrows _ Hdom _].
  pose proof (Hrows 0%nat ltac:(lia)) as Hr0.
  pose proof (Hrows 1%nat ltac:(lia)) as Hr1.
  pose proof (Hrows 2%nat ltac:(lia)) as Hr2.
  pose proof (Hrows 3%nat ltac:(lia)) as Hr3.
  unfold rowVisible in Hr0, Hr1, Hr2, Hr3.
  pose proof (size_blanked blanked (seq 0 16) (NoDup_seq 0 16) Hdom) as Hsize.
  cbn [foldr seq length] in Hsize.
  assert (2 <= shownAs blanked 0 + shownAs blanked 1 + shownAs blanked 2
               + shownAs blanked 3)
    by line_fact Hr0 (fun j => Math_floor_div j 4 = 0%nat) blanked.
  assert (2 <= shownAs blanked 4 + shownAs blanked 5 + shownAs blanked 6
               + shownAs blanked 7)
    by line_fact Hr1 (fun j => Math_floor_div j 4 = 1%nat) blanked.
  assert (2 <= shownAs blanked 8 + shownAs blanked 9 + shownAs blanked 10
               + shownAs blanked 11)
    by line_fact Hr2 (fun j => Math_floor_div j 4 = 2%nat) blanked.
  assert (2 <= shownAs blanked 12 + shownAs blanked 13 + shownAs blanked 14
               + shownAs blanked 15)
    by line_fact Hr3 (fun j => Math_floor_div j 4 = 3%nat) blanked.
  lia.
Qed.

(** The blanks the loop ends with, for the seeded order of a date. *)
Lemma size_blankLoop date count :
  0 <= count ->
  let blanked := blankLoop (shuffledIndices date) count
                           (shuffledIndices date) ∅ in
  Z.min count 7 <= Z.of_nat (size blanked) <= Z.min count 8.
Proof.
  intros Hcount blanked.
  pose proof (shuffled_blank_inv date count) as Hinv. fold blanked in Hinv.
  pose proof (blankLoop_maximal (shuffledIndices date) count
                (shuffledIndices date) ∅) as Hmax.
  fold blanked in Hmax.
  pose proof (shuffledIndices_Permutation date) as Hperm.
  pose proof (elem_of_shuffledIndices date) as Hmem.
  revert Hinv Hmax Hperm Hmem. generalize blanked.
  generalize (shuffledIndices date). clear blanked.
  intros indices blanked Hinv Hmax Hperm Hmem.
  assert (blank_inv (seq 0 16) count blanked) as Hseq.
  { destruct Hinv as [Hrows Hcols Hdom Hsize]. split; [| | |done].
    - intros r Hr. rewrite <- (rowVisible_Permutation _ _ _ _ Hperm). auto.
    - intros c Hc. rewrite <- (colVisible_Permutation _ _ _ _ Hperm). auto.
    - intros i Hi. apply Hdom, Hmem in Hi. apply elem_of_seq. lia. }
  pose proof (at_most_eight blanked count Hseq) as Height.
  pose proof (inv_size _ _ _ Hinv Hcount) as Hsize.
  split; [|lia].
  destruct Hmax as [Hfull|Hmax]; [by left|lia|].
  pose proof (maximal_blanks blanked count Hseq) as Hseven.
  apply Z.min_le_iff. right. apply Hseven. intros i Hi.
  destruct (Hmax i) as [?|Hstuck]; [by apply Hmem|by left|].
  right. by eapply stuck_Permutation.
Qed.

Lemma countNull_insert_new (p : list cell) i c :
  p !! i = Some c -> c <> Null ->
  countNull (<[i := Null]> p) = S (countNull p).
Proof.
  unfold countNull. revert i.
  induction p as [|x p IH]; intros [|i] Hlook Hc; simpl in Hlook; try done.
  - injection Hlook as ->.
    change (<[0%nat := Null]> (c :: p)) with (Null :: p).
    rewrite !filter_cons, decide_True by done.
    by rewrite decide_False by done.
  - change (<[S i := Null]> (x :: p)) with (x :: <[i := Null]> p).
    rewrite !filter_cons. specialize (IH i Hlook Hc).
    case_decide; cbn [length]; by rewrite IH.
Qed.

Lemma countNull_blanks_exact (l : list nat) (p : list cell) :
  NoDup l ->
  (forall i, i ∈ l -> exists c, p !! i = Some c /\ c <> Null) ->
  countNull (foldr (fun idx p => array_set idx Null p) p l)
  = (countNull p + length l)%nat.
Proof.
  intros Hnodup. induction Hnodup as [|i l Hnotin Hnodup IH]; intros Hl;
    cbn [foldr length]; [lia|].
  assert (forall k, k ∈ l -> (k < length p)%nat) as Hin.
  { intros k Hk. destruct (Hl k) as (c & Hc & _); [by right|].
    by eapply lookup_lt_Some. }
  destruct (Hl i) as (c & Hc & Hnull); [left|].
  rewrite array_set_inside
    by (rewrite length_blanks by done; by eapply lookup_lt_Some).
  rewrite (countNull_insert_new _ i c); [|by rewrite lookup_blanks,
                                           decide_False by done|done].
  rewrite IH; [lia|]. intros k Hk. apply Hl. by right.
Qed.

Lemma countNull_blankCells flatGrid count date :
  (16 <= length flatGrid)%nat ->
  countNull (blankCells flatGrid count date)
  = size (blankLoop (shuffledIndices date) count (shuffledIndices date) ∅).
Proof.
  intros Hlen. unfold blankCells.
  pose proof (shuffled_blank_inv date count) as Hinv.
  pose proof (elem_of_shuffledIndices date) as Hmem.
  revert Hinv.
  generalize (blankLoop (shuffledIndices date) count
                        (shuffledIndices date) ∅).
  intros blanked Hinv.
  rewrite countNull_blanks_exact.
  - by rewrite countNull_numbers.
  - apply NoDup_elements.
  - intros i Hi%elem_of_elements.
    apply (inv_dom _ _ _ Hinv), Hmem in Hi.
    destruct (lookup_lt_is_Some_2 flatGrid i) as [x Hx]; [lia|].
    exists (Num x). by rewrite list_lookup_fmap, Hx.
Qed.

End Exactly.

(** X9. [blankCells] blanks exactly [count] cells of a grid of sixteen cells or
    more for every count from 0 to 7; asked for more, it blanks seven or
    eight. *)
Theorem blankCells_blanks_exactly (flatGrid : list Z) (count : Z)
    (date : string) :
  (16 <= length flatGrid)%nat ->
  0 <= count ->
  Z.min count 7 <= Z.of_nat (countNull (blankCells flatGrid count date))
  <= Z.min count 8.
Proof.
  intros Hlen Hcount. rewrite countNull_blankCells by done.
  by apply size_blankLoop.
Qed.

Lemma blankCells_blanks_exactly_witness :
  Z.of_nat (countNull (blankCells (grid4 (fun r c => 1 + r * 2 + c * 3)) 7
                                  "2024-01-01")) = 7.
Proof.
  pose proof (blankCells_blanks_exactly
                (grid4 (fun r c => 1 + r * 2 + c * 3)) 7 "2024-01-01"
                ltac:(vm_compute; lia) ltac:(lia)) as H.
  revert H.
  generalize (countNull (blankCells (grid4 (fun r c => 1 + r * 2 + c * 3))
                                    7 "2024-01-01")).
  intros n H. lia.
Defined.

(** ** The shape of the puzzles *)

Section Shapes.

Lemma pick_of_two (date salt : string) :
  (Z.to_nat (rem (sr (date +:+ salt)) 2) < 2)%nat.
Proof.
  unfold rem. pose proof (sr_bounds (date +:+ salt)) as [Hsr _].
  pose proof (Z.rem_bound_pos (sr (date +:+ salt)) 2 Hsr ltac:(lia)). lia.
Qed.

(** X10. The pattern of a sequence puzzle is one of the two families of its
    tier. *)
Theorem pickSequencePattern_of_tier (date : string) :
  pickSequencePattern date "easy" ∈ ["arithmetic"; "geometric"]
  /\ pickSequencePattern date "medium" ∈ ["squares"; "fibonacci"]
  /\ pickSequencePattern date "hard" ∈ ["alternating"; "polynomial"].
Proof.
  unfold pickSequencePattern.
  rewrite lookup_easy, lookup_medium, lookup_hard.
  pose proof (pick_of_two date "seqpattern") as Hpick. revert Hpick.
  generalize (Z.to_nat (rem (sr (date +:+ "seqpattern")) 2)).
  intros [|[|pick]] Hpick; [| |lia]; cbn; repeat split; repeat constructor.
Qed.

(** X11. The pattern of a matrix puzzle is one of those of its tier. *)
Theorem pickMatrixPattern_of_tier (date : string) :
  pickMatrixPattern date "easy" = "arithmetic"
  /\ pickMatrixPattern date "medium" ∈ ["arithmetic"; "multiplication"]
  /\ pickMatrixPattern date "hard" ∈ ["multiplication"; "polynomial"].
Proof.
  unfold pickMatrixPattern.
  rewrite lookup_easy, lookup_medium, lookup_hard.
  cbn [default from_option id length].
  change (Z.of_nat 1) with 1. change (Z.of_nat 2) with 2.
  pose proof (pick_of_two date "matpattern") as Hpick.
  split; [|split].
  - destruct (Z.to_nat (rem (sr (date +:+ "matpattern")) 1)) as [|[|?]];
      reflexivity.
  - revert Hpick. generalize (Z.to_nat (rem (sr (date +:+ "matpattern")) 2)).
    intros [|[|pick]] Hpick; [| |lia]; cbn; repeat constructor.
  - revert Hpick. generalize (Z.to_nat (rem (sr (date +:+ "matpattern")) 2)).
    intros [|[|pick]] Hpick; [| |lia]; cbn; repeat constructor.
Qed.

(** X12. A matrix puzzle has a solution of sixteen cells and a grid of
    sixteen cells, each of them null or the cell of the solution, and the
    number of nulls is the blank count of the difficulty: 3 for easy, 5 for
    medium, 7 for hard and 3 for anything else. *)
Theorem generateMatrixPuzzle_shape (date difficulty : string) :
  plainKey difficulty ->
  let puzzle := generateMatrixPuzzle date difficulty in
  length (solution puzzle) = 16%nat
  /\ Forall2 (fun c v => c = Null \/ c = Num v) (grid puzzle) (solution puzzle)
  /\ Z.of_nat (countNull (grid puzzle)) = default 3 (blankCounts !! difficulty).
Proof.
  intros _. unfold generateMatrixPuzzle. cbn [grid solution].
  pose proof (length_builtGrid date (pickMatrixPattern date difficulty))
    as Hlen.
  revert Hlen.
  generalize (b_grid (if decide (pickMatrixPattern date difficulty
                                 = "multiplication")
                      then buildMultiplicationGrid date
                      else if decide (pickMatrixPattern date difficulty
                                      = "polynomial")
                           then buildPolynomialGrid date
                           else buildArithmeticGrid date)).
  intros flatGrid Hlen. split; [done|]. split.
  - apply Forall2_same_length_lookup. split.
    + rewrite blankCells_length; [done|lia].
    + intros i c v Hc Hv. rewrite blankCells_lookup in Hc by lia.
      destruct (decide (i ∈ _)); [left; congruence|].
      rewrite Hv in Hc. right. simpl in Hc. congruence.
  - rewrite countNull_blankCells by lia.
    assert (0 <= default 3 (blankCounts !! difficulty) <= 7) as Hcount.
    { unfold blankCounts. rewrite lookup_tiers.
      repeat case_decide; cbn [default from_option id]; lia. }
    pose proof (size_blankLoop date (default 3 (blankCounts !! difficulty))
                  (proj1 Hcount)) as Hsize.
    cbv zeta in Hsize. lia.
Qed.

Lemma generateMatrixPuzzle_shape_witness :
  Z.of_nat (countNull (grid (generateMatrixPuzzle "2024-01-01" "medium"))) = 5.
Proof.
  destruct (generateMatrixPuzzle_shape "2024-01-01" "medium")
    as (_ & _ & Hcount).
  - apply (bool_decide_unpack _). vm_compute. exact I.
  - exact Hcount.
Defined.

End Shapes.

(** ** The blanks are determined by the cells that are shown *)

Section Determined.

Lemma grid4_lookup (cellAt : Z -> Z -> Z) (i : nat) :
  (i < 16)%nat ->
  grid4 cellAt !! i = Some (cellAt (Z.of_nat (i / 4)) (Z.of_nat (i mod 4))).
Proof.
  intros Hi. do 16 (destruct i as [|i]; [reflexivity|]). lia.
Qed.

(** Two members of a list without duplicates pass a filter that keeps two. *)
Lemma two_of_filter {B} (P : B -> Prop) `{!forall x, Decision (P x)}
    (l : list B) :
  NoDup l -> (2 <= length (filter P l))%nat ->
  exists x y, x <> y /\ x ∈ l /\ y ∈ l /\ P x /\ P y.
Proof.
  intros Hnodup Hlen.
  assert (NoDup (filter P l)) as Hnd by (by apply NoDup_filter).
  destruct (filter P l) as [|x [|y rest]] eqn:Hf; simpl in Hlen; try lia.
  assert (x ∈ filter P l) as [Hx Hxl]%list_elem_of_filter
    by (rewrite Hf; left).
  assert (y ∈ filter P l) as [Hy Hyl]%list_elem_of_filter
    by (rewrite Hf; right; left).
  exists x, y. repeat split; try done.
  apply NoDup_cons in Hnd as [Hnotin _]. intros ->. apply Hnotin. left.
Qed.

(** Under the invariant every row, and every column, has two cells that are
    not blanked. *)
Lemma row_has_two count (blanked : gset nat) (r : nat) :
  blank_inv (seq 0 16) count blanked -> (r < 4)%nat ->
  exists c1 c2 : nat,
    c1 <> c2 /\ (c1 < 4)%nat /\ (c2 < 4)%nat
    /\ ((4 * r + c1)%nat ∉ blanked) /\ ((4 * r + c2)%nat ∉ blanked).
Proof.
  intros Hinv Hr.
  destruct (two_of_filter _ (seq 0 16) (NoDup_seq 0 16)
              (inv_rows _ _ _ Hinv r Hr))
    as (i & j & Hne & Hi%elem_of_seq & Hj%elem_of_seq & [Hir Hib] & [Hjr Hjb]).
  unfold Math_floor_div in *.
  pose proof (Nat.div_mod_eq i 4). pose proof (Nat.div_mod_eq j 4).
  pose proof (Nat.mod_upper_bound i 4). pose proof (Nat.mod_upper_bound j 4).
  exists (i mod 4)%nat, (j mod 4)%nat.
  replace (4 * r + i mod 4)%nat with i by lia.
  replace (4 * r + j mod 4)%nat with j by lia.
  repeat split; try done; lia.
Qed.

Lemma col_has_two count (blanked : gset nat) (c : nat) :
  blank_inv (seq 0 16) count blanked -> (c < 4)%nat ->
  exists r1 r2 : nat,
    r1 <> r2 /\ (r1 < 4)%nat /\ (r2 < 4)%nat
    /\ ((4 * r1 + c)%nat ∉ blanked) /\ ((4 * r2 + c)%nat ∉ blanked).
Proof.
  intros Hinv Hc.
  destruct (two_of_filter _ (seq 0 16) (NoDup_seq 0 16)
              (inv_cols _ _ _ Hinv c Hc))
    as (i & j & Hne & Hi%elem_of_seq & Hj%elem_of_seq & [Hic Hib] & [Hjc Hjb]).
  pose proof (Nat.div_mod_eq i 4). pose proof (Nat.div_mod_eq j 4).
  assert (i / 4 < 4)%nat by (apply Nat.Div0.div_lt_upper_bound; lia).
  assert (j / 4 < 4)%nat by (apply Nat.Div0.div_lt_upper_bound; lia).
  exists (i / 4)%nat, (j / 4)%nat.
  replace (4 * (i / 4) + c)%nat with i by lia.
  replace (4 * (j / 4) + c)%nat with j by lia.
  repeat split; try done; lia.
Qed.

(** A grid that agrees with the puzzle on its shown cells agrees with the
    solution on two cells of every row and of every column. *)
Lemma agrees_on_pairs (f g : Z -> Z -> Z) (count : Z) (date : string) :
  (forall i v, blankCells (grid4 f) count date !! i = Some (Num v) ->
               grid4 g !! i = Some v) ->
  (forall r : nat, (r < 4)%nat ->
     exists c1 c2 : nat,
       c1 <> c2 /\ (c1 < 4)%nat /\ (c2 < 4)%nat
       /\ g (Z.of_nat r) (Z.of_nat c1) = f (Z.of_nat r) (Z.of_nat c1)
       /\ g (Z.of_nat r) (Z.of_nat c2) = f (Z.of_nat r) (Z.of_nat c2))
  /\ (forall c : nat, (c < 4)%nat ->
        exists r1 r2 : nat,
          r1 <> r2 /\ (r1 < 4)%nat /\ (r2 < 4)%nat
          /\ g (Z.of_nat r1) (Z.of_nat c) = f (Z.of_nat r1) (Z.of_nat c)
          /\ g (Z.of_nat r2) (Z.of_nat c) = f (Z.of_nat r2) (Z.of_nat c)).
Proof.
  intros Hagree.
  pose proof (blank_inv_seq _ _ _ (shuffled_blank_inv date count)) as Hinv.
  pose proof (blankCells_lookup (grid4 f) count date) as Hlook.
  revert Hagree Hinv Hlook.
  generalize (blankLoop (shuffledIndices date) count (shuffledIndices date) ∅).
  generalize (blankCells (grid4 f) count date).
  intros puzzle blanked Hagree Hinv Hlook.
  assert (forall r c : nat, (r < 4)%nat -> (c < 4)%nat ->
            (4 * r + c)%nat ∉ blanked ->
            g (Z.of_nat r) (Z.of_nat c) = f (Z.of_nat r) (Z.of_nat c))
    as Hcell.
  { intros r c Hr Hc Hvis.
    assert ((4 * r + c) / 4 = r)%nat as Hd
      by (symmetry; apply (Nat.div_unique _ _ _ c); lia).
    assert ((4 * r + c) mod 4 = c)%nat as Hm
      by (symmetry; apply (Nat.mod_unique _ _ r); lia).
    pose proof (Hlook (4 * r + c)%nat ltac:(rewrite length_grid4; lia)) as Hl.
    rewrite decide_False in Hl by done.
    rewrite grid4_lookup, Hd, Hm in Hl by lia.
    apply Hagree in Hl. rewrite grid4_lookup, Hd, Hm in Hl by lia.
    congruence. }
  split.
  - intros r Hr.
    destruct (row_has_two count blanked r Hinv Hr)
      as (c1 & c2 & Hne & H1 & H2 & Hv1 & Hv2).
    exists c1, c2. repeat split; auto.
  - intros c Hc.
    destruct (col_has_two count blanked c Hinv Hc)
      as (r1 & r2 & Hne & H1 & H2 & Hv1 & Hv2).
    exists r1, r2. repeat split; auto.
Qed.

End Determined.

(** X13. An arithmetic grid that agrees with the puzzle on every cell it
    shows is the solution: the blanks of an arithmetic puzzle have one
    filling. *)
Theorem arithmetic_grid_determined (date : string) (count : Z)
    (base rowStep colStep base' rowStep' colStep' : Z) :
  let cellOf b rs cs := fun r c : Z => b + r * rs + c * cs in
  (forall i v,
      blankCells (grid4 (cellOf base rowStep colStep)) count date !! i
      = Some (Num v) ->
      grid4 (cellOf base' rowStep' colStep') !! i = Some v) ->
  grid4 (cellOf base' rowStep' colStep') = grid4 (cellOf base rowStep colStep).
Proof.
  intros cellOf Hagree.
  destruct (agrees_on_pairs _ _ _ _ Hagree) as [Hrows Hcols].
  destruct (Hrows 0%nat ltac:(lia)) as (c1 & c2 & Hc & ? & ? & E1 & E2).
  destruct (Hcols 0%nat ltac:(lia)) as (r1 & r2 & Hr & ? & ? & E3 & E4).
  unfold cellOf in E1, E2, E3, E4. simpl in E1, E2, E3, E4.
  assert (colStep' = colStep) as -> by nia.
  assert (base' = base) as -> by nia.
  assert (rowStep' = rowStep) as -> by nia.
  reflexivity.
Qed.

Lemma arithmetic_grid_determined_witness :
  let cellOf b rs cs := fun r c : Z => b + r * rs + c * cs in
  grid4 (cellOf 2 3 1) = grid4 (cellOf 2 3 1).
Proof.
  apply (arithmetic_grid_determined "2024-01-01" 7 2 3 1 2 3 1).
  intros i v Hi.
  match type of Hi with
  | ?puzzle !! _ = _ =>
      assert (puzzle
              = [Null; Null; Num 4; Num 5; Num 5; Null; Null; Num 8;
                   Null; Num 9; Num 10; Null; Num 11; Num 12; Num 13; Null])
        as Hpuzzle by (vm_compute; reflexivity)
  end.
  rewrite Hpuzzle in Hi. clear Hpuzzle.
  do 16 (destruct i as [|i]; [simpl in Hi; vm_compute; congruence|]).
  simpl in Hi. discriminate Hi.
Defined.

(** X14. A multiplication table that agrees with the puzzle on every cell it
    shows is the solution. *)
Theorem multiplication_grid_determined (date : string) (count : Z)
    (rBase cBase rBase' cBase' : Z) :
  let cellOf rb cb := fun r c : Z => (r + rb) * (c + cb) in
  (forall i v,
      blankCells (grid4 (cellOf rBase cBase)) count date !! i = Some (Num v) ->
      grid4 (cellOf rBase' cBase') !! i = Some v) ->
  grid4 (cellOf rBase' cBase') = grid4 (cellOf rBase cBase).
Proof.
  intros cellOf Hagree.
  destruct (agrees_on_pairs _ _ _ _ Hagree) as [Hrows Hcols].
  destruct (Hrows 0%nat ltac:(lia)) as (c1 & c2 & Hc & ? & ? & E1 & E2).
  destruct (Hcols 0%nat ltac:(lia)) as (r1 & r2 & Hr & ? & ? & E3 & E4).
  unfold cellOf in E1, E2, E3, E4. simpl in E1, E2, E3, E4.
  assert (rBase' = rBase) as -> by nia.
  assert (cBase' = cBase) as -> by nia.
  reflexivity.
Qed.

Lemma multiplication_grid_determined_witness :
  let cellOf rb cb := fun r c : Z => (r + rb) * (c + cb) in
  grid4 (cellOf 4 3) = grid4 (cellOf 4 3).
Proof.
  apply (multiplication_grid_determined "2024-01-01" 7 4 3 4 3).
  intros i v Hi.
  match type of Hi with
  | ?puzzle !! _ = _ =>
      assert (puzzle
              = [Null; Null; Num 20; Num 24; Num 15; Null; Null; Num 30;
                   Null; Num 24; Num 30; Null; Num 21; Num 28; Num 35; Null])
        as Hpuzzle by (vm_compute; reflexivity)
  end.
  rewrite Hpuzzle in Hi. clear Hpuzzle.
  do 16 (destruct i as [|i]; [simpl in Hi; vm_compute; congruence|]).
  simpl in Hi. discriminate Hi.
Defined.

(** X15. A polynomial grid that agrees with the puzzle on every cell it shows is
    the solution. *)
Theorem polynomial_grid_determined (date : string) (count : Z)
    (base rowStep colStep mixStep base' rowStep' colStep' mixStep' : Z) :
  let cellOf b rs cs ms := fun r c : Z => b + r * rs + c * cs + r * c * ms in
  (forall i v,
      blankCells (grid4 (cellOf base rowStep colStep mixStep)) count date !! i
      = Some (Num v) ->
      grid4 (cellOf base' rowStep' colStep' mixStep') !! i = Some v) ->
  grid4 (cellOf base' rowStep' colStep' mixStep')
  = grid4 (cellOf base rowStep colStep mixStep).
Proof.
  intros cellOf Hagree.
  destruct (agrees_on_pairs _ _ _ _ Hagree) as [Hrows Hcols].
  destruct (Hrows 0%nat ltac:(lia)) as (c1 & c2 & Hc & ? & ? & E1 & E2).
  destruct (Hcols 0%nat ltac:(lia)) as (r1 & r2 & Hr & ? & ? & E3 & E4).
  destruct (Hrows 1%nat ltac:(lia)) as (d1 & d2 & Hd & ? & ? & E5 & E6).
  unfold cellOf in E1, E2, E3, E4, E5, E6.
  simpl in E1, E2, E3, E4, E5, E6.
  assert (colStep' = colStep) as -> by nia.
  assert (base' = base) as -> by nia.
  assert (rowStep' = rowStep) as -> by nia.
  assert (mixStep' = mixStep) as -> by nia.
  reflexivity.
Qed.

Lemma polynomial_grid_determined_witness :
  let cellOf b rs cs ms := fun r c : Z => b + r * rs + c * cs + r * c * ms in
  grid4 (cellOf 1 2 3 1) = grid4 (cellOf 1 2 3 1).
Proof.
  apply (polynomial_grid_determined "2024-01-01" 7 1 2 3 1 1 2 3 1).
  intros i v Hi.
  match type of Hi with
  | ?puzzle !! _ = _ =>
      assert (puzzle
              = [Null; Null; Num 7; Num 10; Num 3; Null; Null; Num 15;
                   Null; Num 10; Num 15; Null; Num 7; Num 13; Num 19; Null])
        as Hpuzzle by (vm_compute; reflexivity)
  end.
  rewrite Hpuzzle in Hi. clear Hpuzzle.
  do 16 (destruct i as [|i]; [simpl in Hi; vm_compute; congruence|]).
  simpl in Hi. discriminate Hi.
Defined.

(** ** The difficulty decision *)

Section Decision.

(** The counts [getDominantDifficulty] accumulates: one entry a tier, in the
    order of the object literal. *)
Lemma counts_fold (solved : list Activity) (e m h : Z) :
  fold_left (fun counts a => increment (default "easy" (difficulty a)) counts)
            solved [("easy", e); ("medium", m); ("hard", h)]
  = [("easy", e + tierCount "easy" solved);
     ("medium", m + tierCount "medium" solved);
     ("hard", h + tierCount "hard" solved)].
Proof.
  revert e m h. induction solved as [|a solved IH]; intros e m h.
  - unfold tierCount. simpl. by rewrite !Z.add_0_r.
  - cbn [fold_left]. unfold increment at 2. cbn [map fst snd].
    unfold tierCount. rewrite !filter_cons.
    destruct (decide ("easy" = default "easy" (difficulty a))) as [He|He];
      destruct (decide ("medium" = default "easy" (difficulty a))) as [Hm|Hm];
      destruct (decide ("hard" = default "easy" (difficulty a))) as [Hh|Hh];
      try congruence;
      rewrite IH; unfold tierCount;
      repeat (rewrite decide_True by done);
      repeat (rewrite decide_False by done);
      cbn [length];
      repeat (apply (f_equal2 cons);
              [apply (f_equal2 pair); [reflexivity|lia]|]);
      reflexivity.
Qed.

Lemma getDominantDifficulty_closed (solved : list Activity) :
  getDominantDifficulty solved
  = if decide (tierCount "medium" solved <= tierCount "easy" solved
               /\ tierCount "hard" solved <= tierCount "easy" solved)
    then "easy"
    else if decide (tierCount "hard" solved <= tierCount "medium" solved)
         then "medium"
         else "hard".
Proof.
  unfold getDominantDifficulty. case_decide as Hempty.
  - destruct solved; [reflexivity|done].
  - rewrite counts_fold. cbn [sort sort_insert fst snd].
    repeat case_decide; cbn [sort_insert fst snd]; repeat case_decide;
      try reflexivity; lia.
Qed.

Lemma getDominantDifficulty_tier (solved : list Activity) :
  getDominantDifficulty solved ∈ ["easy"; "medium"; "hard"].
Proof.
  rewrite getDominantDifficulty_closed.
  repeat case_decide; repeat constructor.
Qed.

End Decision.

(** X16. [getDominantDifficulty] returns the tier most frequent among the solved
    rows, a row without difficulty counting as easy; on a tie the earlier of
    easy, medium, hard wins, and easy is returned when nothing is solved. *)
Theorem getDominantDifficulty_most_frequent (solved : list Activity) :
  plainDifficulties solved ->
  getDominantDifficulty solved
  = if decide (tierCount "medium" solved <= tierCount "easy" solved
               /\ tierCount "hard" solved <= tierCount "easy" solved)
    then "easy"
    else if decide (tierCount "hard" solved <= tierCount "medium" solved)
         then "medium"
         else "hard".
Proof. intros _. apply getDominantDifficulty_closed. Qed.

Lemma getDominantDifficulty_most_frequent_witness :
  getDominantDifficulty [ row 1 50 30 "hard" true 1;
                          row 2 50 30 "medium" true 1;
                          row 3 50 30 "hard" true 1 ] = "hard".
Proof.
  rewrite getDominantDifficulty_most_frequent.
  - vm_compute. reflexivity.
  - apply (bool_decide_unpack _). vm_compute. exact I.
Defined.

Section DecisionTable.

(** The fields of the decision for a window that is not empty. *)
Lemma getAdaptiveDifficulty_fields Math_sqrt w :
  recentWindow w <> [] ->
  exists decision,
    getAdaptiveDifficulty Math_sqrt w = (Returned decision, w)
    /\ performanceScore decision
       = solveRateScore (recentWindow w) + speedScore (recentWindow w)
         + cleanSolveScore (recentWindow w)
    /\ trend decision
       = computeTrend Math_sqrt (filter isSolved (recentWindow w))
    /\ d_difficulty decision
       = transition (getDominantDifficulty (filter isSolved (recentWindow w)))
                    (performanceScore decision) (trend decision)
    /\ puzzleType decision
       = decidePuzzleType (length (recentWindow w))
                          (filter isSolved (recentWindow w))
                          (performanceScore decision) (d_difficulty decision).
Proof.
  intros Hne.
  unfold getAdaptiveDifficulty, mbind, IO_bind.
  rewrite getAllActivities_run.
  change (slice 0 LOOKBACK_DAYS (history w)) with (recentWindow w).
  rewrite decide_False by (by destruct (recentWindow w)).
  fold (solveRateScore (recentWindow w)).
  fold (speedScore (recentWindow w)).
  fold (cleanSolveScore (recentWindow w)).
  generalize (solveRateScore (recentWindow w) + speedScore (recentWindow w)
              + cleanSolveScore (recentWindow w)).
  generalize (computeTrend Math_sqrt (filter isSolved (recentWindow w))).
  generalize (getDominantDifficulty (filter isSolved (recentWindow w))).
  intros cur tr score. unfold transition, THRESHOLD_INCREASE,
    THRESHOLD_DECREASE.
  repeat match goal with
         | |- context [let '(_, _) := (if ?c then _ else _) in _] =>
             destruct c
         end;
    (eexists; split; [reflexivity|]);
    cbn [performanceScore trend d_difficulty puzzleType];
    (split; [reflexivity|]); (split; [reflexivity|]);
    (split; [|reflexivity]);
    repeat case_decide; try reflexivity; try lia; try tauto;
    exfalso; intuition (congruence || lia).
Qed.

End DecisionTable.

(** X17. For a window that is not empty the new tier is on the ladder and at
    most one step from the dominant tier: up for a score of 75 or more, down
    for a score below 35. *)
Theorem getAdaptiveDifficulty_one_step Math_sqrt w :
  recentWindow w <> [] ->
  plainDifficulties (recentWindow w) ->
  exists decision r r',
    getAdaptiveDifficulty Math_sqrt w = (Returned decision, w)
    /\ tierRank (getDominantDifficulty (filter isSolved (recentWindow w)))
       = Some r
    /\ d_difficulty decision ≫= tierRank = Some r'
    /\ r - 1 <= r' <= r + 1
    /\ (75 <= performanceScore decision -> r' = Z.min (r + 1) 2)
    /\ (performanceScore decision < 35 -> r' = Z.max (r - 1) 0).
Proof.
  intros Hne _.
  destruct (getAdaptiveDifficulty_fields Math_sqrt w Hne)
    as (decision & Hrun & _ & _ & Hdiff & _).
  exists decision. rewrite Hdiff.
  pose proof (getDominantDifficulty_tier (filter isSolved (recentWindow w)))
    as Htier.
  revert Htier.
  generalize (getDominantDifficulty (filter isSolved (recentWindow w))).
  generalize (performanceScore decision) (trend decision).
  intros score tr cur Htier.
  repeat (apply elem_of_cons in Htier as [->|Htier]);
    [| | |by apply elem_of_nil in Htier];
    unfold transition; repeat case_decide;
    (eexists _, _; split; [exact Hrun|]; split; [reflexivity|];
     split; [reflexivity|]; lia).
Qed.

Section Windows.

Lemma Math_round_Qeq x y : (x == y)%Q -> Math_round x = Math_round y.
Proof.
  intros Hxy. unfold Math_round. apply Qfloor_comp. by rewrite Hxy.
Qed.

(** A full share [n / n] of [k] points is [k]. *)
Lemma Math_round_full (n : nat) (k : Z) :
  (0 < n)%nat ->
  Math_round (inject_Z (Z.of_nat n) / inject_Z (Z.of_nat n) * inject_Z k)%Q
  = k.
Proof.
  intros Hn. rewrite <- (Math_round_inject k) at 2.
  apply Math_round_Qeq. field.
  intros H0. unfold Qeq in H0. simpl in H0. lia.
Qed.

Lemma filter_all {A} (P : A -> Prop) `{!forall x, Decision (P x)} l :
  Forall P l -> filter P l = l.
Proof.
  induction 1 as [|a l Ha _ IH]; [done|]. by rewrite filter_cons_True, IH.
Qed.

Lemma filter_none {A} (P : A -> Prop) `{!forall x, Decision (P x)} l :
  Forall (fun x => ~ P x) l -> filter P l = [].
Proof.
  induction 1 as [|a l Ha _ IH]; [done|]. by rewrite filter_cons_False.
Qed.

Lemma sum_times_le (solved : list Activity) (bound acc : Z) :
  Forall (fun a => default 60 (timeTaken a) <= bound) solved ->
  fold_left (fun sum a => sum + default 60 (timeTaken a)) solved acc
  <= acc + bound * Z.of_nat (length solved).
Proof.
  intros Hall. revert acc.
  induction Hall as [|a l Ha _ IH]; intros acc; [simpl; lia|].
  cbn [fold_left length]. specialize (IH (acc + default 60 (timeTaken a))).
  lia.
Qed.

End Windows.



Lemma getAdaptiveDifficulty_one_step_witness :
  exists decision r r',
    getAdaptiveDifficulty (fun x => x) sevenSolved
    = (Returned decision, sevenSolved)
    /\ tierRank (getDominantDifficulty
                   (filter isSolved (recentWindow sevenSolved))) = Some r
    /\ d_difficulty decision ≫= tierRank = Some r'
    /\ r - 1 <= r' <= r + 1.
Proof.
  destruct (getAdaptiveDifficulty_one_step (fun x => x) sevenSolved)
    as (decision & r & r' & Hrun & Hr & Hr' & Hstep & _).
  - vm_compute. discriminate.
  - apply (bool_decide_unpack _). vm_compute. exact I.
  - exists decision, r, r'. split; [exact Hrun|]. split; [exact Hr|].
    split; [exact Hr'|exact Hstep].
Defined.

(** X19. A window without a solved row: the score is the neutral 20 of the speed
    component, the tier is easy and the puzzle a sequence. *)
Theorem getAdaptiveDifficulty_nothing_solved Math_sqrt w :
  recentWindow w <> [] ->
  plainDifficulties (recentWindow w) ->
  Forall (fun a => ~ isSolved a) (recentWindow w) ->
  exists decision,
    getAdaptiveDifficulty Math_sqrt w = (Returned decision, w)
    /\ performanceScore decision = 20
    /\ d_difficulty decision = Some "easy"
    /\ puzzleType decision = "sequence"
    /\ trend decision = "stable".
Proof.
  intros Hne _ Hnone.
  destruct (getAdaptiveDifficulty_fields Math_sqrt w Hne)
    as (decision & Hrun & Hscore & Htrend & Hdiff & Htype).
  exists decision. split; [exact Hrun|].
  assert (performanceScore decision = 20) as Hs.
  { rewrite Hscore. unfold solveRateScore, speedScore, cleanSolveScore.
    rewrite (filter_none _ _ Hnone). cbn [length].
    rewrite decide_False by lia.
    rewrite (Math_round_Qeq _ (inject_Z 0)), Math_round_inject;
      [reflexivity|].
    unfold len. cbn [length]. change (inject_Z (Z.of_nat 0)) with 0%Q.
    unfold Qdiv. by rewrite !Qmult_0_l. }
  rewrite (filter_none _ _ Hnone) in Htrend, Hdiff, Htype.
  assert (trend decision = "stable") as Ht by (by rewrite Htrend).
  assert (d_difficulty decision = Some "easy") as Hd.
  { rewrite Hdiff, Hs, Ht. vm_compute. reflexivity. }
  split; [exact Hs|]. split; [exact Hd|]. split; [|exact Ht].
  rewrite Htype, Hd. unfold decidePuzzleType.
  case_decide; [reflexivity|]. rewrite decide_True by (simpl; lia).
  reflexivity.
Qed.

Lemma getAdaptiveDifficulty_nothing_solved_witness :
  exists decision,
    getAdaptiveDifficulty (fun x => x) neverSolved
    = (Returned decision, neverSolved)
    /\ performanceScore decision = 20
    /\ d_difficulty decision = Some "easy".
Proof.
  destruct (getAdaptiveDifficulty_nothing_solved (fun x => x) neverSolved)
    as (decision & Hrun & Hscore & Hdiff & _).
  - vm_compute. discriminate.
  - apply (bool_decide_unpack _). vm_compute. exact I.
  - apply (bool_decide_unpack _). vm_compute. exact I.
  - exists decision. split; [exact Hrun|]. split; [exact Hscore|exact Hdiff].
Defined.

Section Flawless.

Lemma computeSpeedScore_fast solved difficulty :
  Forall (fun a => default 60 (timeTaken a) <= 30) solved ->
  solved <> [] ->
  computeSpeedScore solved difficulty = 40.
Proof.
  intros Hfast Hne. unfold computeSpeedScore.
  rewrite decide_False by (by destruct solved).
  pose proof (sum_times_le solved 30 0 Hfast) as Hsum.
  pose proof (expected_time_positive difficulty) as Hexp.
  revert Hsum Hexp.
  generalize (fold_left (fun sum a => sum + default 60 (timeTaken a))
                        solved 0).
  generalize (default 60 (EXPECTED_SOLVE_TIME !! difficulty)).
  intros e total Hsum He.
  assert (30 <= e) as Hbig
    by (repeat (apply elem_of_cons in He as [->|He]; [lia|]);
        by apply elem_of_nil in He).
  assert (0 < length solved)%nat as Hlen
    by (destruct solved; [done|simpl; lia]).
  assert (Qle_bool (inject_Z total / len solved) (inject_Z e) = true) as ->;
    [|reflexivity].
  apply Qle_bool_iff. unfold len. apply Qle_shift_div_r.
  - rewrite <- (Zlt_Qlt 0). lia.
  - rewrite <- inject_Z_mult, <- Zle_Qle. nia.
Qed.

End Flawless.

(** X20. A window of rows all solved at the first attempt within 30 seconds: the
    score is 100, the tier moves up from the dominant one, and with three
    rows or more the puzzle is a matrix. *)
Theorem getAdaptiveDifficulty_flawless_window Math_sqrt w :
  recentWindow w <> [] ->
  plainDifficulties (recentWindow w) ->
  Forall (fun a => isSolved a /\ isClean a /\ default 60 (timeTaken a) <= 30)
         (recentWindow w) ->
  exists decision,
    getAdaptiveDifficulty Math_sqrt w = (Returned decision, w)
    /\ performanceScore decision = 100
    /\ d_difficulty decision
       = DIFFICULTY_UP !! getDominantDifficulty (recentWindow w)
    /\ ((3 <= length (recentWindow w))%nat -> puzzleType decision = "matrix").
Proof.
  intros Hne _ Hall.
  destruct (getAdaptiveDifficulty_fields Math_sqrt w Hne)
    as (decision & Hrun & Hscore & _ & Hdiff & Htype).
  exists decision. split; [exact Hrun|].
  assert (filter isSolved (recentWindow w) = recentWindow w) as Hsolved.
  { apply filter_all. eapply Forall_impl; [exact Hall|]. by intros a [? _]. }
  assert (filter isClean (recentWindow w) = recentWindow w) as Hclean.
  { apply filter_all. eapply Forall_impl; [exact Hall|].
    by intros a (_ & ? & _). }
  assert (Forall (fun a => default 60 (timeTaken a) <= 30) (recentWindow w))
    as Hfast.
  { eapply Forall_impl; [exact Hall|]. by intros a (_ & _ & ?). }
  assert (0 < length (recentWindow w))%nat as Hlen
    by (destruct (recentWindow w); [done|simpl; lia]).
  assert (performanceScore decision = 100) as Hs.
  { rewrite Hscore. unfold solveRateScore, speedScore, cleanSolveScore.
    rewrite Hsolved, Hclean, decide_True by done.
    rewrite computeSpeedScore_fast by done. unfold len.
    change 40%Q with (inject_Z 40). change 20%Q with (inject_Z 20).
    rewrite !Math_round_full by done. reflexivity. }
  rewrite Hsolved in Hdiff, Htype.
  pose proof (getDominantDifficulty_tier (recentWindow w)) as Htier.
  assert (d_difficulty decision
          = DIFFICULTY_UP !! getDominantDifficulty (recentWindow w)) as Hd.
  { rewrite Hdiff, Hs. unfold transition. by rewrite decide_True by lia. }
  split; [exact Hs|]. split; [exact Hd|]. intros Hthree.
  rewrite Htype, Hd, Hs. unfold decidePuzzleType.
  rewrite decide_False by lia. rewrite decide_False by lia.
  rewrite decide_True; [reflexivity|]. split; [lia|].
  revert Htier. generalize (getDominantDifficulty (recentWindow w)).
  intros cur Htier.
  repeat (apply elem_of_cons in Htier as [->|Htier]);
    [| | |by apply elem_of_nil in Htier]; vm_compute; discriminate.
Qed.

Lemma getAdaptiveDifficulty_flawless_window_witness :
  exists decision,
    getAdaptiveDifficulty (fun x => x) sevenSolved
    = (Returned decision, sevenSolved)
    /\ performanceScore decision = 100.
Proof.
  destruct (getAdaptiveDifficulty_flawless_window (fun x => x) sevenSolved)
    as (decision & Hrun & Hscore & _).
  - vm_compute. discriminate.
  - apply (bool_decide_unpack _). vm_compute. exact I.
  - apply (bool_decide_unpack _). vm_compute. exact I.
  - exists decision. split; [exact Hrun|exact Hscore].
Defined.

(** ** The hint budget for every tier *)

(** X21. The budget is the base of the tier plus one when seven solved rows are
    stored: between 1 and 4, so that the cap at 4 never cuts it, and the
    store is left as it was. *)
Theorem computeHintBudget_within_cap (difficulty : string) (w : World) :
  plainKey difficulty ->
  exists budget,
    computeHintBudget difficulty w = (Returned budget, w)
    /\ budget
       = default 1 (baseBudget !! difficulty)
         + (if decide (7 <= length (filter isSolved (history w)))%nat
            then 1 else 0)
    /\ 1 <= budget <= 4.
Proof.
  intros _. rewrite computeHintBudget_run. eexists. split; [reflexivity|].
  unfold baseBudget. rewrite lookup_tiers.
  repeat case_decide; cbn [default from_option id]; lia.
Qed.

Lemma computeHintBudget_within_cap_witness :
  exists budget,
    computeHintBudget "easy" sevenSolved = (Returned budget, sevenSolved)
    /\ 1 <= budget <= 4.
Proof.
  destruct (computeHintBudget_within_cap "easy" sevenSolved)
    as (budget & Hrun & _ & Hbounds).
  - apply (bool_decide_unpack _). vm_compute. exact I.
  - exists budget. split; [exact Hrun|exact Hbounds].
Defined.

(** ** The store *)

Section Writes.

Lemma saveDailyActivity_run activity d w :
  in_date activity = Some d ->
  exists record,
    saveDailyActivity activity w
    = (Returned record,
       {| activities := <[d := record]> (activities w); clock := clock w |})
    /\ date record = d
    /\ createdAt record
       = Some (default (clock w)
                 (coalesce (activities w !! d ≫= createdAt)
                           (in_createdAt activity)))
    /\ synced record
       = Some (FNum (if truthy (default (FNum 0)
                                  (coalesce (in_synced activity)
                                            (activities w !! d ≫= synced)))
                     then 1 else 0))
    /\ attempts record
       = Some (default 1 (coalesce (in_attempts activity)
                                   (activities w !! d ≫= attempts))).
Proof.
  intros Hd. unfold saveDailyActivity. rewrite Hd.
  eexists. split; [reflexivity|]. repeat split.
Qed.

End Writes.

(** X22. A saved record is what a lookup of its date returns afterwards, and the
    lookups of the other dates return what they did before. *)
Theorem saveDailyActivity_then_get activity d w :
  in_date activity = Some d ->
  exists record w',
    saveDailyActivity activity w = (Returned record, w')
    /\ getActivityByDate (Some d) w' = (Returned (Some record), w')
    /\ (forall d', d' <> d ->
          getActivityByDate (Some d') w'
          = (Returned (activities w !! d'), w')).
Proof.
  intros Hd.
  destruct (saveDailyActivity_run activity d w Hd) as (record & Hrun & _).
  eexists record, _. split; [exact Hrun|].
  unfold getActivityByDate, activities_get. cbn [activities]. split.
  - by rewrite lookup_insert_eq.
  - intros d' Hd'. by rewrite lookup_insert_ne.
Qed.

Lemma saveDailyActivity_then_get_witness :
  exists record w',
    saveDailyActivity (resaveSynced (row 19726 80 20 "easy" true 1)) mixed
    = (Returned record, w')
    /\ getActivityByDate (Some 19726) w' = (Returned (Some record), w').
Proof.
  destruct (saveDailyActivity_then_get
              (resaveSynced (row 19726 80 20 "easy" true 1)) 19726 mixed)
    as (record & w' & Hrun & Hget & _); [reflexivity|].
  exists record, w'. split; [exact Hrun|exact Hget].
Defined.

(** X23. Saving [{ ...saved, synced: 1 }] after a save changes the [synced] flag
    of the stored record to 1 and nothing else: the creation time and the
    other fields stay. *)
Theorem saveDailyActivity_resave_synced activity d w saved w1 :
  in_date activity = Some d ->
  saveDailyActivity activity w = (Returned saved, w1) ->
  exists w2,
    saveDailyActivity (resaveSynced saved) w1
    = (Returned (applyChanges syncedOne saved), w2)
    /\ activities w2 = <[d := applyChanges syncedOne saved]> (activities w1)
    /\ clock w2 = clock w1.
Proof.
  intros Hd Hsave.
  destruct (saveDailyActivity_run activity d w Hd)
    as (record & Hrun & Hdate & _).
  rewrite Hrun in Hsave. injection Hsave as <- <-.
  exists {| activities :=
              <[d := applyChanges syncedOne record]>
                (<[d := record]> (activities w));
            clock := clock w |}.
  split; [|split; reflexivity].
  unfold saveDailyActivity at 1. cbn [resaveSynced in_date].
  unfold mbind, IO_bind, activities_get, Date_now, activities_put.
  cbn [activities clock date]. rewrite Hdate, lookup_insert_eq.
  cbn [mret IO_ret].
  assert (forall (r r' : Activity) (m : gmap Z Activity) c,
             r = r' -> date r' = d ->
             (Returned r, {| activities := <[date r := r]> m; clock := c |})
             = (Returned r', {| activities := <[d := r']> m; clock := c |}))
    as Hsame by (by intros r r' m c -> <-).
  apply Hsame; [|exact Hdate].
  unfold saveDailyActivity, mbind, IO_bind, activities_get, Date_now,
    activities_put in Hrun.
  rewrite Hd in Hrun. injection Hrun as Hrecord _. subst record.
  reflexivity.
Qed.

Lemma saveDailyActivity_resave_synced_witness :
  exists saved w1 w2,
    saveDailyActivity (resaveSynced (row 19726 80 20 "easy" true 1)) mixed
    = (Returned saved, w1)
    /\ saveDailyActivity (resaveSynced saved) w1
       = (Returned (applyChanges syncedOne saved), w2).
Proof.
  destruct (saveDailyActivity_run
              (resaveSynced (row 19726 80 20 "easy" true 1)) 19726 mixed
              eq_refl) as (saved & Hsave & _).
  destruct (saveDailyActivity_resave_synced
              (resaveSynced (row 19726 80 20 "easy" true 1)) 19726 mixed
              saved _ eq_refl Hsave) as (w2 & Hrun & _).
  eexists saved, _, w2. split; [exact Hsave|exact Hrun].
Defined.

(** X24. A failed attempt is counted on the row of the day when there is one,
    all its other fields staying as they are, and no row is created when
    there is none; the rows of other days are not touched. *)
Theorem incrementAttempts_effect (d : Z) (w : World) :
  exists w',
    incrementAttempts (Some d) w = (Returned tt, w')
    /\ clock w' = clock w
    /\ (forall d', d' <> d -> activities w' !! d' = activities w !! d')
    /\ match activities w !! d with
       | None => activities w' !! d = None
       | Some e =>
           exists e',
             activities w' !! d = Some e'
             /\ attempts e' = Some (default 0 (attempts e) + 1)
             /\ (date e', uid e', score e', timeTaken e', difficulty e')
                = (date e, uid e, score e, timeTaken e, difficulty e)
             /\ (solved e', puzzleSeed e', synced e', createdAt e')
                = (solved e, puzzleSeed e, synced e, createdAt e)
       end.
Proof.
  unfold incrementAttempts, getActivityByDate, mbind, IO_bind, activities_get.
  destruct (activities w !! d) as [e|] eqn:He.
  - eexists. split; [reflexivity|]. cbn [activities clock].
    split; [reflexivity|]. split.
    + intros d' Hd'. by rewrite lookup_alter_ne.
    + eexists. rewrite lookup_alter_eq, He. split; [reflexivity|].
      split; [reflexivity|]. split; reflexivity.
  - exists w. split; [reflexivity|]. split; [reflexivity|].
    split; [reflexivity|exact He].
Qed.

Section Sync.

Lemma applyChanges_syncedOne_twice a :
  applyChanges syncedOne (applyChanges syncedOne a) = applyChanges syncedOne a.
Proof. reflexivity. Qed.

Lemma markActivitiesSynced_run dates w :
  exists w',
    markActivitiesSynced dates w = (Returned tt, w')
    /\ clock w' = clock w
    /\ forall k,
         activities w' !! k
         = if decide (k ∈ dates)
           then applyChanges syncedOne <$> activities w !! k
           else activities w !! k.
Proof.
  revert w. induction dates as [|d dates IH]; intros w.
  - exists w. split; [reflexivity|]. split; [reflexivity|]. intros k.
    rewrite decide_False; [reflexivity|]. apply not_elem_of_nil.
  - cbn [markActivitiesSynced foldr]. unfold mbind, IO_bind at 1.
    unfold activities_update at 1.
    destruct (IH {| activities :=
                      alter (applyChanges syncedOne) d (activities w);
                    clock := clock w |}) as (w' & Hrun & Hclock & Hlook).
    exists w'. split; [exact Hrun|]. split; [exact Hclock|]. intros k.
    rewrite Hlook. cbn [activities].
    destruct (decide (k = d)) as [->|Hk].
    + rewrite lookup_alter_eq, (decide_True (P := d ∈ d :: dates))
        by apply list_elem_of_here.
      case_decide; [|reflexivity].
      destruct (activities w !! d); reflexivity.
    + rewrite lookup_alter_ne by done.
      destruct (decide (k ∈ dates)) as [Hin|Hin].
      * by rewrite decide_True by (by apply list_elem_of_further).
      * rewrite decide_False; [reflexivity|].
        by intros [?|?]%elem_of_cons.
Qed.

Lemma elem_of_getUnsyncedActivities w :
  exists rows,
    getUnsyncedActivities w = (Returned rows, w)
    /\ forall a, a ∈ rows
                 <-> synced a = Some (FNum 0)
                     /\ exists k, activities w !! k = Some a.
Proof.
  eexists. split; [reflexivity|]. intros a.
  rewrite list_elem_of_filter, elem_of_sort, list_elem_of_fmap.
  apply and_iff_compat_l. split.
  - intros [[k a'] [-> Hin%elem_of_map_to_list]]. by exists k.
  - intros [k Hk]. exists (k, a). split; [done|].
    by apply elem_of_map_to_list.
Qed.

End Sync.

(** X25. After [markActivitiesSynced dates] the unsynced rows are the rows that
    were unsynced before and whose date is not among [dates]; marking the
    dates of all unsynced rows leaves none. *)
Theorem markActivitiesSynced_then_unsynced (dates : list Z) (w : World) :
  keyed w ->
  exists before w' after,
    getUnsyncedActivities w = (Returned before, w)
    /\ markActivitiesSynced dates w = (Returned tt, w')
    /\ getUnsyncedActivities w' = (Returned after, w')
    /\ (forall a, a ∈ after <-> a ∈ before /\ date a ∉ dates)
    /\ (date <$> before ⊆ dates -> after = []).
Proof.
  intros Hkeyed.
  destruct (elem_of_getUnsyncedActivities w) as (before & Hbefore & Hin).
  destruct (markActivitiesSynced_run dates w)
    as (w' & Hmark & _ & Hlook).
  destruct (elem_of_getUnsyncedActivities w') as (after & Hafter & Hin').
  exists before, w', after. split; [exact Hbefore|]. split; [exact Hmark|].
  split; [exact Hafter|].
  assert (forall a, a ∈ after <-> a ∈ before /\ date a ∉ dates) as Hiff.
  { intros a. rewrite Hin', Hin. split.
    - intros (Hs & k & Hk). rewrite Hlook in Hk.
      destruct (decide (k ∈ dates)) as [Hmarked|Hnot].
      + destruct (activities w !! k) as [e|]; [|done].
        injection Hk as <-. done.
      + split; [by eauto|].
        by rewrite (Hkeyed k a Hk).
    - intros [(Hs & k & Hk) Hnot]. split; [done|]. exists k.
      rewrite Hlook, decide_False; [done|].
      by rewrite <- (Hkeyed k a Hk). }
  split; [exact Hiff|]. intros Hall.
  destruct after as [|a after]; [reflexivity|].
  destruct (proj1 (Hiff a)) as [Ha Hnot]; [apply list_elem_of_here|].
  destruct Hnot. apply Hall, list_elem_of_fmap. by exists a.
Qed.

Lemma markActivitiesSynced_then_unsynced_witness :
  exists before w' after,
    getUnsyncedActivities mixed = (Returned before, mixed)
    /\ markActivitiesSynced [19723; 19725] mixed = (Returned tt, w')
    /\ getUnsyncedActivities w' = (Returned after, w')
    /\ (forall a, a ∈ after <-> a ∈ before /\ date a ∉ [19723; 19725]).
Proof.
  destruct (markActivitiesSynced_then_unsynced [19723; 19725] mixed)
    as (before & w' & after & Hbefore & Hmark & Hafter & Hiff & _).
  - apply (bool_decide_unpack _). vm_compute. exact I.
  - exists before, w', after. split; [exact Hbefore|].
    split; [exact Hmark|]. split; [exact Hafter|exact Hiff].
Defined.

Section Keys.

Lemma keyed_insert d record w :
  keyed w -> date record = d ->
  keyed {| activities := <[d := record]> (activities w); clock := clock w |}.
Proof.
  intros Hkeyed Hd k a. cbn [activities].
  destruct (decide (k = d)) as [->|Hk].
  - rewrite lookup_insert_eq. by intros [= <-].
  - rewrite lookup_insert_ne by done. apply Hkeyed.
Qed.

Lemma keyed_alter d changes w :
  keyed w ->
  keyed {| activities := alter (applyChanges changes) d (activities w);
           clock := clock w |}.
Proof.
  intros Hkeyed k a. cbn [activities].
  destruct (decide (k = d)) as [->|Hk].
  - rewrite lookup_alter_eq.
    destruct (activities w !! d) as [e|] eqn:He; [|done].
    intros [= <-]. cbn [applyChanges date]. by apply Hkeyed.
  - rewrite lookup_alter_ne by done. apply Hkeyed.
Qed.

Lemma keyed_dates w : keyed w -> NoDup (date <$> history w).
Proof.
  intros Hkeyed. unfold history. rewrite sort_Permutation.
  rewrite <- list_fmap_compose.
  rewrite (list_fmap_ext _ fst (map_to_list (activities w))).
  - apply NoDup_fst_map_to_list.
  - intros i [k a] Hlook. simpl.
    apply list_elem_of_lookup_2, elem_of_map_to_list in Hlook.
    by apply Hkeyed.
Qed.

End Keys.

(** X26. Every write of the module keeps each row under its own date, and a
    store kept so lists one row a date. *)
Theorem writes_keep_keyed (w : World) :
  keyed w ->
  (forall activity, keyed (saveDailyActivity activity w).2)
  /\ (forall date patch, keyed (patchActivity date patch w).2)
  /\ (forall dates, keyed (markActivitiesSynced dates w).2)
  /\ (forall date, keyed (incrementAttempts date w).2)
  /\ NoDup (date <$> history w).
Proof.
  intros Hkeyed. split; [|split; [|split; [|split]]].
  - intros activity. destruct (in_date activity) as [d|] eqn:Hd.
    + destruct (saveDailyActivity_run activity d w Hd)
        as (record & -> & Hdate & _).
      by apply keyed_insert.
    + unfold saveDailyActivity. by rewrite Hd.
  - intros [d|] patch; [|done]. by apply keyed_alter.
  - intros dates. revert w Hkeyed.
    induction dates as [|d dates IH]; intros w Hkeyed; [done|].
    cbn [markActivitiesSynced foldr]. unfold mbind, IO_bind at 1.
    unfold activities_update at 1. by apply IH, keyed_alter.
  - intros [d|]; [|done].
    unfold incrementAttempts, getActivityByDate, mbind, IO_bind,
      activities_get.
    destruct (activities w !! d); [|done]. by apply keyed_alter.
  - by apply keyed_dates.
Qed.

Lemma writes_keep_keyed_witness :
  keyed (incrementAttempts (Some 19724) mixed).2
  /\ NoDup (date <$> history mixed).
Proof.
  destruct (writes_keep_keyed mixed) as (_ & _ & _ & Hinc & Hdates).
  - apply (bool_decide_unpack _). vm_compute. exact I.
  - split; [apply Hinc|exact Hdates].
Defined.

(** ** The order of the rows and the two streak computations *)

Section Newest.

Lemma sort_insert_newestFirst x l :
  StronglySorted (fun a b => date b <= date a) l ->
  StronglySorted (fun a b => date b <= date a) (sort_insert newestFirst x l).
Proof.
  induction 1 as [|y l Hl IH Hy]; simpl; [by repeat constructor|].
  unfold newestFirst at 1. case_decide as Hxy.
  - constructor; [by constructor|]. case_decide; [lia|].
    constructor; [lia|].
    eapply Forall_impl; [exact Hy|]. intros z Hz. simpl in *. lia.
  - constructor; [done|]. rewrite sort_insert_Permutation.
    case_decide; [|lia]. constructor; [lia|done].
Qed.

Lemma sort_newestFirst l :
  StronglySorted (fun a b => date b <= date a) (sort newestFirst l).
Proof.
  induction l as [|x l IH]; simpl; [constructor|].
  by apply sort_insert_newestFirst.
Qed.

Lemma newest_strict l :
  StronglySorted (fun a b : Activity => date b <= date a) l ->
  NoDup (date <$> l) ->
  StronglySorted (fun a b : Activity => date b < date a) l.
Proof.
  induction 1 as [|x l Hl IH Hx]; [constructor|].
  rewrite fmap_cons. intros [Hnotin Hnodup]%NoDup_cons.
  constructor; [by apply IH|].
  apply Forall_forall. intros y Hy.
  assert (date y <= date x) by (by eapply Forall_forall in Hx).
  assert (date x <> date y).
  { intros Heq. apply Hnotin. rewrite Heq. apply list_elem_of_fmap.
    by exists y. }
  lia.
Qed.

End Newest.

(** X27. [getAllActivities] lists every row of the store once, each date being
    strictly before the one listed before it. *)
Theorem getAllActivities_newest_first (w : World) :
  keyed w ->
  exists all,
    getAllActivities w = (Returned all, w)
    /\ StronglySorted (fun a b => date b < date a) all
    /\ (forall a, a ∈ all <-> activities w !! date a = Some a).
Proof.
  intros Hkeyed. exists (history w). split; [apply getAllActivities_run|].
  split.
  - apply newest_strict; [apply sort_newestFirst|by apply keyed_dates].
  - intros a. rewrite elem_of_history. split.
    + intros [k Hk]. by rewrite (Hkeyed k a Hk).
    + intros Ha. by exists (date a).
Qed.

Lemma getAllActivities_newest_first_witness :
  exists all,
    getAllActivities mixed = (Returned all, mixed)
    /\ StronglySorted (fun a b => date b < date a) all.
Proof.
  destruct (getAllActivities_newest_first mixed) as (all & Hrun & Hsorted & _).
  - apply (bool_decide_unpack _). vm_compute. exact I.
  - exists all. split; [exact Hrun|exact Hsorted].
Defined.

(** X28. The two streak computations, of the streak engine and of the
    retention engine, return the same streaks on every store and clock and
    in every time zone. *)
Theorem streak_engines_agree (zone : Dayjs.Zone) (w : World) :
  StreakEngine.calculateStreaks zone w
  = RetentionEngine.computeRetentionData_streaks zone w.
Proof.
  unfold StreakEngine.calculateStreaks,
    RetentionEngine.computeRetentionData_streaks, mbind, IO_bind.
  rewrite getAllActivities_run. unfold RetentionEngine.buildStreaks.
  generalize (sortDates (map date (filter isSolved (history w)))).
  intros [|first rest]; [reflexivity|].
  unfold mbind, IO_bind, dayjs_today. cbn [mret IO_ret].
  rewrite forwardPass_agree by lia.
  generalize (RetentionEngine.forwardPass zone first rest 1 1).
  generalize (list_to_set (first :: rest) : gset Z).
  intros solvedSet longest.
  destruct (anchorOf solvedSet (clock w / msPerDay) (clock w / msPerDay - 1))
    as [start|]; [|reflexivity].
  unfold of_fuel.
  destruct (walkBack (S (size solvedSet)) solvedSet start 0); reflexivity.
Qed.

(** ** Rolling averages *)

Section Averages.

Lemma sum_between (l : list Z) (lo hi acc : Z) :
  Forall (fun v => lo <= v <= hi) l ->
  acc + lo * Z.of_nat (length l)
  <= fold_left (fun s v => s + v) l acc
  <= acc + hi * Z.of_nat (length l).
Proof.
  intros Hall. revert acc.
  induction Hall as [|v l Hv _ IH]; intros acc; [simpl; lia|].
  cbn [fold_left length]. specialize (IH (acc + v)). lia.
Qed.

Lemma mean_between (total lo hi : Z) (n : nat) :
  (0 < n)%nat ->
  lo * Z.of_nat n <= total <= hi * Z.of_nat n ->
  lo <= Math_round (inject_Z total / inject_Z (Z.of_nat n))%Q <= hi.
Proof.
  intros Hn [Hlo Hhi].
  assert (0 < inject_Z (Z.of_nat n))%Q as Hpos
    by (rewrite <- (Zlt_Qlt 0); lia).
  apply Math_round_between.
  - apply Qle_shift_div_l; [done|].
    rewrite <- inject_Z_mult, <- Zle_Qle. lia.
  - apply Qle_shift_div_r; [done|].
    rewrite <- inject_Z_mult, <- Zle_Qle. lia.
Qed.

End Averages.

(** X29. The rolling average has one entry a value: null while the window is not
    full, and afterwards a number within the bounds of the values. *)
Theorem rollingAverage_within (values : list Z) (window : nat) (lo hi : Z) :
  (0 < window)%nat ->
  Forall (fun v => lo <= v <= hi) values ->
  length (rollingAverage values window) = length values
  /\ forall i, (i < length values)%nat ->
       if decide (i < window - 1)%nat
       then rollingAverage values window !! i = Some None
       else exists v, rollingAverage values window !! i = Some (Some v)
                      /\ lo <= v <= hi.
Proof.
  intros Hwindow Hall. unfold rollingAverage. split; [apply length_imap|].
  intros i Hi. rewrite list_lookup_imap.
  destruct (lookup_lt_is_Some_2 values i Hi) as [x ->].
  cbn [fmap option_fmap option_map].
  case_decide as Hfull; [reflexivity|].
  eexists. split; [reflexivity|]. apply mean_between; [done|].
  assert (length (slice (i + 1 - window) (i + 1) values) = window) as Hlen.
  { unfold slice. rewrite length_take, length_drop. lia. }
  pose proof (sum_between (slice (i + 1 - window) (i + 1) values) lo hi 0)
    as Hsum.
  rewrite Hlen, !Z.add_0_l in Hsum. apply Hsum.
  unfold slice. by apply Forall_take, Forall_drop.
Qed.

Lemma rollingAverage_within_witness :
  length (rollingAverage [10; 20; 30; 40] 2) = 4%nat
  /\ exists v, rollingAverage [10; 20; 30; 40] 2 !! 3%nat = Some (Some v)
               /\ 10 <= v <= 40.
Proof.
  destruct (rollingAverage_within [10; 20; 30; 40] 2 10 40) as [Hlen Hvals].
  - lia.
  - repeat constructor; lia.
  - split; [exact Hlen|]. apply (Hvals 3%nat). simpl. lia.
Defined.

(** ** Clean streaks *)

Section Clean.

Lemma snoc_split (p : list Activity) s before suffix :
  p ++ [s] = before ++ suffix ->
  suffix = []
  \/ exists suffix', suffix = suffix' ++ [s] /\ p = before ++ suffix'.
Proof.
  destruct suffix as [|x suffix _] using rev_ind; [by left|].
  rewrite app_assoc. intros [-> ->]%app_inj_tail. right. by exists suffix.
Qed.

Lemma clean_inv_nil : clean_inv [] 0 0.
Proof.
  split.
  - by exists [], [].
  - intros before suffix Heq _. symmetry in Heq.
    apply app_eq_nil in Heq as [_ ->]. done.
  - exists []. split; [|done]. split; [constructor|]. by exists [], [].
  - intros r (_ & before & after & Heq). symmetry in Heq.
    apply app_eq_nil in Heq as [_ [-> _]%app_eq_nil]. done.
Qed.

Lemma cleanRun_snoc p s r :
  cleanRun (p ++ [s]) r ->
  cleanRun p r
  \/ exists before, p ++ [s] = before ++ r /\ Forall firstTry r.
Proof.
  intros (Hclean & before & after & Heq).
  rewrite app_assoc in Heq. pose proof Heq as Heq'.
  apply snoc_split in Heq as [->|(after' & -> & ->)].
  - right. exists before. split; [|done]. by rewrite app_nil_r in Heq'.
  - left. split; [done|]. exists before, after'. by rewrite app_assoc.
Qed.

Lemma cleanRun_grow p s r : cleanRun p r -> cleanRun (p ++ [s]) r.
Proof.
  intros (Hclean & before & after & ->). split; [done|].
  exists before, (after ++ [s]). by rewrite <- !app_assoc.
Qed.

Lemma clean_inv_clean p best run s :
  clean_inv p best run -> firstTry s ->
  clean_inv (p ++ [s]) (if decide (run + 1 > best) then run + 1 else best)
            (run + 1).
Proof.
  intros [(before & suffix & -> & Hsuffix & Hlen) Htail
          (r & Hr & Hbest) Hlongest] Hs.
  assert (Forall firstTry (suffix ++ [s])) as Hsuffix'
    by (apply Forall_app; split; [done|by constructor]).
  assert (forall before' suffix',
             (before ++ suffix) ++ [s] = before' ++ suffix' ->
             Forall firstTry suffix' ->
             Z.of_nat (length suffix') <= run + 1) as Htail'.
  { intros before' suffix' [->|(suffix'' & -> & Heq)]%snoc_split Hclean;
      [simpl; lia|].
    apply Forall_app in Hclean as [Hclean _].
    specialize (Htail before' suffix'' Heq Hclean).
    rewrite length_app. simpl. lia. }
  split.
  - exists before, (suffix ++ [s]). rewrite app_assoc. split; [done|].
    split; [done|]. rewrite length_app. simpl. lia.
  - exact Htail'.
  - case_decide.
    + exists (suffix ++ [s]). split.
      * split; [done|]. exists before, []. by rewrite app_nil_r, app_assoc.
      * rewrite length_app. simpl. lia.
    + exists r. split; [by apply cleanRun_grow|done].
  - intros r' [Hr'|(before' & Heq & Hclean)]%cleanRun_snoc.
    + specialize (Hlongest r' Hr'). case_decide; lia.
    + specialize (Htail' before' r' Heq Hclean). case_decide; lia.
Qed.

Lemma clean_inv_spoilt p best run s :
  clean_inv p best run -> ~ firstTry s -> clean_inv (p ++ [s]) best 0.
Proof.
  intros [_ Htail (r & Hr & Hbest) Hlongest] Hs.
  assert (forall before' suffix',
             p ++ [s] = before' ++ suffix' ->
             Forall firstTry suffix' ->
             Z.of_nat (length suffix') <= 0) as Htail'.
  { intros before' suffix' [->|(suffix'' & -> & Heq)]%snoc_split Hclean;
      [simpl; lia|].
    apply Forall_app in Hclean as [_ Hclean].
    apply Forall_cons in Hclean as [Hclean _]. by destruct Hs. }
  split.
  - exists (p ++ [s]), []. rewrite app_nil_r. split; [done|].
    split; [constructor|done].
  - exact Htail'.
  - exists r. split; [by apply cleanRun_grow|done].
  - intros r' [Hr'|(before' & Heq & Hclean)]%cleanRun_snoc.
    + by apply Hlongest.
    + specialize (Htail' before' r' Heq Hclean).
      assert (cleanRun p []) as Hnil
        by (split; [constructor|by exists [], p]).
      specialize (Hlongest [] Hnil). simpl in Hlongest. lia.
Qed.

Lemma cleanLoop_inv rest :
  forall p best run,
    clean_inv p best run ->
    exists run', clean_inv (p ++ rest) (cleanLoop rest best run) run'.
Proof.
  induction rest as [|s rest IH]; intros p best run Hinv.
  - exists run. by rewrite app_nil_r.
  - cbn [cleanLoop].
    replace (p ++ s :: rest) with ((p ++ [s]) ++ rest)
      by (by rewrite <- app_assoc).
    case_decide as Hs.
    + eapply IH. by apply clean_inv_clean.
    + eapply IH. by eapply clean_inv_spoilt.
Qed.

End Clean.

(** X30. [longestCleanStreak] is the length of a stretch of consecutive sessions
    all solved at the first attempt, and no such stretch is longer. *)
Theorem longestCleanStreak_longest_run (sessions : list Activity) :
  (exists run, cleanRun sessions run
               /\ Z.of_nat (length run) = longestCleanStreak sessions)
  /\ (forall run, cleanRun sessions run ->
                  Z.of_nat (length run) <= longestCleanStreak sessions).
Proof.
  destruct (cleanLoop_inv sessions [] 0 0 clean_inv_nil)
    as (run' & [_ _ Hbest Hlongest]).
  split; [exact Hbest|exact Hlongest].
Qed.
